(** * PublicaMundi Data API: the query compiler and execution engine

    A shallow embedding of [src/publicamundi/data/api/base.py]
    (class [QueryExecutor], Python 2) and the properties its
    specification states.

    Modelling conventions.
    - A decoded request is a Python object tree: [value].  [VInt] holds
      an integer of any size: it is an [int] when it lies within
      [sys.maxint] (a field of the [Environment]) and a [long] beyond, and
      [isinstance(x, int)] tells the two apart.  [VFloat] stands for
      [float]; [int(x)] truncates toward zero.
    - A float is a rational of [Q].  The statement timeout of line 500 is
      computed as Python computes it: on integers while the elapsed time is
      the [int] it starts as, and on doubles afterwards, each operation
      rounded by [float_round] of the [Environment].  Nothing is assumed of
      that rounding in the model; the properties that need it name what they
      need ([rounds]).  The sum of line 506 is kept exact.
    - A dict is an association list in insertion order ([dict V]).
      Python 2 iterates a dict in an implementation order of its own:
      [dict_order] of the [Environment] gives it, and the loop that writes
      the expanded field list into the query (lines 294 to 299) iterates by
      it ([iterate]).  The dicts the compiler builds for itself
      ([parsed_query]) are read in insertion order, which is what the
      specification prescribes; a property that speaks of a dict the
      program returns does not speak of the order of its keys.
    - Exceptions are values of [exn].  A computation that may raise and
      that mutates objects is a function [S -> Result A * S]: the state
      survives a raise, as a mutated Python object does.
    - The two databases, the clock and the shapely codec are the fields of
      one [Environment] record.  Opening and closing the connections, and
      a failure of the catalog, introspection or [SET LOCAL] statements
      themselves, are not modelled.
    - Names, aliases and resource references are strings in the wire
      format.  Where Python would take any hashable object as a dict key
      the model raises [Unmodelled]: it says nothing about such requests. *)

From Stdlib Require Import ZArith QArith Lqa String Ascii List Bool Lia DecimalString.
From Stdlib Require Import Permutation.
Import ListNotations.
Set Warnings "-register-all".
Open Scope Z_scope.
Open Scope list_scope.
Open Scope string_scope.

(** ** Python values *)

(** A shapely geometry, identified by the text [shapely.wkt.dumps] gives. *)
Inductive BaseGeometry : Type :=
| Geometry (wkt : string).

Definition wkt_dumps (g : BaseGeometry) : string :=
  match g with Geometry w => w end.

Inductive value : Type :=
| VNone
| VBool (b : bool)
| VInt (n : Z)
| VFloat (x : Q)
| VStr (s : string)
| VList (items : list value)
| VDict (items : list (string * value))
| VGeom (g : BaseGeometry).

(** ** Dicts as association lists in insertion order *)

Definition dict (V : Type) : Type := list (string * V).

Fixpoint dict_get {V} (k : string) (d : dict V) : option V :=
  match d with
  | [] => None
  | (k', v) :: d' => if String.eqb k k' then Some v else dict_get k d'
  end.

Definition dict_has {V} (k : string) (d : dict V) : bool :=
  match dict_get k d with Some _ => true | None => false end.

(** [d[k] = v]: an existing key keeps its place, a new one goes last. *)
Fixpoint dict_set {V} (k : string) (v : V) (d : dict V) : dict V :=
  match d with
  | [] => [(k, v)]
  | (k', v') :: d' =>
      if String.eqb k k' then (k', v) :: d' else (k', v') :: dict_set k v d'
  end.

Definition dict_keys {V} (d : dict V) : list string := map fst d.

(** ** Text *)

(** The double quote character, as a one-character string. *)
Definition dq : string := String (ascii_of_nat 34) EmptyString.

Definition str_of_Z (z : Z) : string := NilZero.string_of_int (Z.to_int z).

Fixpoint is_substring (s t : string) : bool :=
  String.prefix s t ||
  match t with
  | EmptyString => false
  | String _ t' => is_substring s t'
  end.

Definition str_in (s : string) (l : list string) : bool :=
  existsb (String.eqb s) l.

(** [sep.join(l)] *)
Definition join (sep : string) (l : list string) : string := String.concat sep l.

(** [l.index(s)] for an [s] known to be in [l]; [length l] otherwise. *)
Fixpoint index_of (s : string) (l : list string) : nat :=
  match l with
  | [] => O
  | x :: l' => if String.eqb s x then O else S (index_of s l')
  end.

(** ** Exceptions *)

Inductive PyError : Type :=
| KeyError (key : string)
| IndexError
| TypeError
| AttributeError
| ValueError
| DBAPIError (pgcode : string)
| ReadingError
| Unmodelled (what : string).

Inductive exn : Type :=
| DataException (message : string) (innerException : option PyError)
| PyExc (e : PyError).

Inductive Result (A : Type) : Type :=
| Ok (a : A)
| Raise (e : exn).
Arguments Ok {A} a.
Arguments Raise {A} e.

(** ** The state and exception monad *)

Definition M (S A : Type) : Type := S -> Result A * S.

Definition ret {S A} (a : A) : M S A := fun s => (Ok a, s).

Definition raise {S A} (e : exn) : M S A := fun s => (Raise e, s).

Definition bind {S A B} (m : M S A) (k : A -> M S B) : M S B :=
  fun s =>
    match m s with
    | (Ok a, s') => k a s'
    | (Raise e, s') => (Raise e, s')
    end.

Definition get {S} : M S S := fun s => (Ok s, s).

Definition gets {S A} (f : S -> A) : M S A := fun s => (Ok (f s), s).

Definition put {S} (s : S) : M S unit := fun _ => (Ok tt, s).

Definition modify {S} (f : S -> S) : M S unit := fun s => (Ok tt, f s).

Definition lift {S A} (r : Result A) : M S A := fun s => (r, s).

Declare Scope py_scope.
Delimit Scope py_scope with py.
Notation "x <- m ;; k" := (bind m (fun x => k))
  (at level 61, m at next level, right associativity) : py_scope.
Notation "' pat <- m ;; k" := (bind m (fun x => match x with pat => k end))
  (at level 61, pat pattern, m at next level, right associativity) : py_scope.
Notation "m ;;; k" := (bind m (fun _ => k))
  (at level 61, right associativity) : py_scope.
Open Scope py_scope.

(** [for x in l: body(x)] *)
Fixpoint for_each {S A} (l : list A) (body : A -> M S unit) : M S unit :=
  match l with
  | [] => ret tt
  | x :: l' => body x ;;; for_each l' body
  end.

(** Run [m] on a part of the state: the object [m] mutates is reached
    through [proj] and stored back through [upd], raise or not. *)
Definition zoom {S T A} (proj : S -> T) (upd : T -> S -> S) (m : M T A) : M S A :=
  fun s => let (r, t) := m (proj s) in (r, upd t s).

(** [try: m except ValueError: raise e] *)
Definition except_ValueError {S A} (m : M S A) (e : exn) : M S A :=
  fun s =>
    match m s with
    | (Raise (PyExc ValueError), s') => (Raise e, s')
    | r => r
    end.

(** ** Python operators on values *)

(** [k in v] for a string [k] *)
Definition py_in (k : string) (v : value) : Result bool :=
  match v with
  | VDict d => Ok (dict_has k d)
  | VList l =>
      Ok (existsb (fun x => match x with VStr s => String.eqb k s | _ => false end) l)
  | VStr s => Ok (is_substring k s)
  | VGeom _ => Raise (PyExc (Unmodelled "membership test on a geometry"))
  | _ => Raise (PyExc TypeError)
  end.

(** [v[k]] for a string [k] *)
Definition py_getitem (v : value) (k : string) : Result value :=
  match v with
  | VDict d =>
      match dict_get k d with
      | Some x => Ok x
      | None => Raise (PyExc (KeyError k))
      end
  | _ => Raise (PyExc TypeError)
  end.

(** [v[k] = x] for a string [k] *)
Definition py_setitem (v : value) (k : string) (x : value) : Result value :=
  match v with
  | VDict d => Ok (VDict (dict_set k x d))
  | _ => Raise (PyExc TypeError)
  end.

(** [isinstance(v, numbers.Number)]: [bool] is a subclass of [int]. *)
Definition is_number (v : value) : bool :=
  match v with
  | VBool _ | VInt _ | VFloat _ => true
  | _ => false
  end.

(** [isinstance(v, int)], where [sys.maxint] is [maxint]: an integer
    outside [-maxint - 1 .. maxint] is a [long], which is no [int]. *)
Definition is_int (maxint : Z) (v : value) : bool :=
  match v with
  | VBool _ => true
  | VInt n => Z.leb (- maxint - 1) n && Z.leb n maxint
  | _ => false
  end.

(** [isinstance(v, float)] *)
Definition is_float (v : value) : bool :=
  match v with
  | VFloat _ => true
  | _ => false
  end.

(** The number a numeric value stands for; 0 for anything else. *)
Definition num (v : value) : Q :=
  match v with
  | VBool true => 1%Q
  | VInt n => inject_Z n
  | VFloat x => x
  | _ => 0%Q
  end.

Definition Qlt_bool (x y : Q) : bool := negb (Qle_bool y x).

(** [int(x)] of a float *)
Definition py_int (x : Q) : Z := Z.quot (Qnum x) (Zpos (Qden x)).

(** A name, alias or resource reference used as a dict key. *)
Definition as_key (v : value) : Result string :=
  match v with
  | VStr s => Ok s
  | _ => Raise (PyExc (Unmodelled "key that is not a string"))
  end.

(** ** The environment: databases, clock and codecs *)

(** One row of the catalog discovery statement. *)
Record CatalogRow : Type := {
  db_resource_id : string;
  row_package_title : option string;
  row_package_notes : option string;
  row_resource_name : option string;
  wms_resource_id : option string;
  row_geometry_type : option string;
  row_wms_server : option string;
  row_wms_layer : option string
}.

(** One row of the introspection statement. *)
Record ColumnRow : Type := {
  col_name : string;
  col_type : string;
  col_position : Z;
  col_srid : option Z
}.

(** What the data connection answers to a compiled statement. *)
Inductive DbReply : Type :=
| Rows (records : list (dict value))
| DbError (pgcode : string).

Record Environment : Type := {
  (** rows of the catalog discovery statement *)
  catalog_rows : list CatalogRow;
  (** rows of the introspection statement for [:resource] *)
  table_columns : string -> list ColumnRow;
  (** statement_timeout in force, statement, parameters: seconds
      measured by [time.time()] around the call, and the reply *)
  run_statement : Z -> string -> list value -> Q * DbReply;
  (** [shapely.wkb.loads(h.decode("hex"))] *)
  wkb_loads : string -> option BaseGeometry;
  (** [str(x)] of a float *)
  float_str : Q -> string;
  (** the text of a list, dict or geometry *)
  compound_str : value -> string;
  (** [sys.maxint]: the largest [int]; an integer beyond it is a [long] *)
  maxint : Z;
  (** the double nearest to a real number: what an operation on floats
      returns for its exact result *)
  float_round : Q -> Q;
  (** the order in which Python iterates a dict whose keys were inserted
      in the order given *)
  dict_order : list string -> list string
}.

(** [str(v)], [unicode(v)] and [{v}] in a format string *)
Definition py_str (env : Environment) (v : value) : string :=
  match v with
  | VNone => "None"
  | VBool true => "True"
  | VBool false => "False"
  | VInt n => str_of_Z n
  | VFloat x => float_str env x
  | VStr s => s
  | _ => compound_str env v
  end.

(** ** Catalog entries and resource descriptors *)

(** The keys [getResources] gives a catalog entry. *)
Record ResourceStub : Type := {
  table : string;
  resource_name : option string;
  package_title : option string;
  package_notes : option string;
  wms : option string;
  wms_server : option string;
  wms_layer : option string;
  geometry_type : option string
}.

Record Field : Type := {
  f_name : string;
  f_type : string
}.

(** What [describeResource] returns (its ["id"] apart). *)
Record Description : Type := {
  d_fields : dict Field;
  d_srid : option Z;
  d_geometry_column : option string
}.

(** An entry of [context['resources']]: the stub, and the keys that
    [_execute_query] writes into that dict when it meets a resource the
    metadata cache does not hold ([alias], then [srid], [geometry_column]
    and [fields] together). *)
Record Resource : Type := {
  stub : ResourceStub;
  r_alias : option string;
  r_description : option Description
}.

(** An entry of [context['metadata']]: a catalog entry with every key
    written.  After the first reference [context['metadata'][name]] and
    [context['resources'][name]] are one Python dict; the model keeps the
    two maps in step when it writes. *)
Record ResourceDescriptor : Type := {
  m_stub : ResourceStub;
  alias : string;
  srid : option Z;
  geometry_column : option string;
  fields : dict Field
}.

Definition Metadata : Type := dict ResourceDescriptor.

(** ** Configuration and execution context *)

(** The keys [sqlalchemy.catalog] and [sqlalchemy.vectorstore] name
    the two databases of the [Environment]. *)
Record Config : Type := {
  (** [config['timeout']], in ms; [None] when the key is absent *)
  cfg_timeout : option Z
}.

(** A statement sent over the data connection. *)
Inductive Statement : Type :=
| Introspect (resource : string)
| SetStatementTimeout (ms : Z)
| Select (sql : string) (values : list value).

Record Context : Type := {
  query : value;
  output_format : string;
  crs : Z;
  resources : dict Resource;
  metadata : Metadata;
  elapsed_time : Q;
  (** whether [context['elapsed_time']] is an [int]: it starts as the
      [int] 0 and is a [float] from the first [float] added to it *)
  elapsed_is_int : bool;
  (** what [connection_data] has been sent so far, latest last *)
  sent : list Statement
}.

Definition set_query (q : value) (c : Context) : Context :=
  {| query := q; output_format := output_format c; crs := crs c;
     resources := resources c; metadata := metadata c;
     elapsed_time := elapsed_time c; elapsed_is_int := elapsed_is_int c;
     sent := sent c |}.

Definition set_resources (r : dict Resource) (c : Context) : Context :=
  {| query := query c; output_format := output_format c; crs := crs c;
     resources := r; metadata := metadata c;
     elapsed_time := elapsed_time c; elapsed_is_int := elapsed_is_int c;
     sent := sent c |}.

Definition set_metadata (m : Metadata) (c : Context) : Context :=
  {| query := query c; output_format := output_format c; crs := crs c;
     resources := resources c; metadata := m;
     elapsed_time := elapsed_time c; elapsed_is_int := elapsed_is_int c;
     sent := sent c |}.

Definition set_elapsed_time (t : Q) (is_int : bool) (c : Context) : Context :=
  {| query := query c; output_format := output_format c; crs := crs c;
     resources := resources c; metadata := metadata c;
     elapsed_time := t; elapsed_is_int := is_int; sent := sent c |}.

Definition send (st : Statement) (c : Context) : Context :=
  {| query := query c; output_format := output_format c; crs := crs c;
     resources := resources c; metadata := metadata c;
     elapsed_time := elapsed_time c; elapsed_is_int := elapsed_is_int c;
     sent := (sent c ++ [st])%list |}.

(** ** Constants *)

Definition QUERY_FORMAT_JSON : string := "JSON".
Definition QUERY_FORMAT_GEOJSON : string := "GeoJSON".
Definition FORMAT_SUPPORT_QUERY : list string := [QUERY_FORMAT_JSON; QUERY_FORMAT_GEOJSON].

Definition CRS_SUPPORTED : list string :=
  ["EPSG:900913"; "EPSG:3857"; "EPSG:4326"; "EPSG:2100"; "EPSG:4258"].
Definition CRS_DEFAULT_DATABASE : Z := 2100.
Definition CRS_DEFAULT_OUTPUT : Z := 3857.

Definition OP_LIKE : string := "LIKE".
Definition OP_EQ : string := "EQUAL".
Definition OP_NOT_EQ : string := "NOT_EQUAL".
Definition OP_GT : string := "GREATER".
Definition OP_GET : string := "GREATER_OR_EQUAL".
Definition OP_LT : string := "LESS".
Definition OP_LET : string := "LESS_OR_EQUAL".

Definition OP_AREA : string := "AREA".
Definition OP_DISTANCE : string := "DISTANCE".
Definition OP_CONTAINS : string := "CONTAINS".
Definition OP_INTERSECTS : string := "INTERSECTS".

Definition COMPARE_OPERATORS : list string :=
  [OP_EQ; OP_NOT_EQ; OP_GT; OP_GET; OP_LT; OP_LET; OP_LIKE].
Definition COMPARE_EXPRESSIONS : list string :=
  ["="; "<>"; ">"; ">="; "<"; "<="; "like"].

Definition SPATIAL_COMPARE_OPERATORS : list string :=
  [OP_EQ; OP_GT; OP_GET; OP_LT; OP_LET].
Definition SPATIAL_OPERATORS : list string :=
  [OP_AREA; OP_DISTANCE; OP_CONTAINS; OP_INTERSECTS].

Definition ALL_OPERATORS : list string :=
  [OP_EQ; OP_NOT_EQ; OP_GT; OP_GET; OP_LT; OP_LET; OP_LIKE;
   OP_AREA; OP_DISTANCE; OP_CONTAINS; OP_INTERSECTS].

Definition MAX_RESULT_ROWS : Z := 10000.
Definition DEFAULT_SQL_TIMEOUT : Z := 30000.

Definition PG_ERR_query_canceled : string := "57014".

(** ** Pure computations that may raise *)

Definition and_then {A B} (r : Result A) (k : A -> Result B) : Result B :=
  match r with
  | Ok a => k a
  | Raise e => Raise e
  end.

Notation "x <~ r ;; k" := (and_then r (fun x => k))
  (at level 61, r at next level, right associativity) : py_scope.
Notation "' pat <~ r ;; k" := (and_then r (fun x => match x with pat => k end))
  (at level 61, pat pattern, r at next level, right associativity) : py_scope.

Definition error {A} (message : string) : Result A :=
  Raise (DataException message None).

(** [for x in l: acc = body(acc, x)] *)
Fixpoint fold_result {A B} (body : B -> A -> Result B) (l : list A) (acc : B) : Result B :=
  match l with
  | [] => Ok acc
  | x :: l' => acc' <~ body acc x ;; fold_result body l' acc'
  end.

Fixpoint fold_m {S A B} (body : B -> A -> M S B) (l : list A) (acc : B) : M S B :=
  match l with
  | [] => ret acc
  | x :: l' => acc' <- body acc x ;; fold_m body l' acc'
  end.

(** ** Catalog resolver *)

Definition stub_of_row (resource : CatalogRow) : ResourceStub :=
  {| table := db_resource_id resource;
     resource_name := row_resource_name resource;
     package_title := row_package_title resource;
     package_notes := row_package_notes resource;
     wms := wms_resource_id resource;
     wms_server := row_wms_server resource;
     wms_layer := row_wms_layer resource;
     geometry_type := row_geometry_type resource |}.

Definition getResources (env : Environment) : dict Resource :=
  fold_left
    (fun result resource =>
       dict_set (db_resource_id resource)
         {| stub := stub_of_row resource; r_alias := None; r_description := None |}
         result)
    (catalog_rows env) [].

(** The loop of [describeResource] over the introspected columns. *)
Fixpoint describe_columns (id : string) (rows : list ColumnRow) (result : dict Field)
    (srid : option Z) (geometry_column : option string) : Result Description :=
  match rows with
  | [] =>
      Ok {| d_fields := result; d_srid := srid; d_geometry_column := geometry_column |}
  | field :: rest =>
      if String.prefix "_" (col_name field) then
        describe_columns id rest result srid geometry_column
      else
        let result' :=
          dict_set (col_name field)
            {| f_name := col_name field; f_type := col_type field |} result in
        match col_srid field with
        | Some s =>
            match srid with
            | Some _ => error ("More than 1 geometry columns found in resource " ++ id)
            | None => describe_columns id rest result' (Some s) (Some (col_name field))
            end
        | None => describe_columns id rest result' srid geometry_column
        end
  end.

Definition describeResource (env : Environment) (id : string) : M Context Description :=
  modify (send (Introspect id)) ;;;
  lift (describe_columns id (table_columns env id) [] None None).

(** [_get_resources_by_field_name] *)
Definition _get_resources_by_field_name (metadata : Metadata) (field : string) : list string :=
  map fst (filter (fun '(_, d) => dict_has field (fields d)) metadata).

(** The three-way test on [_get_resources_by_field_name] that fields,
    sort entries and filter arguments share; [what] starts the message. *)
Definition infer_resource (what : string) (metadata : Metadata) (field : string) : Result string :=
  match _get_resources_by_field_name metadata field with
  | [] => error (what ++ " " ++ field ++ " does not exist.")
  | [resource] => Ok resource
  | rs => error (what ++ " " ++ field ++ " is ambiguous for resources " ++ join "," rs ++ ".")
  end.

(** ** Query compiler: options *)

(** [# Get limit] *)
Definition get_limit (query : value) : Result value :=
  has <~ py_in "limit" query ;;
  if has : bool then
    given <~ py_getitem query "limit" ;;
    if negb (is_number given) then error "Parameter limit must be a number."
    else if Qlt_bool (num given) (inject_Z MAX_RESULT_ROWS) && Qlt_bool 0 (num given)
    then Ok given
    else Ok (VInt MAX_RESULT_ROWS)
  else Ok (VInt MAX_RESULT_ROWS).

(** [# Get offset] *)
Definition get_offset (query : value) : Result value :=
  has <~ py_in "offset" query ;;
  if has : bool then
    given <~ py_getitem query "offset" ;;
    if negb (is_number given) then error "Parameter offset must be a number."
    else if Qle_bool 0 (num given) then Ok given else Ok (VInt 0)
  else Ok (VInt 0).

(** ** Query compiler: resources *)

(** The local variables the resource loop fills. *)
Record Resolved : Type := {
  (** [parsed_query['resources']]: name to (table, alias) *)
  parsed_resources : dict (string * string);
  query_metadata : Metadata;
  resource_mapping : dict string
}.

(** Name and alias of one entry of [query['resources']]. *)
Definition resource_reference (query_resource : value) : Result (string * string) :=
  match query_resource with
  | VDict d =>
      match dict_get "name" d with
      | Some n =>
          resource_name <~ as_key n ;;
          match dict_get "alias" d with
          | Some a => resource_alias <~ as_key a ;; Ok (resource_name, resource_alias)
          | None => Ok (resource_name, resource_name)
          end
      | None => error "Resource name is missing."
      end
  | VStr s => Ok (s, s)
  | _ => error "Resource parameter is malformed. Instance of string or dictionary is expected."
  end.

Definition set_resource (name : string) (r : Resource) : M Context unit :=
  modify (fun c => set_resources (dict_set name r (resources c)) c).

(** Lines 256 to 266, for a catalog entry the metadata cache does not
    hold: the entry gets its alias, is introspected, gets its description
    and joins the metadata cache. *)
Definition first_reference (env : Environment) (resource_name : string)
    (db_resource : Resource) : M Context ResourceDescriptor :=
  ctx <- get ;;
  let a := "t" ++ str_of_Z (Z.of_nat (List.length (dict_keys (metadata ctx))) + 1) in
  set_resource resource_name
    {| stub := stub db_resource; r_alias := Some a;
       r_description := r_description db_resource |} ;;;
  db_fields <- describeResource env resource_name ;;
  set_resource resource_name
    {| stub := stub db_resource; r_alias := Some a; r_description := Some db_fields |} ;;;
  let described :=
    {| m_stub := stub db_resource; alias := a; srid := d_srid db_fields;
       geometry_column := d_geometry_column db_fields; fields := d_fields db_fields |} in
  modify (fun c => set_metadata (dict_set resource_name described (metadata c)) c) ;;;
  ret described.

(** The body of [for query_resource in query['resources']]. *)
Definition get_resource (env : Environment) (acc : Resolved) (query_resource : value)
    : M Context Resolved :=
  ' (resource_name, resource_alias) <- lift (resource_reference query_resource) ;;
  let mapping :=
    dict_set resource_alias resource_name
      (dict_set resource_name resource_name (resource_mapping acc)) in
  ctx <- get ;;
  match dict_get resource_name (resources ctx) with
  | Some stub_entry =>
      db_resource <-
        match dict_get resource_name (metadata ctx) with
        | None => first_reference env resource_name stub_entry
        | Some cached => ret cached
        end ;;
      ret {| parsed_resources :=
               dict_set resource_name (table (m_stub db_resource), alias db_resource)
                 (parsed_resources acc);
             query_metadata := dict_set resource_name db_resource (query_metadata acc);
             resource_mapping := mapping |}
  | None => lift (error ("Resource " ++ resource_name ++ " does not exist."))
  end.

(** [# Get resources] *)
Definition get_resources (env : Environment) : M Context Resolved :=
  q <- gets query ;;
  has <- lift (py_in "resources" q) ;;
  if negb has then lift (error "No resource selected.")
  else
    rs <- lift (py_getitem q "resources") ;;
    match rs with
    | VList l =>
        fold_m (get_resource env) l
          {| parsed_resources := []; query_metadata := []; resource_mapping := [] |}
    | _ => lift (error "Parameter resource should be a list with at least one item.")
    end.

(** ** Query compiler: fields *)

(** An entry of [parsed_query['fields']]. *)
Record ParsedField : Type := {
  fullname : string;
  pf_name : string;
  pf_alias : string;
  pf_type : string;
  is_geom : bool;
  pf_srid : option Z
}.

(** [table."field"] *)
Definition qualified (table_alias field : string) : string :=
  table_alias ++ "." ++ dq ++ field ++ dq.

(** The entry of a dict under each of the keys [keys], in their order. *)
Definition entries_at {V} (d : dict V) (keys : list string) : list (string * V) :=
  flat_map (fun k => match dict_get k d with
                     | Some v => [(k, v)]
                     | None => []
                     end)
    keys.

(** [for k in d]: the keys of the dict, each once, in the order Python
    iterates them, with their values. *)
Definition iterate {V} (env : Environment) (d : dict V) : list (string * V) :=
  entries_at d (dict_order env (nodup string_dec (dict_keys d))).

(** The list written into [query['fields']] when no field is selected. *)
Definition all_fields (env : Environment) (query_metadata : Metadata) : list value :=
  flat_map
    (fun '(resource, d) =>
       map (fun '(_, f) => VDict [("resource", VStr resource); ("name", VStr (f_name f))])
         (iterate env (fields d)))
    (iterate env query_metadata).

(** Whether all fields are to be added. *)
Definition add_all_fields (query : value) : Result bool :=
  has <~ py_in "fields" query ;;
  if negb has then Ok true
  else
    fs <~ py_getitem query "fields" ;;
    match fs with
    | VList [] => Ok true
    | VList _ => Ok false
    | _ => error "Parameter fields should be a list."
    end.

(** [query['fields'] = [...]] on the query object of the context. *)
Definition expand_fields (env : Environment) (query_metadata : Metadata) : M Context unit :=
  q <- gets query ;;
  q' <- lift (py_setitem q "fields" (VList (all_fields env query_metadata))) ;;
  modify (set_query q').

(** An optional resource reference: absent and [None] are alike. *)
Definition optional_key (v : option value) : Result (option string) :=
  match v with
  | None | Some VNone => Ok None
  | Some x => k <~ as_key x ;; Ok (Some k)
  end.

(** Name, alias and resource of one entry of [query['fields']]. *)
Definition field_reference (item : value) : Result (string * string * option string) :=
  match item with
  | VDict d =>
      match dict_get "name" d with
      | Some n =>
          field_name <~ as_key n ;;
          field_alias <~ match dict_get "alias" d with
                         | Some a => as_key a
                         | None => Ok field_name
                         end ;;
          field_resource <~ optional_key (dict_get "resource" d) ;;
          Ok (field_name, field_alias, field_resource)
      | None => error "Field name is missing."
      end
  | VStr s => Ok (s, s, None)
  | _ => error "Field is malformed. Instance of string or dictionary is expected."
  end.

Definition option_Z_eqb (a b : option Z) : bool :=
  match a, b with
  | Some x, Some y => Z.eqb x y
  | None, None => true
  | _, _ => false
  end.

Definition option_string_eqb (a : string) (b : option string) : bool :=
  match b with
  | Some y => String.eqb a y
  | None => false
  end.

(** The body of [for i in range(0, len(query['fields']))]. *)
Definition get_field (rs : Resolved) (parsed : dict ParsedField) (item : value)
    : Result (dict ParsedField) :=
  ' (field_name, field_alias, given_resource) <~ field_reference item ;;
  field_resource <~ match given_resource with
                    | Some r => Ok r
                    | None => infer_resource "Field" (query_metadata rs) field_name
                    end ;;
  let missing :=
    error ("Resource " ++ field_resource ++ " for field " ++ field_name ++ " does not exist.") in
  match dict_get field_resource (resource_mapping rs) with
  | None => missing
  | Some resource_name =>
      match dict_get resource_name (query_metadata rs) with
      | None => missing
      | Some db_resource =>
          match dict_get field_name (fields db_resource) with
          | Some db_field =>
              if dict_has field_alias parsed then
                error ("Field " ++ f_name db_field ++ " in resource " ++ field_resource
                       ++ " is ambiguous.")
              else
                let geom := option_string_eqb (f_name db_field) (geometry_column db_resource) in
                Ok (dict_set field_alias
                      {| fullname := qualified (alias db_resource) (f_name db_field);
                         pf_name := f_name db_field;
                         pf_alias := field_alias;
                         pf_type := f_type db_field;
                         is_geom := geom;
                         pf_srid := if geom then srid db_resource else None |}
                      parsed)
          | None =>
              error ("Field " ++ field_name ++ " does not exist in resource " ++ field_resource
                     ++ ".")
          end
      end
  end.

(** [# Get fields], on the fields list the query holds by now. *)
Definition get_fields (rs : Resolved) (query : value) : Result (dict ParsedField) :=
  fs <~ py_getitem query "fields" ;;
  match fs with
  | VList l => fold_result (get_field rs) l []
  | _ => Raise (PyExc TypeError)
  end.

(** [# Check the number of geometry columns] *)
Definition check_geometry_columns (output_format : string) (parsed : dict ParsedField)
    : Result unit :=
  if String.eqb output_format QUERY_FORMAT_GEOJSON then
    match parsed with
    | [] => Raise (PyExc TypeError)
    | _ =>
        let count_geom_columns :=
          fold_left Z.add (map (fun '(_, f) => if is_geom f then 1 else 0) parsed) 0 in
        if negb (Z.eqb count_geom_columns 1) then
          error ("Format " ++ output_format ++ " requires exactly one geometry column")
        else Ok tt
    end
  else Ok tt.

(** ** Query compiler: filter arguments *)

(** [metadata[mapping[f['resource']]]] and [f['name']] for an argument
    [f] that [_is_field] has accepted. *)
Definition argument_field (metadata : Metadata) (mapping : dict string) (f : value)
    : Result (ResourceDescriptor * string) :=
  r <~ py_getitem f "resource" ;;
  r <~ as_key r ;;
  n <~ py_getitem f "name" ;;
  n <~ as_key n ;;
  match dict_get r mapping with
  | None => Raise (PyExc (KeyError r))
  | Some resource_name =>
      match dict_get resource_name metadata with
      | None => Raise (PyExc (KeyError resource_name))
      | Some d => Ok (d, n)
      end
  end.

(** [_is_field]; the state is the argument [f], which gets its
    [resource] key when the key is absent and one resource has the field. *)
Definition _is_field (metadata : Metadata) (mapping : dict string) : M value bool :=
  f <- get ;;
  match f with
  | VDict d =>
      if negb (dict_has "name" d) then ret false
      else
        match dict_get "resource" d with
        | Some r =>
            r <- lift (as_key r) ;;
            match dict_get r mapping with
            | Some resource_name =>
                if dict_has resource_name metadata then ret tt
                else lift (error ("Resource " ++ r ++ " does not exist."))
            | None => lift (error ("Resource " ++ r ++ " does not exist."))
            end
        | None =>
            n <- lift (n <~ py_getitem f "name" ;; as_key n) ;;
            resource <- lift (infer_resource "Field" metadata n) ;;
            put (VDict (dict_set "resource" (VStr resource) d))
        end ;;;
        f <- get ;;
        ' (db_resource, n) <- lift (argument_field metadata mapping f) ;;
        if dict_has n (fields db_resource) then ret true
        else
          r <- lift (r <~ py_getitem f "resource" ;; as_key r) ;;
          lift (error ("Field " ++ n ++ " does not belong to resource " ++ r ++ "."))
  | _ => ret false
  end.

(** [_get_field_type] *)
Definition _get_field_type (metadata : Metadata) (mapping : dict string)
    : M value (option string) :=
  is_field <- _is_field metadata mapping ;;
  if negb is_field then ret None
  else
    f <- get ;;
    ' (db_resource, n) <- lift (argument_field metadata mapping f) ;;
    match dict_get n (fields db_resource) with
    | Some db_field => ret (Some (f_type db_field))
    | None => lift (Raise (PyExc (KeyError n)))
    end.

(** [_is_field_geom] *)
Definition _is_field_geom (metadata : Metadata) (mapping : dict string) : M value bool :=
  is_field <- _is_field metadata mapping ;;
  if negb is_field then ret false
  else
    f <- get ;;
    ' (db_resource, n) <- lift (argument_field metadata mapping f) ;;
    ret (option_string_eqb n (geometry_column db_resource)).

(** [_get_field_srid] *)
Definition _get_field_srid (metadata : Metadata) (mapping : dict string)
    : M value (option Z) :=
  is_field_geom <- _is_field_geom metadata mapping ;;
  if negb is_field_geom then ret None
  else
    f <- get ;;
    ' (db_resource, _) <- lift (argument_field metadata mapping f) ;;
    ret (srid db_resource).

(** [_is_geom] *)
Definition _is_geom (f : value) : bool :=
  match f with
  | VGeom _ => true
  | _ => false
  end.

(** [shapely.wkt.dumps(f)] as a statement parameter. *)
Definition wkt_param (f : value) : Result value :=
  match f with
  | VGeom g => Ok (VStr (wkt_dumps g))
  | _ => Raise (PyExc AttributeError)
  end.

(** [l[i] = x] *)
Fixpoint list_set {A} (i : nat) (x : A) (l : list A) : list A :=
  match l, i with
  | [], _ => []
  | _ :: l', O => x :: l'
  | y :: l', S i' => y :: list_set i' x l'
  end.

(** Run [m] on the object [f['arguments'][i]]. *)
Definition on_arg {A} (i : nat) (m : M value A) : M (list value) A :=
  fun args =>
    match nth_error args i with
    | Some a => let (r, a') := m a in (r, list_set i a' args)
    | None => (Raise (PyExc IndexError), args)
    end.

(** [table."field"] of an accepted field argument. *)
Definition aliased (metadata : Metadata) (mapping : dict string) (i : nat)
    : M (list value) string :=
  f <- on_arg i get ;;
  ' (db_resource, n) <- lift (argument_field metadata mapping f) ;;
  ret (qualified (alias db_resource) n).

(** A compiled filter: the where fragment and its parameters. *)
Definition FilterTuple : Type := (string * list value)%type.

(** The cast a numeric literal puts on a [varchar] field. *)
Definition convert_to (env : Environment) (field_type : option string) (literal : value)
    : string :=
  if option_string_eqb "varchar" field_type && is_number literal then
    let c := if is_int (maxint env) literal then "::int" else EmptyString in
    if is_float literal then "::float" else c
  else EmptyString.

(** ** Query compiler: comparison filters *)

(** [_create_filter_compare]; the state is the list [f['arguments']]. *)
Definition _create_filter_compare (env : Environment) (metadata : Metadata)
    (mapping : dict string) (operator expression : string) : M (list value) FilterTuple :=
  args <- get ;;
  if negb (Nat.eqb (List.length args) 2) then
    lift (error ("Operator " ++ operator ++ " expects two arguments."))
  else
    arg1_is_field <- on_arg 0 (_is_field metadata mapping) ;;
    arg1_type <- (if arg1_is_field : bool then on_arg 0 (_get_field_type metadata mapping)
                  else ret None) ;;
    arg2_is_field <- on_arg 1 (_is_field metadata mapping) ;;
    arg2_type <- (if arg2_is_field : bool then on_arg 1 (_get_field_type metadata mapping)
                  else ret None) ;;
    arg1_is_field_geom <- on_arg 0 (_is_field_geom metadata mapping) ;;
    arg2_is_field_geom <- on_arg 1 (_is_field_geom metadata mapping) ;;
    if arg1_is_field_geom || arg2_is_field_geom then
      lift (error ("Operator " ++ operator ++ " does not support geometry types."))
    else
      arg1 <- on_arg 0 get ;;
      arg2 <- on_arg 1 get ;;
      if arg1_is_field && arg2_is_field then
        if String.eqb operator OP_LIKE then
          lift (error ("Operator " ++ operator ++ " does not support two fields as arguments."))
        else
          aliased_arg1 <- aliased metadata mapping 0 ;;
          aliased_arg2 <- aliased metadata mapping 1 ;;
          ret ("(" ++ aliased_arg1 ++ " " ++ expression ++ " " ++ aliased_arg2 ++ ")", [])
      else if arg1_is_field then
        aliased_arg1 <- aliased metadata mapping 0 ;;
        if String.eqb operator OP_LIKE then
          if negb (option_string_eqb "varchar" arg1_type) then
            lift (error ("Operator " ++ operator ++ " only supports text fields."))
          else
            ret ("(" ++ aliased_arg1 ++ " " ++ expression ++ " %s)",
                 [VStr ("%" ++ py_str env arg2 ++ "%")])
        else
          ret ("(" ++ aliased_arg1 ++ convert_to env arg1_type arg2 ++ " " ++ expression ++ " %s)",
               [arg2])
      else if arg2_is_field then
        aliased_arg2 <- aliased metadata mapping 1 ;;
        if String.eqb operator OP_LIKE then
          if negb (option_string_eqb "varchar" arg2_type) then
            lift (error ("Operator " ++ operator ++ " only supports text fields."))
          else
            ret ("(" ++ aliased_arg2 ++ " " ++ expression ++ " %s)",
                 [VStr ("%" ++ py_str env arg1 ++ "%")])
        else
          ret ("(" ++ aliased_arg2 ++ convert_to env arg2_type arg1 ++ " " ++ expression ++ " %s)",
               [arg1])
      else if String.eqb operator OP_LIKE then
        lift (error ("Operator " ++ operator ++ " does not support two fields as literals."))
      else ret ("(%s " ++ expression ++ " %s)", [arg1; arg2]).

(** ** Query compiler: spatial filters *)

(** [token in l] for a list [l] of strings *)
Definition value_in (token : value) (l : list string) : bool :=
  match token with
  | VStr s => str_in s l
  | _ => false
  end.

(** [COMPARE_EXPRESSIONS[COMPARE_OPERATORS.index(token)]] for a token of
    [SPATIAL_COMPARE_OPERATORS]. *)
Definition spatial_compare_expression (env : Environment) (operator : string) (token : value)
    : Result string :=
  match token with
  | VStr s =>
      if str_in s SPATIAL_COMPARE_OPERATORS then
        Ok (nth (index_of s COMPARE_OPERATORS) COMPARE_EXPRESSIONS EmptyString)
      else error ("Expression " ++ s ++ " for operator " ++ operator ++ " is not valid.")
  | _ =>
      error ("Expression " ++ py_str env token ++ " for operator " ++ operator
             ++ " is not valid.")
  end.

(** [ST_Transform(expr, 2100)] *)
Definition st_transform (expression : string) : string :=
  "ST_Transform(" ++ expression ++ ", " ++ str_of_Z CRS_DEFAULT_DATABASE ++ ")".

(** The expression of a literal side bound as a parameter, as
    [_create_filter_spatial_distance] and [_create_filter_spatial_relation]
    write it. *)
Definition literal_2100 : string :=
  "ST_Transform(ST_GeomFromText(%s, 3857), " ++ str_of_Z CRS_DEFAULT_DATABASE ++ ")".

(** [_is_field_geom] on argument [i] and, for a geometry field, its srid;
    [CRS_DEFAULT_DATABASE] otherwise. *)
Definition field_geom_srid (metadata : Metadata) (mapping : dict string) (i : nat)
    : M (list value) (bool * option Z) :=
  is_field_geom <- on_arg i (_is_field_geom metadata mapping) ;;
  if is_field_geom : bool then
    s <- on_arg i (_get_field_srid metadata mapping) ;;
    ret (true, s)
  else ret (false, Some CRS_DEFAULT_DATABASE).

(** The expression of a geometry field side: the qualified name, inside
    [ST_Transform] when the srid is not the database default. *)
Definition aliased_2100 (metadata : Metadata) (mapping : dict string) (i : nat)
    (arg_srid : option Z) : M (list value) string :=
  a <- aliased metadata mapping i ;;
  if negb (option_Z_eqb arg_srid (Some CRS_DEFAULT_DATABASE)) then ret (st_transform a)
  else ret a.

Definition geometry_expected (position operator : string) : exn :=
  DataException (position ++ " argument for operator " ++ operator
                 ++ " must be a geometry field or a GeoJSON encoded geometry.") None.

Definition number_expected (operator : string) : exn :=
  DataException ("Third argument for operator " ++ operator ++ " must be number.") None.

(** [_create_filter_spatial_area] *)
Definition _create_filter_spatial_area (env : Environment) (metadata : Metadata) (mapping : dict string)
    (operator : string) : M (list value) FilterTuple :=
  arg2 <- on_arg 1 get ;;
  arg3 <- on_arg 2 get ;;
  arg2 <- lift (spatial_compare_expression env operator arg2) ;;
  _ <- on_arg 0 (_is_field metadata mapping) ;;
  ' (arg1_is_field_geom, arg1_srid) <- field_geom_srid metadata mapping 0 ;;
  arg1 <- on_arg 0 get ;;
  if negb arg1_is_field_geom && negb (_is_geom arg1) then
    raise (geometry_expected "First" operator)
  else if negb (is_number arg3) then raise (number_expected operator)
  else if arg1_is_field_geom then
    aliased_arg1 <- aliased_2100 metadata mapping 0 arg1_srid ;;
    ret ("(ST_Area(" ++ aliased_arg1 ++ ") " ++ arg2 ++ " %s)", [arg3])
  else
    w <- lift (wkt_param arg1) ;;
    ret ("(ST_Area(ST_GeomFromText(%s, 3857)) " ++ arg2 ++ " %s)", [w; arg3]).

(** [_create_filter_spatial_distance] *)
Definition _create_filter_spatial_distance (env : Environment) (metadata : Metadata) (mapping : dict string)
    (operator : string) : M (list value) FilterTuple :=
  arg3 <- on_arg 2 get ;;
  arg4 <- on_arg 3 get ;;
  arg3 <- lift (spatial_compare_expression env operator arg3) ;;
  _ <- on_arg 0 (_is_field metadata mapping) ;;
  _ <- on_arg 1 (_is_field metadata mapping) ;;
  ' (arg1_is_field_geom, arg1_srid) <- field_geom_srid metadata mapping 0 ;;
  ' (arg2_is_field_geom, arg2_srid) <- field_geom_srid metadata mapping 1 ;;
  arg1 <- on_arg 0 get ;;
  arg2 <- on_arg 1 get ;;
  if negb arg1_is_field_geom && negb (_is_geom arg1) then
    raise (geometry_expected "First" OP_DISTANCE)
  else if negb arg2_is_field_geom && negb (_is_geom arg2) then
    raise (geometry_expected "Second" OP_DISTANCE)
  else if negb (is_number arg4) then raise (number_expected OP_DISTANCE)
  else if arg1_is_field_geom && arg2_is_field_geom then
    aliased_arg1 <- aliased_2100 metadata mapping 0 arg1_srid ;;
    aliased_arg2 <- aliased_2100 metadata mapping 1 arg2_srid ;;
    ret ("(ST_Distance(" ++ aliased_arg1 ++ "," ++ aliased_arg2 ++ ") " ++ arg3 ++ " %s)",
         [arg4])
  else if arg1_is_field_geom then
    aliased_arg1 <- aliased_2100 metadata mapping 0 arg1_srid ;;
    w2 <- lift (wkt_param arg2) ;;
    ret ("(ST_Distance(" ++ aliased_arg1 ++ ", " ++ literal_2100 ++ ") " ++ arg3 ++ " %s)",
         [w2; arg4])
  else if arg2_is_field_geom then
    aliased_arg2 <- aliased_2100 metadata mapping 1 arg2_srid ;;
    w1 <- lift (wkt_param arg1) ;;
    ret ("(ST_Distance(" ++ aliased_arg2 ++ ", " ++ literal_2100 ++ ") " ++ arg3 ++ " %s)",
         [w1; arg4])
  else
    w1 <- lift (wkt_param arg1) ;;
    w2 <- lift (wkt_param arg2) ;;
    ret ("(ST_Distance(" ++ literal_2100 ++ ", " ++ literal_2100 ++ ") " ++ arg3 ++ " %s)",
         [w1; w2; arg4]).

(** [_create_filter_spatial_relation] *)
Definition _create_filter_spatial_relation (metadata : Metadata) (mapping : dict string)
    (operator spatial_operator : string) : M (list value) FilterTuple :=
  _ <- on_arg 0 (_is_field metadata mapping) ;;
  _ <- on_arg 1 (_is_field metadata mapping) ;;
  ' (arg1_is_field_geom, arg1_srid) <- field_geom_srid metadata mapping 0 ;;
  ' (arg2_is_field_geom, arg2_srid) <- field_geom_srid metadata mapping 1 ;;
  arg1 <- on_arg 0 get ;;
  arg2 <- on_arg 1 get ;;
  if negb arg1_is_field_geom && negb (_is_geom arg1) then
    raise (geometry_expected "First" OP_DISTANCE)
  else if negb arg2_is_field_geom && negb (_is_geom arg2) then
    raise (geometry_expected "Second" OP_DISTANCE)
  else if arg1_is_field_geom && arg2_is_field_geom then
    aliased_arg1 <- aliased_2100 metadata mapping 0 arg1_srid ;;
    aliased_arg2 <- aliased_2100 metadata mapping 1 arg2_srid ;;
    ret ("(" ++ spatial_operator ++ "(" ++ aliased_arg1 ++ "," ++ aliased_arg2 ++ ") = TRUE)",
         [])
  else if arg1_is_field_geom then
    aliased_arg1 <- aliased_2100 metadata mapping 0 arg1_srid ;;
    w2 <- lift (wkt_param arg2) ;;
    ret ("(" ++ spatial_operator ++ "(" ++ aliased_arg1 ++ ", " ++ literal_2100 ++ ") = TRUE)",
         [w2])
  else if arg2_is_field_geom then
    aliased_arg2 <- aliased_2100 metadata mapping 1 arg2_srid ;;
    w1 <- lift (wkt_param arg1) ;;
    ret ("(" ++ spatial_operator ++ "(" ++ literal_2100 ++ ", " ++ aliased_arg2 ++ ") = TRUE)",
         [w1])
  else
    w1 <- lift (wkt_param arg1) ;;
    w2 <- lift (wkt_param arg2) ;;
    ret ("(" ++ spatial_operator ++ "(" ++ literal_2100 ++ ", " ++ literal_2100 ++ ")  = TRUE)",
         [w1; w2]).

(** [_create_filter_spatial]; [None] when no branch returns. *)
Definition _create_filter_spatial (env : Environment) (metadata : Metadata) (mapping : dict string)
    (operator : string) : M (list value) (option FilterTuple) :=
  args <- get ;;
  let n := List.length args in
  if String.eqb operator OP_AREA then
    if negb (Nat.eqb n 3) then
      lift (error ("Operator " ++ operator ++ " expects three arguments."))
    else t <- _create_filter_spatial_area env metadata mapping operator ;; ret (Some t)
  else if String.eqb operator OP_DISTANCE then
    if negb (Nat.eqb n 4) then
      lift (error ("Operator " ++ operator ++ " expects four arguments."))
    else t <- _create_filter_spatial_distance env metadata mapping operator ;; ret (Some t)
  else if String.eqb operator OP_CONTAINS then
    if negb (Nat.eqb n 2) then lift (error ("Operator " ++ operator ++ " expects two."))
    else
      t <- _create_filter_spatial_relation metadata mapping operator "ST_Contains" ;;
      ret (Some t)
  else if String.eqb operator OP_INTERSECTS then
    if negb (Nat.eqb n 2) then
      lift (error ("Operator " ++ operator ++ " expects two arguments."))
    else
      t <- _create_filter_spatial_relation metadata mapping operator "ST_Intersects" ;;
      ret (Some t)
  else ret None.

(** ** Query compiler: filters *)

(** [_create_filter]; the state is the filter [f]. *)
Definition _create_filter (env : Environment) (metadata : Metadata) (mapping : dict string)
    : M value (option FilterTuple) :=
  f <- get ;;
  match f with
  | VDict d =>
      match dict_get "operator" d with
      | None => lift (error "Parameter operator is missing from filter.")
      | Some op =>
          if negb (value_in op ALL_OPERATORS) then
            lift (error ("Operator " ++ py_str env op ++ " is not supported."))
          else
            let operator := py_str env op in
            match dict_get "arguments" d with
            | None => lift (error "Parameter arguments is missing from filter.")
            | Some (VList (a :: rest)) =>
                except_ValueError
                  (zoom (fun _ => a :: rest)
                     (fun args _ => VDict (dict_set "arguments" (VList args) d))
                     (if str_in operator COMPARE_OPERATORS then
                        t <- _create_filter_compare env metadata mapping operator
                               (nth (index_of operator COMPARE_OPERATORS)
                                  COMPARE_EXPRESSIONS EmptyString) ;;
                        ret (Some t)
                      else if str_in operator SPATIAL_OPERATORS then
                        _create_filter_spatial env metadata mapping operator
                      else ret None))
                  (DataException
                     ("Failed to parse argument value for operator " ++ operator ++ ".") None)
            | Some _ =>
                lift (error "Parameter arguments must be a list with at least one member.")
            end
      end
  | _ => lift (error "Filter must be a dictionary.")
  end.

(** The list [query['filters']], empty when there is none. *)
Definition query_filters (q : value) : list value :=
  match py_getitem q "filters" with
  | Ok (VList l) => l
  | _ => []
  end.

(** The query whose [i]-th filter object is in state [f]. *)
Definition with_filter (i : nat) (f : value) (q : value) : value :=
  match q with
  | VDict d => VDict (dict_set "filters" (VList (list_set i f (query_filters q))) d)
  | _ => q
  end.

(** Run [m] on the object [context['query']['filters'][i]]. *)
Definition on_filter {A} (i : nat) (m : M value A) : M Context A :=
  zoom (fun c => nth i (query_filters (query c)) VNone)
       (fun f c => set_query (with_filter i f (query c)) c) m.

(** [# Get constraints] *)
Definition get_filters (env : Environment) (rs : Resolved)
    : M Context (list (option FilterTuple)) :=
  q <- gets query ;;
  has <- lift (py_in "filters" q) ;;
  if negb has then ret []
  else
    fs <- lift (py_getitem q "filters") ;;
    match fs with
    | VList l =>
        fold_m
          (fun parsed i =>
             t <- on_filter i (_create_filter env (query_metadata rs) (resource_mapping rs)) ;;
             ret (parsed ++ [t])%list)
          (seq 0 (List.length l)) []
    | _ => lift (error "Parameter filters should be a list with at least one item.")
    end.

(** ** Query compiler: sort *)

(** Name, resource and direction of one entry of [query['sort']]. *)
Definition sort_reference (item : value) : Result (string * option string * bool) :=
  match item with
  | VDict d =>
      match dict_get "name" d with
      | Some n =>
          sort_name <~ as_key n ;;
          sort_resource <~ optional_key (dict_get "resource" d) ;;
          let sort_desc := match dict_get "desc" d with
                           | Some (VBool b) => b
                           | _ => false
                           end in
          Ok (sort_name, sort_resource, sort_desc)
      | None => error "Sorting field name is missing."
      end
  | VStr s => Ok (s, None, false)
  | _ => error "Sorting field is malformed. Instance of string or dictionary is expected."
  end.

(** The body of [for i in range(0, len(query['sort']))]. *)
Definition get_sort_entry (rs : Resolved) (parsed_fields : dict ParsedField)
    (parsed : list string) (item : value) : Result (list string) :=
  ' (given_name, given_resource, sort_desc) <~ sort_reference item ;;
  let sort_name := match dict_get given_name parsed_fields with
                   | Some f => pf_name f
                   | None => given_name
                   end in
  sort_resource <~ match given_resource with
                   | Some r => Ok r
                   | None => infer_resource "Sorting field" (query_metadata rs) sort_name
                   end ;;
  let missing :=
    error ("Resource " ++ sort_resource ++ " for sorting field " ++ sort_name
           ++ " does not exist.") in
  match dict_get sort_resource (resource_mapping rs) with
  | None => missing
  | Some resource_name =>
      match dict_get resource_name (query_metadata rs) with
      | None => missing
      | Some db_resource =>
          let entry :=
            qualified (alias db_resource) sort_name ++ " "
            ++ (if sort_desc : bool then "desc" else EmptyString) in
          Ok (parsed ++ [entry])%list
      end
  end.

(** [# Get order by] *)
Definition get_sort (rs : Resolved) (parsed_fields : dict ParsedField) (query : value)
    : Result (list string) :=
  has <~ py_in "sort" query ;;
  if negb has then Ok []
  else
    st <~ py_getitem query "sort" ;;
    match st with
    | VList l => fold_result (get_sort_entry rs parsed_fields) l []
    | _ => error "Parameter sort should be a list."
    end.

(** ** Query compiler: the statement *)

(** [# Select clause fields] *)
Definition select_field (crs : Z) (f : ParsedField) : string :=
  if is_geom f && negb (option_Z_eqb (pf_srid f) (Some crs)) then
    "ST_Transform(" ++ fullname f ++ ", " ++ str_of_Z crs ++ ") as " ++ dq ++ pf_alias f ++ dq
  else fullname f ++ " as " ++ dq ++ pf_alias f ++ dq.

(** [# From clause tables] *)
Definition from_table (r : string * string) : string :=
  dq ++ fst r ++ dq ++ " as " ++ snd r.

(** [# Where clause]: the fragments and the parameters in order. *)
Fixpoint where_parts (filters : list (option FilterTuple)) (wheres : list string)
    (values : list value) : Result (list string * list value) :=
  match filters with
  | [] => Ok (wheres, values)
  | Some (w, vs) :: rest => where_parts rest (wheres ++ [w])%list (values ++ vs)%list
  | None :: _ => Raise (PyExc TypeError)
  end.

(** [# Build SQL] *)
Definition build_sql (env : Environment) (crs : Z) (parsed_resources : dict (string * string))
    (parsed_fields : dict ParsedField) (wheres sort : list string) (limit offset : value)
    : string :=
  let fields := map (fun '(_, f) => select_field crs f) parsed_fields in
  let tables := map (fun '(_, r) => from_table r) parsed_resources in
  let where_clause :=
    match wheres with
    | [] => EmptyString
    | _ => "where " ++ join " AND " wheres
    end in
  let orderby_clause :=
    match sort with
    | [] => EmptyString
    | _ => "order by " ++ join ", " sort
    end in
  "select distinct " ++ join "," fields ++ " from " ++ join "," tables ++ " " ++ where_clause
  ++ " " ++ orderby_clause ++ " limit " ++ py_str env limit ++ " offset "
  ++ py_str env offset ++ ";".

(** What the compiler hands to the execution engine. *)
Record Compiled : Type := {
  sql : string;
  values : list value;
  parsed_fields : dict ParsedField
}.

(** [_execute_query] up to [# Build SQL]. *)
Definition compile_query (env : Environment) : M Context Compiled :=
  q <- gets query ;;
  limit <- lift (get_limit q) ;;
  offset <- lift (get_offset q) ;;
  rs <- get_resources env ;;
  q <- gets query ;;
  addAllFields <- lift (add_all_fields q) ;;
  (if addAllFields : bool then expand_fields env (query_metadata rs) else ret tt) ;;;
  q <- gets query ;;
  pf <- lift (get_fields rs q) ;;
  output_format <- gets output_format ;;
  lift (check_geometry_columns output_format pf) ;;;
  filters <- get_filters env rs ;;
  q <- gets query ;;
  sort <- lift (get_sort rs pf q) ;;
  ' (wheres, values) <- lift (where_parts filters [] []) ;;
  srid <- gets crs ;;
  ret {| sql := build_sql env srid (parsed_resources rs) pf wheres sort limit offset;
         values := values;
         parsed_fields := pf |}.

(** ** Execution engine *)

(** [min(x, y)] *)
Definition py_min (x y : Q) : Q := if Qlt_bool y x then y else x.

(** [config[CONFIG_SQL_TIMEOUT] if CONFIG_SQL_TIMEOUT in config else DEFAULT_SQL_TIMEOUT] *)
Definition total_timeout (config : Config) : Z :=
  match cfg_timeout config with
  | Some t => t
  | None => DEFAULT_SQL_TIMEOUT
  end.

(** [max(int(timeout - (context['elapsed_time'] * 1000)), 1000)].  While
    [elapsed_time] is an [int] the arithmetic is on integers and exact.
    Once it is a [float], the product, the conversion of [timeout] and the
    difference are operations on doubles, each rounded. *)
Definition command_timeout (env : Environment) (timeout : Z) (is_int : bool) (elapsed : Q)
    : Z :=
  let difference :=
    if is_int then (inject_Z timeout - elapsed * 1000)%Q
    else float_round env (float_round env (inject_Z timeout)
                          - float_round env (elapsed * 1000))%Q in
  Z.max (py_int difference) 1000.

(** [# Execute query and aggregate execution time] *)
Definition run_query (env : Environment) (config : Config) (c : Compiled)
    : M Context (list (dict value)) :=
  ctx <- get ;;
  let ms := command_timeout env (total_timeout config) (elapsed_is_int ctx)
              (elapsed_time ctx) in
  modify (send (SetStatementTimeout ms)) ;;;
  modify (send (Select (sql c) (values c))) ;;;
  match run_statement env ms (sql c) (values c) with
  | (_, DbError pgcode) => raise (PyExc (DBAPIError pgcode))
  | (seconds, Rows records) =>
      let total := (elapsed_time ctx + py_min seconds 1)%Q in
      modify (set_elapsed_time total (elapsed_is_int ctx && Qlt_bool 1 seconds)) ;;;
      match cfg_timeout config with
      | None => raise (PyExc (KeyError "timeout"))
      | Some t =>
          if Qle_bool (inject_Z (t / 1000)) total then
            raise (DataException
                     ("Execution timeout has expired. Current timeout value is "
                      ++ str_of_Z (t / 1000) ++ " seconds.") None)
          else ret records
      end
  end.

(** [r[field]] on a result row *)
Definition column (r : dict value) (field : string) : Result value :=
  match dict_get field r with
  | Some v => Ok v
  | None => Raise (PyExc (KeyError field))
  end.

(** [shapely.wkb.loads(v.decode("hex"))] *)
Definition decode_geometry (env : Environment) (v : value) : Result value :=
  match v with
  | VStr h =>
      match wkb_loads env h with
      | Some g => Ok (VGeom g)
      | None => Raise (PyExc ReadingError)
      end
  | _ => Raise (PyExc AttributeError)
  end.

(** The inner loop of [# Add GeoJSON records]: the feature's geometry
    and properties so far. *)
Definition feature_field (env : Environment) (r : dict value) (acc : value * dict value)
    (entry : string * ParsedField) : Result (value * dict value) :=
  let (field, f) := entry in
  v <~ column r field ;;
  if is_geom f then g <~ decode_geometry env v ;; Ok (g, snd acc)
  else Ok (fst acc, dict_set field v (snd acc)).

Definition feature (env : Environment) (parsed : dict ParsedField) (feature_id : Z)
    (r : dict value) : Result value :=
  ' (geometry, properties) <~ fold_result (feature_field env r) parsed (VNone, []) ;;
  Ok (VDict [("id", VInt feature_id); ("properties", VDict properties);
             ("geometry", geometry); ("type", VStr "Feature")]).

(** [# Add GeoJSON records]; [feature_id] counts the rows read so far. *)
Fixpoint features (env : Environment) (parsed : dict ParsedField) (feature_id : Z)
    (records : list (dict value)) : Result (list value) :=
  match records with
  | [] => Ok []
  | r :: rest =>
      ft <~ feature env parsed (feature_id + 1) r ;;
      fts <~ features env parsed (feature_id + 1) rest ;;
      Ok (ft :: fts)
  end.

(** The inner loop of [# Add flat json records]. *)
Definition record_field (env : Environment) (r : dict value) (record : dict value)
    (entry : string * ParsedField) : Result (dict value) :=
  let (field, f) := entry in
  v <~ column r field ;;
  if is_geom f then g <~ decode_geometry env v ;; Ok (dict_set field g record)
  else Ok (dict_set field v record).

Fixpoint flat_records (env : Environment) (parsed : dict ParsedField)
    (records : list (dict value)) : Result (list value) :=
  match records with
  | [] => Ok []
  | r :: rest =>
      record <~ fold_result (record_field env r) parsed [] ;;
      others <~ flat_records env parsed rest ;;
      Ok (VDict record :: others)
  end.

Definition materialize (env : Environment) (output_format : string)
    (parsed : dict ParsedField) (records : list (dict value)) : Result (list value) :=
  if String.eqb output_format QUERY_FORMAT_GEOJSON then features env parsed 0 records
  else flat_records env parsed records.

(** [_execute_query] *)
Definition _execute_query (env : Environment) (config : Config) : M Context (list value) :=
  c <- compile_query env ;;
  records <- run_query env config c ;;
  output_format <- gets output_format ;;
  lift (materialize env output_format (parsed_fields c) records).

(** ** The batch *)

(** [s.split(':')[1]] for a string with one colon *)
Fixpoint after_colon (s : string) : string :=
  match s with
  | EmptyString => EmptyString
  | String c s' => if Ascii.eqb c ":" then s' else after_colon s'
  end.

(** [int(query['crs'].split(':')[1])] *)
Definition crs_code (s : string) : Result Z :=
  match NilZero.int_of_string (after_colon s) with
  | Some n => Ok (Z.of_int n)
  | None => Raise (PyExc ValueError)
  end.

(** [# Set CRS].  The message of the unsupported case is formatted with
    a keyword the template does not have, which raises [KeyError]. *)
Definition get_crs (query : value) : Result Z :=
  has <~ py_in "crs" query ;;
  if negb has then Ok CRS_DEFAULT_OUTPUT
  else
    c <~ py_getitem query "crs" ;;
    if negb (value_in c CRS_SUPPORTED) then Raise (PyExc (KeyError "crs"))
    else match c with
         | VStr s => crs_code s
         | _ => Raise (PyExc AttributeError)
         end.

(** [# Set format] *)
Definition get_format (env : Environment) (query : value) : Result string :=
  has <~ py_in "format" query ;;
  if negb has then Ok QUERY_FORMAT_GEOJSON
  else
    f <~ py_getitem query "format" ;;
    if negb (value_in f FORMAT_SUPPORT_QUERY) then
      error ("Output format " ++ py_str env f ++ " is not supported for query results.")
    else Ok (py_str env f).

(** [# Get queue] *)
Definition get_queue (query : value) : Result (list value) :=
  has <~ py_in "queue" query ;;
  if negb has then error "Parameter queue is required."
  else
    q <~ py_getitem query "queue" ;;
    match q with
    | VList (x :: l) => Ok (x :: l)
    | _ => error "Parameter queue should be a list with at least one item."
    end.

(** One result of the batch, per output format. *)
Definition partial_result (output_format : string) (result : list value) : value :=
  if String.eqb output_format QUERY_FORMAT_GEOJSON then
    VDict [("features", VList result); ("type", VStr "FeatureCollection")]
  else VList result.

(** [# Execute queries]: the results, and the queue elements as the loop
    leaves them. *)
Fixpoint execute_queue (env : Environment) (config : Config) (queue : list value)
    (ctx : Context) : Result (list value) * list value * Context :=
  match queue with
  | [] => (Ok [], [], ctx)
  | q :: rest =>
      match _execute_query env config (set_query q ctx) with
      | (Raise e, ctx') => (Raise e, query ctx' :: rest, ctx')
      | (Ok result, ctx') =>
          let '(r, rest', ctx'') := execute_queue env config rest ctx' in
          (others <~ r ;; Ok (partial_result (output_format ctx) result :: others),
           query ctx' :: rest', ctx'')
      end
  end.

(** The [except] clauses of [execute]. *)
Definition handle (e : exn) : exn :=
  match e with
  | DataException _ _ => e
  | PyExc (DBAPIError pgcode) =>
      DataException
        (if String.eqb pgcode PG_ERR_query_canceled then "Execution exceeded timeout."
         else "Unhandled exception has occured.")
        (Some (DBAPIError pgcode))
  | PyExc ex => DataException "Unhandled exception has occured." (Some ex)
  end.

Record BatchResult : Type := {
  res_data : list value;
  res_crs : Z;
  res_metadata : Metadata;
  res_format : string
}.

(** What a call of [execute] leaves behind: what it returns or raises,
    the request document, the dict passed as [metadata], and the dict
    bound to the default of the [metadata] parameter, which Python creates
    once, when the method is defined. *)
Record Outcome : Type := {
  returned : Result BatchResult;
  request_after : value;
  metadata_after : Metadata;
  default_after : Metadata;
  statements : list Statement
}.

(** The request whose queue is [queue]. *)
Definition with_queue (queue : list value) (query : value) : value :=
  match query with
  | VDict d => VDict (dict_set "queue" (VList queue) d)
  | _ => query
  end.

(** [execute(config, query, metadata={})]: [default] is the dict bound to
    the default of the [metadata] parameter; [given] is the [metadata]
    argument, [None] for a call without it. *)
Definition execute (env : Environment) (default : Metadata) (config : Config)
    (query : value) (given : option Metadata) : Outcome :=
  let passed := match given with Some m => m | None => default end in
  let finish r q m l :=
    {| returned := match r with Ok b => Ok b | Raise e => Raise (handle e) end;
       request_after := q;
       metadata_after := m;
       default_after := match given with Some _ => default | None => m end;
       statements := l |} in
  match (crs <~ get_crs query ;;
         output_format <~ get_format env query ;;
         queue <~ get_queue query ;;
         Ok (crs, output_format, queue)) with
  | Raise e => finish (Raise e) query passed []
  | Ok (crs, output_format, queue) =>
      let context :=
        {| query := VNone; output_format := output_format; crs := crs;
           resources := getResources env; metadata := passed;
           elapsed_time := 0; elapsed_is_int := true; sent := [] |} in
      let '(r, queue', context') := execute_queue env config queue context in
      finish
        (query_result <~ r ;;
         Ok {| res_data := query_result; res_crs := crs;
               res_metadata := metadata context'; res_format := output_format |})
        (with_queue queue' query) (metadata context') (sent context')
  end.

(** ** A sample catalog

    Two vector resources and a data connection that answers every
    statement in half a second with one row of the table it names. *)
Module Sample.

Definition roads : CatalogRow :=
  {| db_resource_id := "roads"; row_package_title := Some "Road network";
     row_package_notes := None; row_resource_name := Some "roads.shp";
     wms_resource_id := None; row_geometry_type := Some "LineString";
     row_wms_server := None; row_wms_layer := None |}.

Definition lakes : CatalogRow :=
  {| db_resource_id := "lakes"; row_package_title := Some "Lakes";
     row_package_notes := None; row_resource_name := Some "lakes.shp";
     wms_resource_id := None; row_geometry_type := Some "Polygon";
     row_wms_server := None; row_wms_layer := None |}.

Definition columns (id : string) : list ColumnRow :=
  if String.eqb id "roads" then
    [ {| col_name := "geom"; col_type := "geometry"; col_position := 1;
         col_srid := Some 2100 |};
      {| col_name := "name"; col_type := "varchar"; col_position := 2;
         col_srid := None |};
      {| col_name := "_id"; col_type := "int4"; col_position := 3; col_srid := None |} ]
  else if String.eqb id "lakes" then
    [ {| col_name := "shape"; col_type := "geometry"; col_position := 1;
         col_srid := Some 4326 |};
      {| col_name := "label"; col_type := "varchar"; col_position := 2;
         col_srid := None |} ]
  else [].

(** Hex WKB of [POINT (1 2)]. *)
Definition point_hex : string := "0101000000000000000000F03F0000000000000040".
Definition point : BaseGeometry := Geometry "POINT (1 2)".

Definition answer (sql : string) : list (dict value) :=
  if is_substring "roads" sql then [[("geom", VStr point_hex); ("name", VStr "A1")]]
  else [[("shape", VStr point_hex); ("label", VStr "Volvi")]].

Definition env : Environment :=
  {| catalog_rows := [roads; lakes];
     table_columns := columns;
     run_statement := fun _ sql _ => ((1 # 2)%Q, Rows (answer sql));
     wkb_loads := fun h => if String.eqb h point_hex then Some point else None;
     float_str := fun x => str_of_Z (Qnum x) ++ "/" ++ str_of_Z (Zpos (Qden x));
     compound_str := fun _ => "<object>";
     maxint := 9223372036854775807;
     float_round := fun x => x;
     dict_order := fun keys => keys |}.

Definition config : Config := {| cfg_timeout := Some 30000 |}.

(** Rounding to doubles, as far as a budget of 2^53 + 3 ms needs it.
    From 2^53 on the doubles are the even integers: what lies from
    2^53 + 3 to 2^53 + 4 rounds to 2^53 + 4.  The other numbers the sample
    rounds are doubles already. *)
Definition coarse (x : Q) : Q :=
  if Qle_bool (inject_Z (2 ^ 53 + 3)) x && Qle_bool x (inject_Z (2 ^ 53 + 4))
  then inject_Z (2 ^ 53 + 4)
  else x.

(** [env] with that rounding, on a connection that answers in 2^-11 s. *)
Definition quick_env : Environment :=
  {| catalog_rows := catalog_rows env;
     table_columns := table_columns env;
     run_statement := fun _ sql _ => ((1 # 2048)%Q, Rows (answer sql));
     wkb_loads := wkb_loads env;
     float_str := float_str env;
     compound_str := compound_str env;
     maxint := maxint env;
     float_round := coarse;
     dict_order := dict_order env |}.

(** [{"queue": [q]}] *)
Definition request (q : value) : value := VDict [("queue", VList [q])].

(** [{"resources": [name]}] *)
Definition all_of (name : string) : value :=
  VDict [("resources", VList [VStr name])].

(** The context [execute] starts the queue with, on query [q]. *)
Definition context (q : value) : Context :=
  {| query := q; output_format := QUERY_FORMAT_GEOJSON; crs := CRS_DEFAULT_OUTPUT;
     resources := getResources env; metadata := []; elapsed_time := 0;
     elapsed_is_int := true; sent := [] |}.

(** A sort name that no table has, with a double quote in it. *)
Definition injected : string := "name" ++ dq ++ "; drop table roads; --".

(** [{"resources": ["roads"], "fields": ["geom"],
      "sort": [{"name": injected, "resource": "roads"}]}] *)
Definition sorted_by_injected : value :=
  VDict [("resources", VList [VStr "roads"]);
         ("fields", VList [VStr "geom"]);
         ("sort", VList [VDict [("name", VStr injected); ("resource", VStr "roads")]])].


(** [{"resources": [{"name": "roads", "alias": "x"},
                    {"name": "lakes", "alias": "x"}]}] *)
Definition shared_alias : value :=
  VDict [("resources",
          VList [VDict [("name", VStr "roads"); ("alias", VStr "x")];
                 VDict [("name", VStr "lakes"); ("alias", VStr "x")]])].


(** [{"resources": ["roads"], "limit": 5, "offset": 2}] *)
Definition limit_five : value :=
  VDict [("resources", VList [VStr "roads"]); ("limit", VInt 5); ("offset", VInt 2)].

(** [{"resources": ["roads"],
      "filters": [{"operator": "EQUAL", "arguments": [{"name": "name"}, 7]}]}] *)
Definition name_is_seven : value :=
  VDict [("resources", VList [VStr "roads"]);
         ("filters",
          VList [VDict [("operator", VStr OP_EQ);
                        ("arguments", VList [VDict [("name", VStr "name")]; VInt 7])]])].

End Sample.

(** ** The specification's wording

    Definitions that follow the text of the specification, to compare
    the code with. *)

(** "the given limit when 0 < limit < 10000 and 10000 when the limit is
    above 10000, at most 0, or missing" *)
Definition limit_as_specified (given : option value) (L : value) : Prop :=
  match given with
  | None => L = VInt 10000
  | Some v =>
      ((0 < num v)%Q /\ (num v < 10000)%Q -> L = v)
      /\ ((10000 < num v)%Q -> L = VInt 10000)
      /\ ((num v <= 0)%Q -> L = VInt 10000)
  end.

(** "the given offset when it is >= 0 and 0 when it is negative or
    missing" *)
Definition offset_as_specified (given : option value) (O : value) : Prop :=
  match given with
  | None => O = VInt 0
  | Some v => ((0 <= num v)%Q -> O = v) /\ ((num v < 0)%Q -> O = VInt 0)
  end.

(** ** What compilation leaves alone *)

(** The catalog attributes of the entries of [context['resources']]. *)
Definition stubs (rs : dict Resource) : dict ResourceStub :=
  map (fun '(k, r) => (k, stub r)) rs.

(** [frame c c']: from [c] to [c'] the format, the CRS, the elapsed time
    and the catalog attributes are the same, and the data connection has
    been sent introspection statements only. *)
Record frame (c c' : Context) : Prop := {
  frame_format : output_format c' = output_format c;
  frame_crs : crs c' = crs c;
  frame_elapsed : elapsed_time c' = elapsed_time c;
  frame_stubs : stubs (resources c') = stubs (resources c);
  frame_sent : exists ids, sent c' = (sent c ++ map Introspect ids)%list
}.

(** [m] takes every context to one that is [R]-related to it, raise or
    not. *)
Definition respects (R : Context -> Context -> Prop) {A} (m : M Context A) : Prop :=
  forall s, R s (snd (m s)).

(** From [c] to [c'] the query object is the same. *)
Definition same_query (c c' : Context) : Prop := query c' = query c.

(** From [c] to [c'] the query has the same value under key [k]. *)
Definition same_key (k : string) (c c' : Context) : Prop :=
  py_getitem (query c') k = py_getitem (query c) k.

(** The bound on a statement the data connection is sent, for a total
    timeout of [T] ms. *)
Definition timeout_ok (T : Z) (st : Statement) : Prop :=
  match st with
  | SetStatementTimeout ms => 1000 <= ms <= Z.max T 1000
  | _ => True
  end.

(** What the rounding of doubles is taken to do: it keeps the order of
    the reals, and it leaves the integers of magnitude up to 2^53, which a
    double holds exactly, as they are. *)
Definition rounds (fl : Q -> Q) : Prop :=
  (forall x y, (x <= y)%Q -> (fl x <= fl y)%Q)
  /\ (forall n, - 2 ^ 53 <= n <= 2 ^ 53 -> (fl (inject_Z n) == inject_Z n)%Q).

(** An entry of [query['resources']] that resolution can take: it is a
    string or an object with string name and alias, it names a catalog
    resource, and the table of that resource introspects. *)
Definition resolvable (env : Environment) (c : Context) (entry : value) : Prop :=
  exists name a described,
    resource_reference entry = Ok (name, a)
    /\ dict_has name (resources c) = true
    /\ describe_columns name (table_columns env name) [] None None = Ok described.

(** "A resource mapping records both name to name and alias to name",
    entry after entry. *)
Definition mapping_of (entries : list value) : dict string :=
  fold_left
    (fun mapping entry =>
       match resource_reference entry with
       | Ok (name, a) => dict_set a name (dict_set name name mapping)
       | Raise _ => mapping
       end)
    entries [].





(** "the expanded all-fields projection list": one entry per resource
    of the query metadata and field of the resource, listed in the order in
    which the keys came into the two dicts. *)
Definition every_field (query_metadata : Metadata) : list value :=
  flat_map
    (fun '(resource, d) =>
       map (fun '(_, f) => VDict [("resource", VStr resource); ("name", VStr (f_name f))])
         (entries_at (fields d) (nodup string_dec (dict_keys (fields d)))))
    (entries_at query_metadata (nodup string_dec (dict_keys query_metadata))).

(** What the iteration order of dicts is taken to be: an order of the
    keys. *)
Definition reorders (order : list string -> list string) : Prop :=
  forall keys, NoDup keys -> Permutation (order keys) keys.

(** "for every filter argument that is a field reference without an
    explicit resource, the inferred resource name is written back into that
    argument dict": the argument as compilation leaves it. *)
Definition annotate (metadata : Metadata) (arg : value) : value :=
  match arg with
  | VDict d =>
      match dict_get "name" d, dict_get "resource" d with
      | Some (VStr n), None =>
          match _get_resources_by_field_name metadata n with
          | [resource] => VDict (dict_set "resource" (VStr resource) d)
          | _ => arg
          end
      | _, _ => arg
      end
  | _ => arg
  end.

(** The filter whose arguments are so annotated. *)
Definition annotate_filter (metadata : Metadata) (f : value) : value :=
  match f with
  | VDict d =>
      match dict_get "arguments" d with
      | Some (VList args) =>
          VDict (dict_set "arguments" (VList (map (annotate metadata) args)) d)
      | _ => f
      end
  | _ => f
  end.

(** A computation on an argument that, when it returns, leaves the
    argument annotated. *)
Definition annotates (metadata : Metadata) {A} (m : M value A) : Prop :=
  forall f r f', m f = (Ok r, f') -> f' = annotate metadata f.

(** An argument whose resource, when it has to be inferred, is the one
    resource that has the field. *)
Definition resolved (metadata : Metadata) (arg : value) : Prop :=
  forall d n,
    arg = VDict d ->
    dict_get "name" d = Some (VStr n) ->
    dict_get "resource" d = None ->
    exists r, _get_resources_by_field_name metadata n = [r].

Definition resolved_filter (metadata : Metadata) (f : value) : Prop :=
  forall d args,
    f = VDict d -> dict_get "arguments" d = Some (VList args) ->
    Forall (resolved metadata) args.

(** The arguments with the one at position [i] annotated. *)
Definition annotate_at (metadata : Metadata) (i : nat) (args : list value) : list value :=
  list_set i (annotate metadata (nth i args VNone)) args.

(** ** Introspection and discovery, said without loops *)

(** A column [describeResource] keeps: its name does not start with an
    underscore. *)
Definition visible (c : ColumnRow) : bool := negb (String.prefix "_" (col_name c)).

(** The kept columns that [geometry_columns] gives an srid. *)
Definition geometry_rows (rows : list ColumnRow) : list ColumnRow :=
  filter (fun c => visible c && match col_srid c with Some _ => true | None => false end)
    rows.

(** The fields dict over [result]: one entry per kept column, keyed by
    its name, a later column of the same name replacing an earlier one. *)
Definition fields_of (rows : list ColumnRow) (result : dict Field) : dict Field :=
  fold_left
    (fun result c => dict_set (col_name c) {| f_name := col_name c; f_type := col_type c |}
                       result)
    (filter visible rows) result.

(** The description of a table with at most one geometry column. *)
Definition description_of (rows : list ColumnRow) : Description :=
  {| d_fields := fields_of rows [];
     d_srid := match geometry_rows rows with
               | c :: _ => col_srid c
               | [] => None
               end;
     d_geometry_column := match geometry_rows rows with
                          | c :: _ => Some (col_name c)
                          | [] => None
                          end |}.

(** The entry [getResources] makes of a catalog row. *)
Definition entry_of_row (row : CatalogRow) : Resource :=
  {| stub := stub_of_row row; r_alias := None; r_description := None |}.

(** ** The metadata cache *)

(** The descriptors [added] carry the aliases [t(n+1)], [t(n+2)], ... in
    this order. *)
Fixpoint numbered (n : nat) (added : Metadata) : Prop :=
  match added with
  | [] => True
  | (_, d) :: rest => alias d = "t" ++ str_of_Z (Z.of_nat n + 1) /\ numbered (S n) rest
  end.

(** From [c] to [c'] the metadata cache has kept its entries as they
    were, in their order, and has new ones after them, numbered on. *)
Definition grows (c c' : Context) : Prop :=
  exists added,
    metadata c' = (metadata c ++ added)%list
    /\ numbered (List.length (metadata c)) added.

(** From [c] to [c'] the metadata cache has grown, and the tables
    introspected on the way are tables the cache of [c] does not have. *)
Definition caches (c c' : Context) : Prop :=
  grows c c'
  /\ forall id,
       In (Introspect id) (sent c') ->
       In (Introspect id) (sent c) \/ dict_get id (metadata c) = None.

(** From [c] to [c'] no statement timeout below 1000 has been sent. *)
Definition floors (c c' : Context) : Prop :=
  forall ms,
    In (SetStatementTimeout ms) (sent c') ->
    In (SetStatementTimeout ms) (sent c) \/ 1000 <= ms.

(** The entry of [context['resources']] that is one dict with the
    descriptor [d] of the metadata cache: the catalog attributes, and the
    keys [alias], [srid], [geometry_column] and [fields] as [d] has them. *)
Definition entry_of (d : ResourceDescriptor) : Resource :=
  {| stub := m_stub d;
     r_alias := Some (alias d);
     r_description :=
       Some {| d_fields := fields d; d_srid := srid d;
               d_geometry_column := geometry_column d |} |}.

(** What is written into the catalog entries from [c] to [c']: the
    metadata cache has grown, and for every resource name
    - the entry of a resource the cache of [c] holds is as it was;
    - the entry of a resource the cache has got since is one dict with
      its descriptor;
    - the entry of a resource the cache of [c'] does not hold has the
      [srid], [geometry_column] and [fields] it had, or none of them as
      before. *)
Definition writes (c c' : Context) : Prop :=
  grows c c'
  /\ forall name,
       (dict_get name (metadata c) <> None ->
        dict_get name (resources c') = dict_get name (resources c))
       /\ (forall d,
             dict_get name (metadata c) = None ->
             dict_get name (metadata c') = Some d ->
             dict_get name (resources c') = Some (entry_of d))
       /\ (dict_get name (metadata c') = None ->
           option_map r_description (dict_get name (resources c'))
           = option_map r_description (dict_get name (resources c))).

(** ** The statements of a batch *)

(** Every [Select] of [l] comes directly after a [SetStatementTimeout];
    [armed] says that one comes directly before [l]. *)
Fixpoint guarded_from (armed : bool) (l : list Statement) : bool :=
  match l with
  | [] => true
  | Select _ _ :: rest => armed && guarded_from false rest
  | SetStatementTimeout _ :: rest => guarded_from true rest
  | Introspect _ :: rest => guarded_from false rest
  end.

(** The statement sent last, with the timeout it was sent under. *)
Definition last_select (l : list Statement) : option (Z * string * list value) :=
  match rev l with
  | Select sql vals :: SetStatementTimeout ms :: _ => Some (ms, sql, vals)
  | _ => None
  end.

(** A data connection that cancels every statement after [seconds]. *)
Definition cancelling (seconds : Q) (env : Environment) : Environment :=
  {| catalog_rows := catalog_rows env;
     table_columns := table_columns env;
     run_statement := fun _ _ _ => (seconds, DbError PG_ERR_query_canceled);
     wkb_loads := wkb_loads env;
     float_str := float_str env;
     compound_str := compound_str env;
     maxint := maxint env;
     float_round := float_round env;
     dict_order := dict_order env |}.

(** ** Comparison filters *)

(** An argument that [_is_field] takes for a field reference: a dict
    with a [name]. *)
Definition is_reference (arg : value) : bool :=
  match arg with
  | VDict d => dict_has "name" d
  | _ => false
  end.

(** The filter object of an operator and its arguments. *)
Definition comparison (operator : string) (args : list value) : value :=
  VDict [("operator", VStr operator); ("arguments", VList args)].

(** Two results of [_create_filter] with the same where fragment, or
    the same exception. *)
Definition same_text (r r' : Result (option FilterTuple)) : Prop :=
  match r, r' with
  | Ok (Some (sql, _)), Ok (Some (sql', _)) => sql = sql'
  | Ok None, Ok None => True
  | Raise e, Raise e' => e = e'
  | _, _ => False
  end.

(** The metadata a batch over [roads] leaves on the sample catalog. *)
Definition roads_metadata : Metadata :=
  metadata_after (execute Sample.env [] Sample.config
                    (Sample.request (Sample.all_of "roads")) None).

(** ** Flat records *)

(** The JSON record of the row [r]: a dict with one entry per projected
    field, keyed by the output alias; the column of the row as it is,
    decoded when the field is a geometry.  A record is a dict: the order
    of its keys is not part of it. *)
Definition is_record_of (env : Environment) (parsed : dict ParsedField) (r : dict value)
    (record : dict value) : Prop :=
  Permutation (dict_keys record) (dict_keys parsed)
  /\ forall a f,
       In (a, f) parsed ->
       exists v,
         dict_get a r = Some v
         /\ if is_geom f then
              exists h g,
                v = VStr h /\ wkb_loads env h = Some g
                /\ dict_get a record = Some (VGeom g)
            else dict_get a record = Some v.

(** ** Resolved resources *)

(** What resolution has gathered is closed: the from clause and the
    descriptors have the same resources in the same order, each with the
    table and the alias of its descriptor and each a resource of the catalog
    [catalog], and every name or alias of the mapping stands for one of
    them. *)
Definition closed (catalog : dict Resource) (rs : Resolved) : Prop :=
  dict_keys (parsed_resources rs) = dict_keys (query_metadata rs)
  /\ (forall name d,
        dict_get name (query_metadata rs) = Some d ->
        dict_get name (parsed_resources rs) = Some (table (m_stub d), alias d)
        /\ dict_has name catalog = true)
  /\ (forall k name,
        dict_get k (resource_mapping rs) = Some name ->
        dict_has name (query_metadata rs) = true).

(** ** The projection *)

(** The parsed field [f] is a field of a descriptor of [metadata]:
    its qualified name is made of the alias of that descriptor and the name
    the descriptor gives the field, and its type and geometry attributes are
    the descriptor's. *)
Definition projects (metadata : Metadata) (f : ParsedField) : Prop :=
  exists resource d key db_field,
    dict_get resource metadata = Some d
    /\ dict_get key (fields d) = Some db_field
    /\ fullname f = qualified (alias d) (f_name db_field)
    /\ pf_name f = f_name db_field
    /\ pf_type f = f_type db_field
    /\ is_geom f = option_string_eqb (f_name db_field) (geometry_column d)
    /\ pf_srid f = if is_geom f then srid d else None.

(** ** The order-by clause *)

(** The field a sort name stands for: an output alias of the projection
    stands for the field it renames, any other name for itself. *)
Definition sort_field (parsed_fields : dict ParsedField) (name : string) : string :=
  match dict_get name parsed_fields with
  | Some f => pf_name f
  | None => name
  end.

(** [entry] is the order-by entry of the sort item [item]: the alias of
    a resolved descriptor, the sort field in double quotes, and the
    direction.  When the item names no resource, the sort field is a field of
    exactly one resolved resource. *)
Definition is_sort_entry (rs : Resolved) (parsed_fields : dict ParsedField) (item : value)
    (entry : string) : Prop :=
  exists name resource desc r d,
    sort_reference item = Ok (name, resource, desc)
    /\ dict_get r (query_metadata rs) = Some d
    /\ entry = qualified (alias d) (sort_field parsed_fields name) ++ " "
               ++ (if desc : bool then "desc" else EmptyString)
    /\ (resource = None ->
        exists r',
          _get_resources_by_field_name (query_metadata rs) (sort_field parsed_fields name)
          = [r']).

(** ** Spatial filters *)




(** * Properties *)

(** ** Reasoning about the monad *)

Lemma bind_Ok {S A B} (m : M S A) (k : A -> M S B) s b s' :
  bind m k s = (Ok b, s') ->
  exists a s1, m s = (Ok a, s1) /\ k a s1 = (Ok b, s').
Proof.
  unfold bind. destruct (m s) as [[a | e] s1]; [eauto | discriminate].
Qed.

Lemma lift_Ok {S A} (r : Result A) (s : S) a s' :
  lift r s = (Ok a, s') -> r = Ok a /\ s' = s.
Proof. unfold lift. intros H. injection H as -> ->. auto. Qed.

Lemma gets_Ok {S A} (f : S -> A) (s : S) a s' :
  gets f s = (Ok a, s') -> a = f s /\ s' = s.
Proof. unfold gets. intros H. injection H as <- <-. auto. Qed.

Lemma ret_Ok {S A} (x : A) (s : S) a s' :
  ret x s = (Ok a, s') -> a = x /\ s' = s.
Proof. unfold ret. intros H. injection H as <- <-. auto. Qed.

Lemma and_then_Ok {A B} (r : Result A) (k : A -> Result B) b :
  and_then r k = Ok b -> exists a, r = Ok a /\ k a = Ok b.
Proof. destruct r; cbn; [eauto | discriminate]. Qed.

Lemma get_Ok {S} (s : S) a s' : get s = (Ok a, s') -> a = s /\ s' = s.
Proof. unfold get. intros H. injection H as <- <-. auto. Qed.

Lemma put_Ok {S} (x s : S) a s' : put x s = (Ok a, s') -> s' = x.
Proof. unfold put. intros H. injection H as _ <-. auto. Qed.

Ltac done_step E :=
  match type of E with
  | lift _ _ = (Ok _, _) => apply lift_Ok in E; destruct E as [E ->]
  | gets _ _ = (Ok _, _) => apply gets_Ok in E; destruct E as [-> ->]
  | ret _ _ = (Ok _, _) => apply ret_Ok in E; destruct E as [-> ->]
  | get _ = (Ok _, _) => apply get_Ok in E; destruct E as [-> ->]
  | put _ _ = (Ok _, _) => apply put_Ok in E; subst
  end.

Ltac destruct_pairs :=
  repeat match goal with x : (_ * _)%type |- _ => destruct x end.

(** One step through a successful run. *)
Ltac step H :=
  let a := fresh "a" in
  let s := fresh "s" in
  let E := fresh "E" in
  match type of H with
  | bind _ _ _ = (Ok _, _) =>
      apply bind_Ok in H; destruct H as (a & s & E & H); try done_step E
  | and_then _ _ = Ok _ => apply and_then_Ok in H; destruct H as (a & E & H)
  end.

Lemma append_assoc (a b c : string) : (a ++ b) ++ c = a ++ (b ++ c).
Proof. induction a as [| ch a IH]; cbn; [reflexivity | now rewrite IH]. Qed.


(** ** Identifiers in the statement (claim C1) *)

(** A sort entry that names its resource has its name copied into the
    order-by clause as it stands: no field of the resource is looked up. *)
Lemma get_sort_entry_explicit_resource :
  forall rs pf parsed s r n d,
    dict_get s pf = None ->
    dict_get r (resource_mapping rs) = Some n ->
    dict_get n (query_metadata rs) = Some d ->
    get_sort_entry rs pf parsed (VDict [("name", VStr s); ("resource", VStr r)])
    = Ok (parsed ++ [(qualified (alias d) s ++ " ")%string])%list.
Proof.
  intros rs pf parsed s r n d Hpf Hmap Hmeta.
  unfold get_sort_entry. cbn. rewrite Hpf. cbn. rewrite Hmap, Hmeta. reflexivity.
Qed.

(** C1, on the code: a sort entry [{"name": s, "resource": "roads"}] puts
    [s] between the quotes of the order-by clause although no resource of
    the metadata has a field [s]; here [s] closes the quote and carries a
    second statement. *)
Theorem sort_name_reaches_statement_unchecked :
  let run := execute Sample.env [] Sample.config
               (Sample.request Sample.sorted_by_injected) None in
  statements run =
    [Introspect "roads"; SetStatementTimeout 30000;
     Select ("select distinct ST_Transform(" ++ qualified "t1" "geom" ++ ", 3857) as "
             ++ dq ++ "geom" ++ dq ++ " from " ++ dq ++ "roads" ++ dq
             ++ " as t1  order by t1." ++ dq ++ Sample.injected ++ dq
             ++ "  limit 10000 offset 0;") []]
  /\ _get_resources_by_field_name (metadata_after run) Sample.injected = [].
Proof. vm_compute. split; reflexivity. Qed.

(** ** The timeout key (claim C2) *)

(** Without the [timeout] key the statement runs and the comparison with
    [config['timeout'] / 1000] raises. *)
Lemma run_query_without_timeout_key :
  forall env config c ctx,
    cfg_timeout config = None ->
    exists e ctx', run_query env config c ctx = (Raise e, ctx').
Proof.
  intros env config c ctx H. unfold run_query, bind, get, modify, raise. cbn.
  destruct (run_statement env _ (sql c) (values c)) as [seconds [records | pgcode]]; cbn.
  - rewrite H. eauto.
  - eauto.
Qed.

Lemma _execute_query_without_timeout_key :
  forall env config ctx,
    cfg_timeout config = None ->
    exists e ctx', _execute_query env config ctx = (Raise e, ctx').
Proof.
  intros env config ctx H. unfold _execute_query, bind.
  destruct (compile_query env ctx) as [[c | e] ctx1]; [| eauto].
  destruct (run_query_without_timeout_key env config c ctx1 H) as (e & ctx2 & ->).
  eauto.
Qed.

(** No batch returns when the configuration has no [timeout] key. *)
Lemma execute_without_timeout_key :
  forall env default config query given,
    cfg_timeout config = None ->
    exists message inner,
      returned (execute env default config query given)
      = Raise (DataException message inner).
Proof.
  intros env default config query given H. unfold execute.
  destruct (crs <~ get_crs query ;; output_format <~ get_format env query ;;
            queue <~ get_queue query ;; Ok (crs, output_format, queue))
    as [[[c f] queue] | e] eqn:E; cbn.
  - assert (Hq : exists q rest, queue = q :: rest).
    { unfold and_then in E. destruct (get_crs query); [| discriminate].
      destruct (get_format env query); [| discriminate].
      unfold get_queue, and_then in E.
      destruct (py_in "queue" query) as [[|]|]; cbn in E; try discriminate.
      destruct (py_getitem query "queue") as [[| | | | | [|x l] | |]|]; cbn in E;
        try discriminate.
      injection E as _ _ <-. eauto. }
    destruct Hq as (q & rest & ->). cbn.
    match goal with |- context [_execute_query env config ?c] =>
      destruct (_execute_query_without_timeout_key env config c H) as (e & ctx' & ->) end.
    cbn. destruct e as [m i | [ | | | | | pgcode | |]]; cbn; eauto.
  - destruct e as [m i | [ | | | | | pgcode | |]]; cbn; eauto.
Qed.

(** C2, on the code: a configuration without the [timeout] key, one
    query, a data connection that answers in half a second: the batch ends
    in the catch-all error, with the [KeyError] as its cause. *)
Theorem absent_timeout_key_fails_every_batch :
  returned (execute Sample.env [] {| cfg_timeout := None |}
              (Sample.request (Sample.all_of "roads")) None)
  = Raise (DataException "Unhandled exception has occured." (Some (KeyError "timeout"))).
Proof. vm_compute. reflexivity. Qed.

(** ** The metadata cache between batches (claim C3) *)

(** C3, on the code: two calls of [execute] without the [metadata]
    argument, the first on [roads], the second on [lakes].  The second
    starts from the dict the first one filled: it returns both resources
    and numbers [lakes] as [t2], where a call on its own returns [lakes]
    alone, as [t1]. *)
Theorem default_metadata_is_shared_between_batches :
  let first := execute Sample.env [] Sample.config
                 (Sample.request (Sample.all_of "roads")) None in
  let second := execute Sample.env (default_after first) Sample.config
                  (Sample.request (Sample.all_of "lakes")) None in
  let alone := execute Sample.env [] Sample.config
                 (Sample.request (Sample.all_of "lakes")) None in
  dict_keys (metadata_after second) = ["roads"; "lakes"]
  /\ dict_keys (metadata_after alone) = ["lakes"]
  /\ option_map alias (dict_get "lakes" (metadata_after second)) = Some "t2"
  /\ option_map alias (dict_get "lakes" (metadata_after alone)) = Some "t1"
  /\ returned second <> returned alone.
Proof.
  vm_compute. repeat split; try reflexivity. intros H. discriminate H.
Qed.

(** ** Spatial filters and the database SRID (claim C4) *)

(** C4, on the code: the literal side of [AREA] is bound to
    [ST_GeomFromText(%s, 3857)] and measured as it is; no
    [ST_Transform(..., 2100)] is written around it. *)
Theorem area_of_literal_is_not_transformed :
  forall env metadata mapping g n,
    let args := [VGeom g; VStr OP_GT; VInt n] in
    _create_filter_spatial_area env metadata mapping OP_AREA args
    = (Ok ("(ST_Area(ST_GeomFromText(%s, 3857)) > %s)", [VStr (wkt_dumps g); VInt n]), args)
    /\ is_substring "ST_Transform" "(ST_Area(ST_GeomFromText(%s, 3857)) > %s)" = false.
Proof. intros. split; reflexivity. Qed.

(** The same literal as a side of [DISTANCE], [CONTAINS] or [INTERSECTS]
    is transformed to 2100. *)
Lemma relation_of_literals_is_transformed :
  forall metadata mapping operator spatial_operator g1 g2,
    fst (_create_filter_spatial_relation metadata mapping operator spatial_operator
           [VGeom g1; VGeom g2])
    = Ok ("(" ++ spatial_operator ++ "(" ++ st_transform "ST_GeomFromText(%s, 3857)" ++ ", "
          ++ st_transform "ST_GeomFromText(%s, 3857)" ++ ")  = TRUE)",
          [VStr (wkt_dumps g1); VStr (wkt_dumps g2)]).
Proof. intros. reflexivity. Qed.

Lemma distance_of_literals_is_transformed :
  forall env metadata mapping g1 g2 n,
    fst (_create_filter_spatial_distance env metadata mapping OP_DISTANCE
           [VGeom g1; VGeom g2; VStr OP_LT; VInt n])
    = Ok ("(ST_Distance(" ++ st_transform "ST_GeomFromText(%s, 3857)" ++ ", "
          ++ st_transform "ST_GeomFromText(%s, 3857)" ++ ") < %s)",
          [VStr (wkt_dumps g1); VStr (wkt_dumps g2); VInt n]).
Proof. intros. reflexivity. Qed.

(** A geometry field side is transformed exactly when its srid is not
    the database default. *)
Lemma aliased_2100_transforms :
  forall metadata mapping i arg_srid args a args',
    aliased metadata mapping i args = (Ok a, args') ->
    aliased_2100 metadata mapping i arg_srid args
    = (Ok (if option_Z_eqb arg_srid (Some CRS_DEFAULT_DATABASE) then a else st_transform a),
       args').
Proof.
  intros metadata mapping i arg_srid args a args' H.
  unfold aliased_2100, bind. rewrite H.
  destruct (option_Z_eqb arg_srid (Some CRS_DEFAULT_DATABASE)); reflexivity.
Qed.

(** ** Counterexamples *)

(** C5 as stated fails: with a total timeout of 500 ms the statement
    timeout issued is 1000. *)
Lemma statement_timeout_exceeds_small_total :
  ~ (forall ms,
       In (SetStatementTimeout ms)
          (statements (execute Sample.env [] {| cfg_timeout := Some 500 |}
                         (Sample.request (Sample.all_of "roads")) None)) ->
       1000 <= ms <= 500).
Proof.
  intros H. specialize (H 1000). vm_compute in H.
  destruct H as [_ H]; [right; left; reflexivity | apply H; reflexivity].
Qed.

(** C6 as stated fails: two entries alias [roads] and [lakes] as [x];
    resolution raises nothing, and [x] stands for [lakes]. *)
Lemma shared_alias_is_not_detected :
  (forall e, fst (get_resources Sample.env (Sample.context Sample.shared_alias)) <> Raise e)
  /\ exists rs,
       fst (get_resources Sample.env (Sample.context Sample.shared_alias)) = Ok rs
       /\ dict_keys (query_metadata rs) = ["roads"; "lakes"]
       /\ dict_get "x" (resource_mapping rs) = Some "lakes".
Proof.
  split.
  - intros e. vm_compute. discriminate.
  - eexists. vm_compute. repeat split; reflexivity.
Qed.

(** C7 as stated fails: the first query on [roads] writes the alias and
    the description into the entry of [context['resources']]. *)
Lemma catalog_entry_is_mutated :
  let before := Sample.context (Sample.all_of "roads") in
  let after := snd (_execute_query Sample.env Sample.config before) in
  option_map r_alias (dict_get "roads" (resources before)) = Some None
  /\ option_map r_alias (dict_get "roads" (resources after)) = Some (Some "t1")
  /\ resources after <> resources before.
Proof.
  vm_compute. repeat split; try reflexivity. intros H. discriminate H.
Qed.


(** ** Limit and offset (claim C9) *)

Lemma get_limit_spec :
  forall d L,
    get_limit (VDict d) = Ok L -> limit_as_specified (dict_get "limit" d) L.
Proof.
  intros d L. unfold get_limit, py_in, py_getitem, dict_has, limit_as_specified. cbn.
  destruct (dict_get "limit" d) as [v |]; cbn.
  - destruct (is_number v); cbn; [| discriminate].
    unfold Qlt_bool, MAX_RESULT_ROWS.
    destruct (Qle_bool (inject_Z 10000) (num v)) eqn:Hhi; cbn.
    + intros H. injection H as <-. apply Qle_bool_iff in Hhi.
      repeat split; auto. intros [_ Hlt]. exfalso. apply (Qlt_not_le _ _ Hlt Hhi).
    + destruct (Qle_bool (num v) 0) eqn:Hlo; cbn; intros H; injection H as <-.
      * apply Qle_bool_iff in Hlo. repeat split; auto.
        intros [Hpos _]. exfalso. apply (Qlt_not_le _ _ Hpos Hlo).
      * assert (Hlt : (num v < 10000)%Q).
        { apply Qnot_le_lt. intros Hle. apply Qle_bool_iff in Hle.
          unfold inject_Z in Hhi. congruence. }
        assert (Hpos : (0 < num v)%Q).
        { apply Qnot_le_lt. intros Hle. apply Qle_bool_iff in Hle. congruence. }
        repeat split; auto.
        -- intros Hgt. exfalso. apply (Qlt_irrefl 10000).
           apply Qlt_trans with (num v); assumption.
        -- intros Hle. exfalso. apply (Qlt_not_le _ _ Hpos Hle).
  - intros H. injection H as <-. reflexivity.
Qed.

Lemma get_offset_spec :
  forall d O,
    get_offset (VDict d) = Ok O -> offset_as_specified (dict_get "offset" d) O.
Proof.
  intros d O. unfold get_offset, py_in, py_getitem, dict_has, offset_as_specified. cbn.
  destruct (dict_get "offset" d) as [v |]; cbn.
  - destruct (is_number v); cbn; [| discriminate].
    destruct (Qle_bool 0 (num v)) eqn:Hz; intros H; injection H as <-.
    + apply Qle_bool_iff in Hz. split; auto.
      intros Hneg. exfalso. apply (Qlt_not_le _ _ Hneg Hz).
    + split; auto. intros Hle. apply Qle_bool_iff in Hle. congruence.
  - intros H. injection H as <-. reflexivity.
Qed.

Lemma get_limit_not_a_number :
  forall d v,
    dict_get "limit" d = Some v -> is_number v = false ->
    get_limit (VDict d) = error "Parameter limit must be a number.".
Proof.
  intros d v Hv Hn. unfold get_limit, py_in, py_getitem, dict_has. cbn.
  rewrite Hv. cbn. rewrite Hn. reflexivity.
Qed.

Lemma get_offset_not_a_number :
  forall d v,
    dict_get "offset" d = Some v -> is_number v = false ->
    get_offset (VDict d) = error "Parameter offset must be a number.".
Proof.
  intros d v Hv Hn. unfold get_offset, py_in, py_getitem, dict_has. cbn.
  rewrite Hv. cbn. rewrite Hn. reflexivity.
Qed.

(** The statement ends with the limit and the offset. *)
Lemma build_sql_limit_offset :
  forall env crs rs pf wheres sort limit offset,
    exists prefix,
      build_sql env crs rs pf wheres sort limit offset
      = prefix ++ " limit " ++ py_str env limit ++ " offset " ++ py_str env offset ++ ";".
Proof.
  intros. unfold build_sql. eexists.
  repeat rewrite <- append_assoc.
  repeat rewrite (append_assoc _ " offset "). repeat rewrite (append_assoc _ " limit ").
  reflexivity.
Qed.

(** What a successful compilation went through. *)
Lemma compile_query_Ok :
  forall env ctx c ctx',
    compile_query env ctx = (Ok c, ctx') ->
    exists limit offset rs s addAllFields s0 filters wheres sort,
      get_limit (query ctx) = Ok limit
      /\ get_offset (query ctx) = Ok offset
      /\ get_resources env ctx = (Ok rs, s)
      /\ add_all_fields (query s) = Ok addAllFields
      /\ (if addAllFields : bool then expand_fields env (query_metadata rs) else ret tt) s
         = (Ok tt, s0)
      /\ get_fields rs (query s0) = Ok (parsed_fields c)
      /\ check_geometry_columns (output_format s0) (parsed_fields c) = Ok tt
      /\ get_filters env rs s0 = (Ok filters, ctx')
      /\ get_sort rs (parsed_fields c) (query ctx') = Ok sort
      /\ where_parts filters [] [] = Ok (wheres, values c)
      /\ sql c = build_sql env (crs ctx') (parsed_resources rs) (parsed_fields c)
                   wheres sort limit offset.
Proof.
  intros env ctx c ctx' H. unfold compile_query in H.
  repeat step H.
  match goal with x : (list string * list value)%type |- _ => destruct x as [wheres vals] end.
  step H. done_step H.
  repeat match goal with u : unit |- _ => destruct u end.
  cbn. repeat eexists; eassumption.
Qed.

(** A compiled statement carries the limit and offset [get_limit] and
    [get_offset] compute from the query the context holds. *)
Lemma compile_query_limit_offset :
  forall env ctx c ctx',
    compile_query env ctx = (Ok c, ctx') ->
    exists prefix L O,
      get_limit (query ctx) = Ok L /\ get_offset (query ctx) = Ok O
      /\ sql c = prefix ++ " limit " ++ py_str env L ++ " offset " ++ py_str env O ++ ";".
Proof.
  intros env ctx c ctx' H.
  destruct (compile_query_Ok _ _ _ _ H)
    as (L & O & rs & s & b & s0 & filters & wheres & sort & HL & HO & _ & _ & _ & _ & _ & _
        & _ & _ & Hsql).
  destruct (build_sql_limit_offset env (crs ctx') (parsed_resources rs) (parsed_fields c)
              wheres sort L O) as [prefix Hp].
  exists prefix, L, O. rewrite Hsql. auto.
Qed.

(** A query that is not numeric in [limit], or in [offset], does not
    compile: the first check that fails raises its domain error. *)
Lemma compile_query_not_a_number :
  forall env ctx d v,
    query ctx = VDict d ->
    (dict_get "limit" d = Some v \/ dict_get "offset" d = Some v) ->
    is_number v = false ->
    fst (compile_query env ctx) = error "Parameter limit must be a number."
    \/ fst (compile_query env ctx) = error "Parameter offset must be a number.".
Proof.
  intros env ctx d v Hq Hv Hn. unfold compile_query, bind, gets, lift. rewrite Hq.
  destruct Hv as [Hv | Hv].
  - left. rewrite (get_limit_not_a_number d v Hv Hn). reflexivity.
  - rewrite (get_offset_not_a_number d v Hv Hn).
    destruct (get_limit (VDict d)) as [L | e] eqn:HL.
    + right. reflexivity.
    + left. cbn. unfold get_limit, py_in, py_getitem, dict_has in HL. cbn in HL.
      destruct (dict_get "limit" d) as [w |]; cbn in HL; [| discriminate].
      destruct (is_number w); cbn in HL.
      * destruct (_ && _) in HL; discriminate.
      * unfold error in *. congruence.
Qed.

(** C9: the statement compiled for a query ends in [limit L offset O;]
    where [L] is the given limit when 0 < limit < 10000 and 10000 when it
    is above 10000, at most 0 or missing, and [O] is the given offset when
    it is >= 0 and 0 when it is negative or missing; a limit or an offset
    that is not a number raises a domain error.  A number is an instance
    of [numbers.Number], as in the code: an int, a float or a bool. *)
Theorem limit_and_offset_of_statement :
  forall env ctx d,
    query ctx = VDict d ->
    (forall c ctx',
        compile_query env ctx = (Ok c, ctx') ->
        exists prefix L O,
          sql c = prefix ++ " limit " ++ py_str env L ++ " offset " ++ py_str env O ++ ";"
          /\ limit_as_specified (dict_get "limit" d) L
          /\ offset_as_specified (dict_get "offset" d) O)
    /\ (forall v,
          dict_get "limit" d = Some v -> is_number v = false ->
          fst (compile_query env ctx) = error "Parameter limit must be a number.")
    /\ (forall v,
          dict_get "offset" d = Some v -> is_number v = false ->
          fst (compile_query env ctx) = error "Parameter limit must be a number."
          \/ fst (compile_query env ctx) = error "Parameter offset must be a number.").
Proof.
  intros env ctx d Hq. repeat split.
  - intros c ctx' H.
    destruct (compile_query_limit_offset _ _ _ _ H) as (prefix & L & O & HL & HO & Hsql).
    rewrite Hq in HL, HO. exists prefix, L, O.
    auto using get_limit_spec, get_offset_spec.
  - intros v Hv Hn. unfold compile_query, bind, gets, lift. rewrite Hq.
    rewrite (get_limit_not_a_number d v Hv Hn). reflexivity.
  - intros v Hv Hn. eapply compile_query_not_a_number; eauto.
Qed.

(** The query [{"resources": ["roads"], "limit": 5, "offset": 2}] on the
    sample catalog. *)
Lemma limit_and_offset_of_statement_witness :
  query (Sample.context Sample.limit_five)
  = VDict [("resources", VList [VStr "roads"]); ("limit", VInt 5); ("offset", VInt 2)]
  /\ exists c ctx',
      compile_query Sample.env (Sample.context Sample.limit_five) = (Ok c, ctx')
      /\ exists prefix L O,
          sql c = prefix ++ " limit " ++ py_str Sample.env L ++ " offset "
                  ++ py_str Sample.env O ++ ";"
          /\ limit_as_specified (Some (VInt 5)) L
          /\ offset_as_specified (Some (VInt 2)) O.
Proof.
  split; [reflexivity |].
  destruct (compile_query Sample.env (Sample.context Sample.limit_five))
    as [[c | e] ctx'] eqn:E; [| vm_compute in E; discriminate E].
  exists c, ctx'. split; [reflexivity |].
  exact (proj1 (limit_and_offset_of_statement Sample.env
                  (Sample.context Sample.limit_five) _ eq_refl) c ctx' E).
Defined.

(** ** Dicts *)

Lemma dict_get_set_same :
  forall V k (v : V) d, dict_get k (dict_set k v d) = Some v.
Proof.
  intros V k v d. induction d as [| [k' v'] d IH]; cbn.
  - now rewrite String.eqb_refl.
  - destruct (String.eqb k k') eqn:E; cbn; rewrite E; [reflexivity | exact IH].
Qed.

Lemma dict_get_set_other :
  forall V k k' (v : V) d, k <> k' -> dict_get k (dict_set k' v d) = dict_get k d.
Proof.
  intros V k k' v d Hne. induction d as [| [k0 v0] d IH]; cbn.
  - apply String.eqb_neq in Hne. now rewrite Hne.
  - destruct (String.eqb k' k0) eqn:E; cbn.
    + apply String.eqb_eq in E. subst k0.
      apply String.eqb_neq in Hne. now rewrite Hne.
    + destruct (String.eqb k k0); [reflexivity | exact IH].
Qed.

(** ** The frame of compilation *)

Lemma frame_refl : forall c, frame c c.
Proof.
  intros c. split; try reflexivity. exists []. cbn. now rewrite app_nil_r.
Qed.

Lemma frame_trans : forall a b c, frame a b -> frame b c -> frame a c.
Proof.
  intros a b c [F1 C1 E1 S1 [l1 L1]] [F2 C2 E2 S2 [l2 L2]]. split; try congruence.
  exists (l1 ++ l2)%list. rewrite L2, L1, map_app, app_assoc. reflexivity.
Qed.

Lemma frame_set_query : forall q c, frame c (set_query q c).
Proof.
  intros q c. split; try reflexivity. exists []. cbn. now rewrite app_nil_r.
Qed.

Lemma frame_set_metadata : forall m c, frame c (set_metadata m c).
Proof.
  intros m c. split; try reflexivity. exists []. cbn. now rewrite app_nil_r.
Qed.

Lemma frame_introspect : forall id c, frame c (send (Introspect id) c).
Proof. intros. split; try reflexivity. exists [id]. reflexivity. Qed.

Lemma stubs_dict_set :
  forall name r' rs,
    (forall r, dict_get name rs = Some r -> stub r' = stub r) ->
    dict_has name rs = true ->
    stubs (dict_set name r' rs) = stubs rs.
Proof.
  intros name r' rs. unfold dict_has, stubs.
  induction rs as [| [k v] rs IH]; cbn; intros Hs Hh.
  - discriminate.
  - destruct (String.eqb name k) eqn:E; cbn in *.
    + rewrite (Hs v eq_refl). reflexivity.
    + f_equal. apply IH; auto.
Qed.

Lemma stubs_dict_get :
  forall name rs,
    dict_get name (stubs rs) = option_map stub (dict_get name rs).
Proof.
  intros name rs. unfold stubs. induction rs as [| [k v] rs IH]; cbn; [reflexivity |].
  destruct (String.eqb name k); [reflexivity | exact IH].
Qed.

Lemma frame_set_resource :
  forall name r' c,
    option_map stub (dict_get name (resources c)) = Some (stub r') ->
    frame c (set_resources (dict_set name r' (resources c)) c).
Proof.
  intros name r' c H. split; try reflexivity.
  - cbn. apply stubs_dict_set.
    + intros r Hr. rewrite Hr in H. cbn in H. congruence.
    + unfold dict_has. destruct (dict_get name (resources c)); [reflexivity | discriminate].
  - exists []. cbn. now rewrite app_nil_r.
Qed.

Section Respects.

Variable R : Context -> Context -> Prop.
Hypothesis R_refl : forall c, R c c.
Hypothesis R_trans : forall a b c, R a b -> R b c -> R a c.

Lemma respects_ret : forall A (a : A), respects R (ret a).
Proof. intros A a s. apply R_refl. Qed.

Lemma respects_lift : forall A (r : Result A), respects R (lift r).
Proof. intros A r s. apply R_refl. Qed.

Lemma respects_gets : forall A (f : Context -> A), respects R (gets f).
Proof. intros A f s. apply R_refl. Qed.

Lemma respects_bind :
  forall A B (m : M Context A) (k : A -> M Context B),
    respects R m -> (forall a, respects R (k a)) -> respects R (bind m k).
Proof.
  intros A B m k Hm Hk s. unfold bind. specialize (Hm s).
  destruct (m s) as [[a | e] s1]; cbn in *; [| exact Hm].
  eapply R_trans; [exact Hm | apply Hk].
Qed.

Lemma respects_fold_m :
  forall A B (body : B -> A -> M Context B),
    (forall b a, respects R (body b a)) ->
    forall l b, respects R (fold_m body l b).
Proof.
  intros A B body Hb l. induction l as [| x l IH]; intros b; cbn.
  - apply respects_ret.
  - apply respects_bind; auto.
Qed.

Lemma respects_zoom :
  forall A T (proj : Context -> T) (upd : T -> Context -> Context) (m : M T A),
    (forall t c, R c (upd t c)) -> respects R (zoom proj upd m).
Proof.
  intros A T proj upd m Hupd s. unfold zoom. destruct (m (proj s)) as [r t]. cbn.
  apply Hupd.
Qed.

(** The resource loop, given what its three writes do. *)
Hypothesis R_first_reference :
  forall env name db s,
    dict_get name (resources s) = Some db -> R s (snd (first_reference env name db s)).

Lemma get_resource_respects :
  forall env acc query_resource, respects R (get_resource env acc query_resource).
Proof.
  intros env acc qr s. unfold get_resource, bind, lift, get.
  destruct (resource_reference qr) as [[n a] | e]; [| apply R_refl].
  destruct (dict_get n (resources s)) as [db |] eqn:Hdb; [| apply R_refl].
  destruct (dict_get n (metadata s)) as [cached |]; [apply R_refl |].
  pose proof (R_first_reference env n db s Hdb) as F.
  destruct (first_reference env n db s) as [[d | e] s1]; exact F.
Qed.

Lemma get_resources_respects : forall env, respects R (get_resources env).
Proof.
  intros env. unfold get_resources.
  apply respects_bind; [apply respects_gets | intros q].
  apply respects_bind; [apply respects_lift | intros has].
  destruct (negb has); [apply respects_lift |].
  apply respects_bind; [apply respects_lift | intros rs].
  destruct rs; try apply respects_lift.
  apply respects_fold_m. intros. apply get_resource_respects.
Qed.

(** The filter loop, given what writing a filter back does. *)
Hypothesis R_with_filter :
  forall i f c, R c (set_query (with_filter i f (query c)) c).

Lemma get_filters_respects : forall env rs, respects R (get_filters env rs).
Proof.
  intros env rs. unfold get_filters.
  apply respects_bind; [apply respects_gets | intros q].
  apply respects_bind; [apply respects_lift | intros has].
  destruct (negb has); [apply respects_ret |].
  apply respects_bind; [apply respects_lift | intros fs].
  destruct fs; try apply respects_lift.
  apply respects_fold_m. intros parsed i.
  apply respects_bind; [| intros; apply respects_ret].
  unfold on_filter. apply respects_zoom. intros t c. apply R_with_filter.
Qed.

End Respects.

(** The first reference writes the alias and the description into the
    catalog entry; its catalog attributes stay. *)
Lemma first_reference_frame :
  forall env name db s,
    dict_get name (resources s) = Some db ->
    frame s (snd (first_reference env name db s)).
Proof.
  intros env name db s Hdb.
  unfold first_reference, bind, get, set_resource, describeResource, modify, lift, ret.
  cbn.
  set (a := "t" ++ str_of_Z (Z.of_nat (List.length (dict_keys (metadata s))) + 1)).
  set (r1 := {| stub := stub db; r_alias := Some a; r_description := r_description db |}).
  set (c1 := set_resources (dict_set name r1 (resources s)) s).
  assert (F1 : frame s c1).
  { apply frame_set_resource. rewrite Hdb. reflexivity. }
  assert (F2 : frame s (send (Introspect name) c1)).
  { eapply frame_trans; [exact F1 | apply frame_introspect]. }
  destruct (describe_columns name (table_columns env name) [] None None) as [d | e]; cbn.
  - eapply frame_trans; [exact F2 |].
    eapply frame_trans; [| apply frame_set_metadata].
    apply frame_set_resource. cbn. rewrite dict_get_set_same. reflexivity.
  - exact F2.
Qed.

Lemma frame_with_filter :
  forall i f c, frame c (set_query (with_filter i f (query c)) c).
Proof. intros. apply frame_set_query. Qed.

Lemma expand_fields_frame : forall env qm, respects frame (expand_fields env qm).
Proof.
  intros env qm. unfold expand_fields.
  apply (respects_bind frame frame_trans); [apply (respects_gets frame frame_refl) |].
  intros q.
  apply (respects_bind frame frame_trans); [apply (respects_lift frame frame_refl) |].
  intros q' s. apply frame_set_query.
Qed.

Lemma get_resources_frame : forall env, respects frame (get_resources env).
Proof.
  exact (get_resources_respects frame frame_refl frame_trans first_reference_frame).
Qed.

Lemma get_filters_frame : forall env rs, respects frame (get_filters env rs).
Proof.
  exact (get_filters_respects frame frame_refl frame_trans frame_with_filter).
Qed.

(** Compilation leaves the catalog attributes, the clock and the output
    settings alone, raise or not, and sends introspection only. *)
Lemma compile_query_respects : forall env, respects frame (compile_query env).
Proof.
  intros env. unfold compile_query.
  repeat (first
    [ apply get_resources_frame | apply get_filters_frame
    | apply expand_fields_frame | apply (respects_gets frame frame_refl)
    | apply (respects_lift frame frame_refl)
    | apply (respects_ret frame frame_refl)
    | apply (respects_bind frame frame_trans); [| intros ?]
    | match goal with |- respects _ (if ?b then _ else _) => destruct b end
    | match goal with |- respects _ (match ?x with (_, _) => _ end) => destruct x end ]).
Qed.

(** ** Catalog entries during a batch (claim C7) *)

Lemma run_query_resources :
  forall env config c s,
    resources (snd (run_query env config c s)) = resources s.
Proof.
  intros env config c s. unfold run_query, bind, get, modify, raise, ret. cbn.
  destruct (run_statement env _ (sql c) (values c)) as [seconds [records | pgcode]]; cbn;
    [| reflexivity].
  destruct (cfg_timeout config) as [t |]; cbn; [| reflexivity].
  destruct (Qle_bool _ _); reflexivity.
Qed.

Lemma _execute_query_stubs :
  forall env config s,
    stubs (resources (snd (_execute_query env config s))) = stubs (resources s).
Proof.
  intros env config s. unfold _execute_query, bind.
  pose proof (compile_query_respects env s) as F.
  destruct (compile_query env s) as [[c | e] s1]; cbn in F; [| exact (frame_stubs _ _ F)].
  pose proof (run_query_resources env config c s1) as R.
  destruct (run_query env config c s1) as [[records | e] s2]; cbn in R |- *.
  - unfold gets, lift. cbn. rewrite R. exact (frame_stubs _ _ F).
  - rewrite R. exact (frame_stubs _ _ F).
Qed.

Lemma execute_queue_stubs :
  forall env config queue ctx,
    stubs (resources (snd (execute_queue env config queue ctx))) = stubs (resources ctx).
Proof.
  intros env config queue. induction queue as [| q rest IH]; intros ctx; cbn.
  - reflexivity.
  - pose proof (_execute_query_stubs env config (set_query q ctx)) as Hq.
    destruct (_execute_query env config (set_query q ctx)) as [[result | e] ctx1];
      cbn in Hq |- *; [| exact Hq].
    specialize (IH ctx1).
    destruct (execute_queue env config rest ctx1) as [[r rest'] ctx2]. cbn in IH |- *.
    rewrite IH. exact Hq.
Qed.

(** The batch leaves the entries of [context['resources']] under the
    names they had. *)
Lemma stubs_keys :
  forall rs rs' : dict Resource, stubs rs' = stubs rs -> dict_keys rs' = dict_keys rs.
Proof.
  intros rs rs' H. unfold dict_keys. apply (f_equal (map fst)) in H. unfold stubs in H.
  rewrite !map_map in H.
  assert (E : forall l : dict Resource,
             map (fun x => fst (let '(k, r) := x in (k, stub r))) l = map fst l).
  { intros l. apply map_ext. intros [k v]. reflexivity. }
  rewrite !E in H. exact H.
Qed.

(** ** The statement timeout (claim C5) *)

Lemma py_int_le :
  forall (x : Q) (T : Z), (x <= inject_Z T)%Q -> py_int x <= T.
Proof.
  intros [n d] T H. unfold py_int, Qle in *. cbn in *.
  rewrite Z.mul_1_r in H.
  destruct (Z_lt_le_dec n 0) as [Hneg | Hpos].
  - rewrite <- (Z.opp_involutive n), Z.quot_opp_l by lia.
    rewrite Z.quot_div_nonneg by lia.
    assert (- T <= - n / Z.pos d); [| lia].
    apply Z.div_le_lower_bound; lia.
  - rewrite Z.quot_div_nonneg by lia.
    apply Z.div_le_upper_bound; lia.
Qed.

Lemma command_timeout_bounds :
  forall env T is_int e,
    rounds (float_round env) -> T <= 2 ^ 53 -> (0 <= e)%Q ->
    1000 <= command_timeout env T is_int e <= Z.max T 1000.
Proof.
  intros env T is_int e [Hmono Hexact] HT He. unfold command_timeout.
  split; [apply Z.le_max_r |].
  destruct is_int; [apply Z.max_le_compat_r, py_int_le; lra |].
  set (U := Z.max T (- 2 ^ 53)).
  assert (HU : - 2 ^ 53 <= U <= 2 ^ 53) by (unfold U; lia).
  pose proof (Hexact U HU) as EU.
  assert (H0 : (0 <= float_round env (e * 1000))%Q).
  { assert (Hz : (float_round env (inject_Z 0) == inject_Z 0)%Q) by (apply Hexact; lia).
    assert (Hle : (float_round env (inject_Z 0) <= float_round env (e * 1000))%Q).
    { apply Hmono. unfold inject_Z. lra. }
    unfold inject_Z in Hz, Hle. lra. }
  assert (H1 : (float_round env (inject_Z T) <= inject_Z U)%Q).
  { assert (Hle : (float_round env (inject_Z T) <= float_round env (inject_Z U))%Q).
    { apply Hmono. rewrite <- Zle_Qle. unfold U. lia. }
    lra. }
  assert (H2 : (float_round env (float_round env (inject_Z T)
                                 - float_round env (e * 1000)) <= inject_Z U)%Q).
  { assert (Hle : (float_round env (float_round env (inject_Z T)
                                    - float_round env (e * 1000))
                   <= float_round env (inject_Z U))%Q).
    { apply Hmono. lra. }
    lra. }
  apply py_int_le in H2. unfold U in H2.
  assert (Hp : 0 < 2 ^ 53) by reflexivity. lia.
Qed.

Lemma py_min_nonneg : forall x, (0 <= x)%Q -> (0 <= py_min x 1)%Q.
Proof.
  intros x Hx. unfold py_min. destruct (Qlt_bool 1 x); [lra | exact Hx].
Qed.

(** The clock has not run backwards and every statement timeout sent
    so far is within its bounds. *)
Definition within_budget (T : Z) (c : Context) : Prop :=
  (0 <= elapsed_time c)%Q /\ Forall (timeout_ok T) (sent c).

Lemma within_budget_frame :
  forall T c c', frame c c' -> within_budget T c -> within_budget T c'.
Proof.
  intros T c c' F [He Hs]. destruct (frame_sent _ _ F) as [ids Hids]. split.
  - rewrite (frame_elapsed _ _ F). exact He.
  - rewrite Hids. apply Forall_app. split; [exact Hs |].
    apply Forall_forall. intros st Hin. apply in_map_iff in Hin.
    destruct Hin as (id & <- & _). exact I.
Qed.

Section Budget.

Variable env : Environment.
Variable config : Config.
Hypothesis clock : forall ms sql vals, (0 <= fst (run_statement env ms sql vals))%Q.
Hypothesis rounding : rounds (float_round env).
Hypothesis representable : total_timeout config <= 2 ^ 53.

Lemma run_query_within_budget :
  forall c s,
    within_budget (total_timeout config) s ->
    within_budget (total_timeout config) (snd (run_query env config c s)).
Proof.
  intros c s [He Hs].
  unfold run_query, bind, get, modify, raise, ret. cbn.
  set (ms := command_timeout env (total_timeout config) (elapsed_is_int s)
               (elapsed_time s)).
  assert (Hsent : Forall (timeout_ok (total_timeout config))
                    ((sent s ++ [SetStatementTimeout ms]) ++ [Select (sql c) (values c)])).
  { repeat (apply Forall_app; split); auto.
    - constructor; [| constructor].
      apply command_timeout_bounds; [exact rounding | exact representable | exact He].
    - constructor; [exact I | constructor]. }
  pose proof (clock ms (sql c) (values c)) as Hsec.
  destruct (run_statement env ms (sql c) (values c)) as [seconds [records | pgcode]];
    cbn in Hsec |- *.
  - assert (Ht : (0 <= elapsed_time s + py_min seconds 1)%Q).
    { pose proof (py_min_nonneg seconds Hsec). lra. }
    destruct (cfg_timeout config) as [t |]; cbn; [| split; assumption].
    destruct (Qle_bool _ _); cbn; split; assumption.
  - split; assumption.
Qed.

Lemma _execute_query_within_budget :
  forall s,
    within_budget (total_timeout config) s ->
    within_budget (total_timeout config) (snd (_execute_query env config s)).
Proof.
  intros s Hs. unfold _execute_query, bind.
  pose proof (compile_query_respects env s) as F.
  destruct (compile_query env s) as [[c | e] s1]; cbn in F;
    [| exact (within_budget_frame _ _ _ F Hs)].
  pose proof (run_query_within_budget c s1 (within_budget_frame _ _ _ F Hs)) as R.
  destruct (run_query env config c s1) as [[records | e] s2]; cbn in R |- *; exact R.
Qed.

Lemma execute_queue_within_budget :
  forall queue ctx,
    within_budget (total_timeout config) ctx ->
    within_budget (total_timeout config) (snd (execute_queue env config queue ctx)).
Proof.
  intros queue. induction queue as [| q rest IH]; intros ctx Hs; cbn.
  - exact Hs.
  - assert (Hq : within_budget (total_timeout config) (set_query q ctx)) by exact Hs.
    pose proof (_execute_query_within_budget _ Hq) as H1.
    destruct (_execute_query env config (set_query q ctx)) as [[result | e] ctx1];
      cbn in H1 |- *; [| exact H1].
    specialize (IH ctx1 H1).
    destruct (execute_queue env config rest ctx1) as [[r rest'] ctx2]. exact IH.
Qed.

End Budget.

(** ** Aliases that repeat (claim C6) *)

Lemma first_reference_Ok :
  forall env name db s described,
    describe_columns name (table_columns env name) [] None None = Ok described ->
    exists d s', first_reference env name db s = (Ok d, s').
Proof.
  intros env name db s described H.
  unfold first_reference, bind, get, set_resource, describeResource, modify, lift, ret.
  cbn. rewrite H. cbn. eauto.
Qed.

Lemma dict_has_stubs :
  forall name rs rs', stubs rs' = stubs rs -> dict_has name rs' = dict_has name rs.
Proof.
  intros name rs rs' H. unfold dict_has.
  pose proof (stubs_dict_get name rs) as A. pose proof (stubs_dict_get name rs') as B.
  rewrite H in B. rewrite A in B.
  destruct (dict_get name rs), (dict_get name rs'); cbn in B; congruence.
Qed.

Lemma resolvable_frame :
  forall env c c' entry, frame c c' -> resolvable env c entry -> resolvable env c' entry.
Proof.
  intros env c c' entry F (name & a & described & Href & Hhas & Hdesc).
  exists name, a, described. repeat split; auto.
  rewrite (dict_has_stubs name _ _ (frame_stubs _ _ F)). exact Hhas.
Qed.

Lemma get_resource_Ok :
  forall env acc entry s,
    resolvable env s entry ->
    exists rs s',
      get_resource env acc entry s = (Ok rs, s')
      /\ resource_mapping rs
         = match resource_reference entry with
           | Ok (name, a) => dict_set a name (dict_set name name (resource_mapping acc))
           | Raise _ => resource_mapping acc
           end.
Proof.
  intros env acc entry s (name & a & described & Href & Hhas & Hdesc).
  unfold get_resource, bind, lift, get. rewrite Href.
  unfold dict_has in Hhas.
  destruct (dict_get name (resources s)) as [db |]; [| discriminate].
  destruct (dict_get name (metadata s)) as [cached |].
  - cbn. do 2 eexists. split; reflexivity.
  - destruct (first_reference_Ok env name db s described Hdesc) as (d & s' & ->).
    cbn. do 2 eexists. split; reflexivity.
Qed.

Lemma get_resources_loop_Ok :
  forall env entries acc s,
    Forall (resolvable env s) entries ->
    exists rs s',
      fold_m (get_resource env) entries acc s = (Ok rs, s')
      /\ resource_mapping rs
         = fold_left
             (fun mapping entry =>
                match resource_reference entry with
                | Ok (name, a) => dict_set a name (dict_set name name mapping)
                | Raise _ => mapping
                end)
             entries (resource_mapping acc).
Proof.
  intros env entries. induction entries as [| entry rest IH]; intros acc s Hall.
  - cbn. do 2 eexists. split; reflexivity.
  - inversion Hall as [| ? ? Hentry Hrest]; subst.
    destruct (get_resource_Ok env acc entry s Hentry) as (rs1 & s1 & Hstep & Hmap).
    pose proof (get_resource_respects frame frame_refl first_reference_frame
                  env acc entry s) as F.
    rewrite Hstep in F. cbn in F.
    assert (Hrest' : Forall (resolvable env s1) rest).
    { eapply Forall_impl; [| exact Hrest]. intros e. apply resolvable_frame. exact F. }
    destruct (IH rs1 s1 Hrest') as (rs & s' & Hloop & Hmap').
    exists rs, s'. cbn. unfold bind. rewrite Hstep. split; [exact Hloop |].
    rewrite Hmap', Hmap. reflexivity.
Qed.

(** Entries that write neither [name -> name] nor [alias -> name] under
    key [k] leave the mapping of [k] as it is. *)
Lemma mapping_kept :
  forall k entries mapping,
    Forall (fun e => forall n a, resource_reference e = Ok (n, a) -> n <> k /\ a <> k)
      entries ->
    dict_get k
      (fold_left
         (fun mapping entry =>
            match resource_reference entry with
            | Ok (name, a) => dict_set a name (dict_set name name mapping)
            | Raise _ => mapping
            end)
         entries mapping)
    = dict_get k mapping.
Proof.
  intros k entries. induction entries as [| e rest IH]; intros mapping Hall; cbn.
  - reflexivity.
  - inversion Hall as [| ? ? He Hrest]; subst. rewrite (IH _ Hrest).
    destruct (resource_reference e) as [[n a] |]; [| reflexivity].
    destruct (He n a eq_refl) as [Hn Ha].
    rewrite !dict_get_set_other by congruence. reflexivity.
Qed.

(** C6, as amended: a resources list of well-formed entries that name
    catalog resources whose tables introspect is resolved without error,
    whether aliases repeat or not.  The mapping is written entry after
    entry, a later write over an earlier one: an alias stands for the
    resource of the last entry that writes it. *)
Theorem repeated_alias_is_accepted :
  forall env ctx d entries,
    query ctx = VDict d ->
    dict_get "resources" d = Some (VList entries) ->
    Forall (resolvable env ctx) entries ->
    exists rs ctx',
      get_resources env ctx = (Ok rs, ctx')
      /\ resource_mapping rs = mapping_of entries
      /\ forall before entry after name a,
           entries = (before ++ entry :: after)%list ->
           resource_reference entry = Ok (name, a) ->
           Forall (fun e => forall n' a', resource_reference e = Ok (n', a') ->
                                           n' <> a /\ a' <> a) after ->
           dict_get a (resource_mapping rs) = Some name.
Proof.
  intros env ctx d entries Hq Hres Hall.
  destruct (get_resources_loop_Ok env entries
              {| parsed_resources := []; query_metadata := []; resource_mapping := [] |}
              ctx Hall) as (rs & ctx' & Hloop & Hmap).
  exists rs, ctx'. repeat split.
  - unfold get_resources, bind, gets, lift. rewrite Hq. cbn. unfold dict_has.
    rewrite Hres. cbn. exact Hloop.
  - exact Hmap.
  - intros before entry after name a -> Href Hafter. rewrite Hmap. cbn.
    rewrite fold_left_app. cbn. rewrite (mapping_kept a after _ Hafter), Href.
    apply dict_get_set_same.
Qed.

(** The two entries that alias [roads] and [lakes] as [x]: they are
    resolved, and [x] stands for [lakes]. *)
Lemma repeated_alias_is_accepted_witness :
  exists rs ctx',
    get_resources Sample.env (Sample.context Sample.shared_alias) = (Ok rs, ctx')
    /\ resource_mapping rs
       = mapping_of [VDict [("name", VStr "roads"); ("alias", VStr "x")];
                     VDict [("name", VStr "lakes"); ("alias", VStr "x")]]
    /\ dict_get "x" (resource_mapping rs) = Some "lakes".
Proof.
  destruct (repeated_alias_is_accepted Sample.env (Sample.context Sample.shared_alias)
              [("resources",
                VList [VDict [("name", VStr "roads"); ("alias", VStr "x")];
                       VDict [("name", VStr "lakes"); ("alias", VStr "x")]])]
              [VDict [("name", VStr "roads"); ("alias", VStr "x")];
               VDict [("name", VStr "lakes"); ("alias", VStr "x")]]
              eq_refl eq_refl) as (rs & ctx' & Hres & Hmap & Hlast).
  - repeat constructor.
    + exists "roads", "x". eexists. repeat split; reflexivity.
    + exists "lakes", "x". eexists. repeat split; reflexivity.
  - exists rs, ctx'. repeat split; [exact Hres | exact Hmap |].
    apply (Hlast [VDict [("name", VStr "roads"); ("alias", VStr "x")]]
             (VDict [("name", VStr "lakes"); ("alias", VStr "x")]) [] "lakes" "x");
      [reflexivity | reflexivity | constructor].
Defined.

(** ** GeoJSON features (claim C8) *)

Lemma dict_has_false :
  forall V k (d : dict V), dict_has k d = false <-> ~ In k (dict_keys d).
Proof.
  intros V k d. unfold dict_has, dict_keys. induction d as [| [k' v] d IH]; cbn.
  - tauto.
  - destruct (String.eqb k k') eqn:E.
    + apply String.eqb_eq in E. subst. split; [discriminate | intros H; exfalso; auto].
    + apply String.eqb_neq in E. rewrite IH. split; [intros H [H' | H']; auto | tauto].
Qed.

Lemma dict_set_fresh :
  forall V k (v : V) d, ~ In k (dict_keys d) -> dict_set k v d = (d ++ [(k, v)])%list.
Proof.
  intros V k v d. unfold dict_keys. induction d as [| [k' v'] d IH]; cbn; intros H.
  - reflexivity.
  - destruct (String.eqb k k') eqn:E.
    + apply String.eqb_eq in E. subst. exfalso. auto.
    + rewrite IH; auto.
Qed.

(** The projection has no two fields with the same output alias. *)
Lemma get_field_keys :
  forall rs parsed item parsed',
    get_field rs parsed item = Ok parsed' ->
    NoDup (dict_keys parsed) -> NoDup (dict_keys parsed').
Proof.
  intros rs parsed item parsed' H Hnd. unfold get_field in H.
  step H. destruct a as [[n a] given]. step H.
  destruct (dict_get a0 (resource_mapping rs)) as [resource_name |]; [| discriminate].
  destruct (dict_get resource_name (query_metadata rs)) as [db |]; [| discriminate].
  destruct (dict_get n (fields db)) as [db_field |]; [| discriminate].
  destruct (dict_has a parsed) eqn:Hhas; [discriminate |].
  injection H as <-. apply dict_has_false in Hhas.
  rewrite dict_set_fresh by exact Hhas. unfold dict_keys in *. rewrite map_app. cbn.
  apply NoDup_app; auto.
  - repeat constructor. intros [].
  - intros x Hx [<- | []]. auto.
Qed.

Lemma fold_get_field_keys :
  forall rs l parsed parsed',
    fold_result (get_field rs) l parsed = Ok parsed' ->
    NoDup (dict_keys parsed) -> NoDup (dict_keys parsed').
Proof.
  intros rs l. induction l as [| item l IH]; cbn; intros parsed parsed' H Hnd.
  - injection H as <-. exact Hnd.
  - step H. eapply IH; [exact H |]. eapply get_field_keys; eauto.
Qed.

Lemma get_fields_keys :
  forall rs q parsed, get_fields rs q = Ok parsed -> NoDup (dict_keys parsed).
Proof.
  intros rs q parsed H. unfold get_fields in H. step H.
  destruct a; try discriminate.
  eapply fold_get_field_keys; [exact H | constructor].
Qed.



Lemma decode_geometry_Ok :
  forall env v g,
    decode_geometry env v = Ok g ->
    exists h gg, v = VStr h /\ wkb_loads env h = Some gg /\ g = VGeom gg.
Proof.
  intros env v g H. unfold decode_geometry in H. destruct v; try discriminate.
  destruct (wkb_loads env s) as [gg |] eqn:E; [| discriminate].
  injection H as <-. eauto.
Qed.






Lemma run_query_output_format :
  forall env config c s,
    output_format (snd (run_query env config c s)) = output_format s.
Proof.
  intros env config c s. unfold run_query, bind, get, modify, raise, ret. cbn.
  destruct (run_statement env _ (sql c) (values c)) as [seconds [records | pgcode]]; cbn;
    [| reflexivity].
  destruct (cfg_timeout config) as [t |]; cbn; [| reflexivity].
  destruct (Qle_bool _ _); reflexivity.
Qed.

(** The rows a successful run hands on are the rows of the reply. *)
Lemma run_query_Ok :
  forall env config c s records s',
    run_query env config c s = (Ok records, s') ->
    exists ms seconds, run_statement env ms (sql c) (values c) = (seconds, Rows records).
Proof.
  intros env config c s records s'. unfold run_query, bind, get, modify, raise, ret. cbn.
  set (ms := command_timeout env (total_timeout config) (elapsed_is_int s)
      (elapsed_time s)).
  destruct (run_statement env ms (sql c) (values c)) as [seconds [rows | pgcode]] eqn:E; cbn;
    [| discriminate].
  destruct (cfg_timeout config) as [t |]; cbn; [| discriminate].
  destruct (Qle_bool _ _); [discriminate |].
  intros H. injection H as <- _. eauto.
Qed.




(** ** What compilation writes into the query (claim C10) *)

Lemma annotate_cases :
  forall metadata d,
    annotate metadata (VDict d) = VDict d
    \/ exists n r,
         dict_get "name" d = Some (VStr n) /\ dict_get "resource" d = None
         /\ _get_resources_by_field_name metadata n = [r]
         /\ annotate metadata (VDict d) = VDict (dict_set "resource" (VStr r) d).
Proof.
  intros metadata d. unfold annotate.
  destruct (dict_get "name" d) as [[| | | | n | | |] |]; auto;
    destruct (dict_get "resource" d); auto.
  destruct (_get_resources_by_field_name metadata n) as [| r [| r' l]] eqn:Hl; auto.
  right. exists n, r. repeat split; auto.
Qed.

Lemma annotate_idempotent :
  forall metadata arg, annotate metadata (annotate metadata arg) = annotate metadata arg.
Proof.
  intros metadata arg. destruct arg as [| | | | | | d |]; try reflexivity.
  destruct (annotate_cases metadata d) as [H | (n & r & Hn & Hr & Hl & H)].
  - rewrite !H. reflexivity.
  - rewrite H. unfold annotate.
    rewrite dict_get_set_other by discriminate. rewrite Hn, dict_get_set_same. reflexivity.
Qed.

Lemma annotate_number :
  forall metadata v, is_number v = true -> annotate metadata v = v.
Proof. intros metadata v H. destruct v; try discriminate; reflexivity. Qed.

Lemma infer_resource_Ok :
  forall what metadata field resource,
    infer_resource what metadata field = Ok resource ->
    _get_resources_by_field_name metadata field = [resource].
Proof.
  intros what metadata field resource H. unfold infer_resource in H.
  destruct (_get_resources_by_field_name metadata field) as [| r [| r' l]];
    try discriminate.
  injection H as ->. reflexivity.
Qed.

(** [_is_field] leaves the argument annotated. *)
Lemma _is_field_annotates :
  forall metadata mapping f b f',
    _is_field metadata mapping f = (Ok b, f') -> f' = annotate metadata f.
Proof.
  intros metadata mapping f b f' H. unfold _is_field in H.
  step H. destruct f as [| | | | | | d |]; try (done_step H; reflexivity).
  destruct (dict_has "name" d) eqn:Hhas; cbn [negb] in H.
  2:{ done_step H. unfold dict_has in Hhas. unfold annotate.
      destruct (dict_get "name" d); [discriminate | reflexivity]. }
  step H. destruct (dict_get "resource" d) as [rv |] eqn:Hr.
  - assert (s = VDict d).
    { step E. destruct (dict_get a0 mapping); [| discriminate].
      destruct (dict_has s0 metadata); [done_step E; reflexivity | discriminate]. }
    subst s. clear E. do 2 step H. destruct_pairs.
    match goal with H : (if ?c then _ else _) _ = _ |- _ => destruct c end.
    + done_step H. unfold annotate. rewrite Hr.
      destruct (dict_get "name" d) as [[| | | | | | |] |]; reflexivity.
    + step H. discriminate.
  - do 2 step E. done_step E.
    match goal with H : and_then _ _ = Ok _ |- _ => step H end.
    match goal with H : py_getitem _ _ = Ok _ |- _ =>
      unfold py_getitem in H; destruct (dict_get "name" d) as [nv |] eqn:Hn;
      [injection H as <- | discriminate] end.
    match goal with H : as_key _ = Ok _ |- _ =>
      destruct nv; try discriminate; injection H as <- end.
    match goal with H : infer_resource _ _ _ = Ok _ |- _ =>
      unfold annotate; rewrite Hn, Hr, (infer_resource_Ok _ _ _ _ H) end.
    do 2 step H. destruct_pairs.
    match goal with H : (if ?c then _ else _) _ = _ |- _ => destruct c end.
    + done_step H. reflexivity.
    + step H. discriminate.
Qed.

(** [_is_field] returns only when the resource it had to infer is
    the one resource with the field. *)
Lemma _is_field_resolves :
  forall metadata mapping f b f',
    _is_field metadata mapping f = (Ok b, f') -> resolved metadata f.
Proof.
  intros metadata mapping f b f' H d n -> Hn Hr. unfold _is_field in H.
  step H. unfold dict_has in H. rewrite Hn, Hr in H. cbn [negb] in H.
  step H. do 2 step E. done_step E.
  match goal with H : infer_resource _ _ _ = Ok ?r |- _ =>
    exists r; apply infer_resource_Ok in H end.
  match goal with H : and_then _ _ = Ok _ |- _ =>
    unfold py_getitem in H; rewrite Hn in H; cbn in H; injection H as <- end.
  assumption.
Qed.

Lemma _is_field_geom_annotates :
  forall metadata mapping, annotates metadata (_is_field_geom metadata mapping).
Proof.
  intros metadata mapping f r f' H. unfold _is_field_geom in H. step H.
  apply _is_field_annotates in E. subst s.
  destruct (negb a); [done_step H; reflexivity |].
  do 2 step H. destruct_pairs. done_step H. reflexivity.
Qed.

Lemma _get_field_type_annotates :
  forall metadata mapping, annotates metadata (_get_field_type metadata mapping).
Proof.
  intros metadata mapping f r f' H. unfold _get_field_type in H. step H.
  apply _is_field_annotates in E. subst s.
  destruct (negb a); [done_step H; reflexivity |].
  do 2 step H. destruct_pairs.
  match goal with H : match ?x with _ => _ end _ = _ |- _ => destruct x end;
    done_step H; [reflexivity | discriminate].
Qed.

Lemma _get_field_srid_annotates :
  forall metadata mapping, annotates metadata (_get_field_srid metadata mapping).
Proof.
  intros metadata mapping f r f' H. unfold _get_field_srid in H. step H.
  apply _is_field_geom_annotates in E. subst s.
  destruct (negb a); [done_step H; reflexivity |].
  do 2 step H. destruct_pairs. done_step H. reflexivity.
Qed.

Lemma on_arg_annotates :
  forall metadata A (m : M value A) i args r args',
    annotates metadata m ->
    on_arg i m args = (Ok r, args') -> args' = annotate_at metadata i args.
Proof.
  intros metadata A m i args r args' Hm H. unfold on_arg in H. unfold annotate_at.
  destruct (nth_error args i) as [a |] eqn:Ha; [| discriminate].
  rewrite (nth_error_nth _ _ VNone Ha).
  destruct (m a) as [r0 a'] eqn:Hma. injection H as -> <-.
  rewrite (Hm _ _ _ Hma). reflexivity.
Qed.

Lemma on_arg_is_field :
  forall metadata mapping i args b args',
    on_arg i (_is_field metadata mapping) args = (Ok b, args') ->
    args' = annotate_at metadata i args /\ resolved metadata (nth i args VNone).
Proof.
  intros metadata mapping i args b args' H. unfold on_arg in H. unfold annotate_at.
  destruct (nth_error args i) as [a |] eqn:Ha; [| discriminate].
  rewrite (nth_error_nth _ _ VNone Ha).
  destruct (_is_field metadata mapping a) as [r0 a'] eqn:Hma. injection H as -> <-.
  rewrite (_is_field_annotates _ _ _ _ _ Hma). split; [reflexivity |].
  eapply _is_field_resolves. exact Hma.
Qed.

Lemma on_arg_get :
  forall i args a args',
    on_arg i get args = (Ok a, args') -> args' = args /\ nth_error args i = Some a.
Proof.
  intros i args a args' H. unfold on_arg, get in H.
  destruct (nth_error args i) as [x |] eqn:Hx; [| discriminate].
  injection H as <- <-. split; [| reflexivity].
  revert i Hx. induction args as [| y args IH]; intros [| i] Hx; cbn in *;
    try discriminate.
  - injection Hx as ->. reflexivity.
  - f_equal. apply IH. exact Hx.
Qed.

Lemma aliased_state :
  forall metadata mapping i args a args',
    aliased metadata mapping i args = (Ok a, args') -> args' = args.
Proof.
  intros metadata mapping i args a args' H. unfold aliased in H. step H.
  apply on_arg_get in E. destruct E as [-> _].
  step H. destruct_pairs. done_step H. reflexivity.
Qed.

Lemma aliased_2100_state :
  forall metadata mapping i arg_srid args a args',
    aliased_2100 metadata mapping i arg_srid args = (Ok a, args') -> args' = args.
Proof.
  intros metadata mapping i arg_srid args a args' H. unfold aliased_2100 in H. step H.
  apply aliased_state in E. subst s.
  destruct (negb _); done_step H; reflexivity.
Qed.

Lemma annotate_at_idempotent :
  forall metadata i args,
    annotate_at metadata i (annotate_at metadata i args) = annotate_at metadata i args.
Proof.
  intros metadata i args. unfold annotate_at. revert i.
  induction args as [| a args IH]; intros [| i]; cbn; try reflexivity.
  - rewrite annotate_idempotent. reflexivity.
  - f_equal. apply IH.
Qed.

Lemma field_geom_srid_state :
  forall metadata mapping i args r args',
    field_geom_srid metadata mapping i args = (Ok r, args') ->
    args' = annotate_at metadata i args.
Proof.
  intros metadata mapping i args r args' H. unfold field_geom_srid in H. step H.
  apply (on_arg_annotates metadata) in E; [| apply _is_field_geom_annotates]. subst s.
  destruct a.
  - step H. apply (on_arg_annotates metadata) in E; [| apply _get_field_srid_annotates].
    subst s. done_step H. apply annotate_at_idempotent.
  - done_step H. reflexivity.
Qed.

(** One step through a successful run of a filter, keeping track of the
    arguments. *)
Ltac track metadata H :=
  let E := fresh "E" in
  match type of H with
  | bind (on_arg _ get) _ _ = (Ok _, _) =>
      apply bind_Ok in H; destruct H as (? & ? & E & H);
      apply on_arg_get in E; destruct E as [-> E];
      cbn [annotate_at list_set nth nth_error] in E; try (injection E as <-)
  | bind (on_arg _ (_is_field _ _)) _ _ = (Ok _, _) =>
      apply bind_Ok in H; destruct H as (? & ? & E & H);
      apply on_arg_is_field in E; destruct E as [-> E];
      cbn [annotate_at list_set nth] in E
  | bind (on_arg _ _) _ _ = (Ok _, _) =>
      apply bind_Ok in H; destruct H as (? & ? & E & H);
      apply (on_arg_annotates metadata) in E;
      [ subst
      | first [ exact (_is_field_annotates _ _) | apply _is_field_geom_annotates
              | apply _get_field_type_annotates | apply _get_field_srid_annotates
              | intros ? ? ? ?; eapply _is_field_annotates; eassumption ] ]
  | bind (aliased _ _ _) _ _ = (Ok _, _) =>
      apply bind_Ok in H; destruct H as (? & ? & E & H); apply aliased_state in E; subst
  | bind (aliased_2100 _ _ _ _) _ _ = (Ok _, _) =>
      apply bind_Ok in H; destruct H as (? & ? & E & H); apply aliased_2100_state in E; subst
  | bind (field_geom_srid _ _ _) _ _ = (Ok _, _) =>
      apply bind_Ok in H; destruct H as (? & ? & E & H);
      apply field_geom_srid_state in E; subst
  | bind (if ?b then _ else _) _ _ = (Ok _, _) => destruct b eqn:?
  | bind _ _ _ = (Ok _, _) => step H
  | (if ?b then _ else _) _ = (Ok _, _) => destruct b eqn:?
  | (let (_, _) := ?x in _) _ = (Ok _, _) => destruct x
  | raise _ _ = (Ok _, _) => discriminate H
  | lift (error _) _ = (Ok _, _) => discriminate H
  | ret _ _ = (Ok _, _) => done_step H
  end.

Lemma annotate_token :
  forall env operator token expression metadata,
    spatial_compare_expression env operator token = Ok expression ->
    annotate metadata token = token.
Proof.
  intros env operator token expression metadata H. destruct token; try reflexivity.
  discriminate H.
Qed.

Lemma resolved_token :
  forall env operator token expression metadata,
    spatial_compare_expression env operator token = Ok expression ->
    resolved metadata token.
Proof.
  intros env operator token expression metadata H d n ->. discriminate H.
Qed.

Lemma resolved_checked_number :
  forall metadata v, negb (is_number v) = false -> resolved metadata v.
Proof. intros metadata v H d n ->. discriminate H. Qed.

Lemma annotate_checked_number :
  forall metadata v, negb (is_number v) = false -> annotate metadata v = v.
Proof.
  intros metadata v H. apply annotate_number. destruct (is_number v); [reflexivity |].
  discriminate H.
Qed.

(** The end of a tracked run: the arguments are annotated, and those
    that went through [_is_field] first are resolved. *)
Ltac tracked metadata :=
  cbn [annotate_at list_set nth map]; rewrite ?annotate_idempotent;
  try match goal with
      | Ht : spatial_compare_expression _ _ _ = Ok _,
        Hn : negb (is_number _) = false |- _ =>
          rewrite (annotate_token _ _ _ _ metadata Ht),
            (annotate_checked_number metadata _ Hn)
      end;
  split;
  [ reflexivity
  | repeat constructor;
    first [ assumption
          | eapply resolved_token; eassumption
          | eapply resolved_checked_number; eassumption ] ].

(** A comparison filter that compiles leaves both arguments annotated. *)
Lemma _create_filter_compare_annotates :
  forall env metadata mapping operator expression args t args',
    _create_filter_compare env metadata mapping operator expression args = (Ok t, args') ->
    args' = map (annotate metadata) args /\ Forall (resolved metadata) args.
Proof.
  intros env metadata mapping operator expression args t args' H.
  unfold _create_filter_compare in H. step H.
  destruct args as [| a0 [| a1 [| a2 rest]]]; cbn [List.length Nat.eqb negb] in H;
    try discriminate H.
  repeat track metadata H; tracked metadata.
Qed.

(** An [AREA] filter that compiles leaves its first argument annotated;
    the other two are a token and a number. *)
Lemma _create_filter_spatial_area_annotates :
  forall env metadata mapping operator a0 a1 a2 t args',
    _create_filter_spatial_area env metadata mapping operator [a0; a1; a2] = (Ok t, args') ->
    args' = map (annotate metadata) [a0; a1; a2]
    /\ Forall (resolved metadata) [a0; a1; a2].
Proof.
  intros env metadata mapping operator a0 a1 a2 t args' H.
  unfold _create_filter_spatial_area in H.
  repeat track metadata H; tracked metadata.
Qed.

Lemma _create_filter_spatial_distance_annotates :
  forall env metadata mapping operator a0 a1 a2 a3 t args',
    _create_filter_spatial_distance env metadata mapping operator [a0; a1; a2; a3]
    = (Ok t, args') ->
    args' = map (annotate metadata) [a0; a1; a2; a3]
    /\ Forall (resolved metadata) [a0; a1; a2; a3].
Proof.
  intros env metadata mapping operator a0 a1 a2 a3 t args' H.
  unfold _create_filter_spatial_distance in H.
  repeat track metadata H; tracked metadata.
Qed.

Lemma _create_filter_spatial_relation_annotates :
  forall metadata mapping operator spatial_operator a0 a1 t args',
    _create_filter_spatial_relation metadata mapping operator spatial_operator [a0; a1]
    = (Ok t, args') ->
    args' = map (annotate metadata) [a0; a1] /\ Forall (resolved metadata) [a0; a1].
Proof.
  intros metadata mapping operator spatial_operator a0 a1 t args' H.
  unfold _create_filter_spatial_relation in H.
  repeat track metadata H; tracked metadata.
Qed.

Lemma _create_filter_spatial_annotates :
  forall env metadata mapping operator args t args',
    _create_filter_spatial env metadata mapping operator args = (Ok (Some t), args') ->
    args' = map (annotate metadata) args /\ Forall (resolved metadata) args.
Proof.
  intros env metadata mapping operator args t args' H.
  unfold _create_filter_spatial in H. step H.
  destruct (String.eqb operator OP_AREA).
  { destruct args as [| a0 [| a1 [| a2 [| a3 rest]]]]; cbn [List.length Nat.eqb negb] in H;
      try discriminate H.
    step H. apply ret_Ok in H. destruct H as [_ ->].
    eapply _create_filter_spatial_area_annotates; eauto. }
  destruct (String.eqb operator OP_DISTANCE).
  { destruct args as [| a0 [| a1 [| a2 [| a3 [| a4 rest]]]]];
      cbn [List.length Nat.eqb negb] in H; try discriminate H.
    step H. apply ret_Ok in H. destruct H as [_ ->].
    eapply _create_filter_spatial_distance_annotates; eauto. }
  destruct (String.eqb operator OP_CONTAINS).
  { destruct args as [| a0 [| a1 [| a2 rest]]]; cbn [List.length Nat.eqb negb] in H;
      try discriminate H.
    step H. apply ret_Ok in H. destruct H as [_ ->].
    eapply _create_filter_spatial_relation_annotates; eauto. }
  destruct (String.eqb operator OP_INTERSECTS).
  { destruct args as [| a0 [| a1 [| a2 rest]]]; cbn [List.length Nat.eqb negb] in H;
      try discriminate H.
    step H. apply ret_Ok in H. destruct H as [_ ->].
    eapply _create_filter_spatial_relation_annotates; eauto. }
  apply ret_Ok in H. destruct H as [H _]. discriminate H.
Qed.

Lemma except_ValueError_Ok :
  forall S A (m : M S A) e s a s',
    except_ValueError m e s = (Ok a, s') -> m s = (Ok a, s').
Proof.
  intros S A m e s a s' H. unfold except_ValueError in H.
  destruct (m s) as [[x | [msg inner | []]] s1]; try exact H; discriminate H.
Qed.

Lemma zoom_Ok :
  forall S T A (proj : S -> T) (upd : T -> S -> S) (m : M T A) s a s',
    zoom proj upd m s = (Ok a, s') ->
    exists t, m (proj s) = (Ok a, t) /\ s' = upd t s.
Proof.
  intros S T A proj upd m s a s' H. unfold zoom in H.
  destruct (m (proj s)) as [r t]. injection H as -> <-. eauto.
Qed.

Lemma all_operators :
  forall s,
    str_in s ALL_OPERATORS = str_in s COMPARE_OPERATORS || str_in s SPATIAL_OPERATORS.
Proof.
  intros s. unfold str_in.
  change ALL_OPERATORS with (COMPARE_OPERATORS ++ SPATIAL_OPERATORS)%list.
  apply existsb_app.
Qed.

Lemma _create_filter_spatial_Some :
  forall env metadata mapping operator args t args',
    str_in operator SPATIAL_OPERATORS = true ->
    _create_filter_spatial env metadata mapping operator args = (Ok t, args') ->
    exists tuple, t = Some tuple.
Proof.
  intros env metadata mapping operator args t args' Hop H.
  unfold _create_filter_spatial in H. step H.
  unfold str_in, SPATIAL_OPERATORS in Hop. cbn [existsb] in Hop.
  destruct (String.eqb operator OP_AREA);
    [destruct (negb _); [discriminate H |];
     step H; apply ret_Ok in H; destruct H as [-> _]; eauto |].
  destruct (String.eqb operator OP_DISTANCE);
    [destruct (negb _); [discriminate H |];
     step H; apply ret_Ok in H; destruct H as [-> _]; eauto |].
  destruct (String.eqb operator OP_CONTAINS);
    [destruct (negb _); [discriminate H |];
     step H; apply ret_Ok in H; destruct H as [-> _]; eauto |].
  destruct (String.eqb operator OP_INTERSECTS);
    [destruct (negb _); [discriminate H |];
     step H; apply ret_Ok in H; destruct H as [-> _]; eauto |].
  discriminate Hop.
Qed.

(** A filter that compiles yields a where fragment, and is left with
    its arguments annotated. *)
Lemma _create_filter_annotates :
  forall env metadata mapping f t f',
    _create_filter env metadata mapping f = (Ok t, f') ->
    f' = annotate_filter metadata f
    /\ resolved_filter metadata f
    /\ exists tuple, t = Some tuple.
Proof.
  intros env metadata mapping f t f' H. unfold _create_filter in H. step H.
  destruct f as [| | | | | | d |]; try discriminate H.
  destruct (dict_get "operator" d) as [op |]; [| discriminate H].
  destruct (value_in op ALL_OPERATORS) eqn:Hop; cbn [negb] in H; [| discriminate H].
  destruct op as [| | | | operator | | |]; try discriminate Hop.
  cbn [value_in py_str] in Hop, H. rewrite all_operators in Hop.
  destruct (dict_get "arguments" d) as [[| | | | | [| a rest] | |] |] eqn:Hargs;
    try discriminate H.
  apply except_ValueError_Ok, zoom_Ok in H. destruct H as (args' & H & ->).
  assert (Hgoal : args' = map (annotate metadata) (a :: rest)
                  /\ Forall (resolved metadata) (a :: rest)
                  /\ exists tuple, t = Some tuple).
  { destruct (str_in operator COMPARE_OPERATORS).
    - step H. apply ret_Ok in H. destruct H as [-> ->].
      destruct (_create_filter_compare_annotates _ _ _ _ _ _ _ _ E). eauto.
    - cbn [orb] in Hop. rewrite Hop in H.
      destruct (_create_filter_spatial_Some _ _ _ _ _ _ _ Hop H) as [tuple ->].
      destruct (_create_filter_spatial_annotates _ _ _ _ _ _ _ H). eauto. }
  destruct Hgoal as (-> & Hres & Ht). repeat split.
  - unfold annotate_filter. rewrite Hargs. reflexivity.
  - intros d0 args0 Hd Ha. injection Hd as <-. rewrite Hargs in Ha.
    injection Ha as <-. exact Hres.
  - exact Ht.
Qed.

Lemma list_set_middle :
  forall A (l : list A) a x l', list_set (List.length l) x (l ++ a :: l') = (l ++ x :: l')%list.
Proof.
  intros A l a x l'. induction l as [| y l IH]; cbn; [reflexivity | now rewrite IH].
Qed.

Lemma query_filters_with_filter :
  forall i f d,
    query_filters (with_filter i f (VDict d)) = list_set i f (query_filters (VDict d)).
Proof.
  intros i f d. unfold with_filter. generalize (list_set i f (query_filters (VDict d))).
  intros l. unfold query_filters, py_getitem. rewrite dict_get_set_same. reflexivity.
Qed.

(** The filter loop, with the filters before position [length done]
    compiled and those of [todo] still to compile. *)
Lemma get_filters_loop :
  forall env rs todo done acc s r s' d,
    query s = VDict d ->
    query_filters (query s) = (done ++ todo)%list ->
    fold_m
      (fun parsed i =>
         t <- on_filter i (_create_filter env (query_metadata rs) (resource_mapping rs)) ;;
         ret (parsed ++ [t])%list)
      (seq (List.length done) (List.length todo)) acc s = (Ok r, s') ->
    (exists d', query s' = VDict d')
    /\ query_filters (query s')
       = (done ++ map (annotate_filter (query_metadata rs)) todo)%list
    /\ Forall (resolved_filter (query_metadata rs)) todo.
Proof.
  intros env rs todo. induction todo as [| f rest IH]; intros done acc s r s' d Hq Hl H.
  - cbn in H. done_step H. cbn. rewrite Hl. eauto.
  - cbn [List.length seq fold_m] in H. step H. step E.
    apply ret_Ok in E. destruct E as [-> ->].
    unfold on_filter in E0. apply zoom_Ok in E0. destruct E0 as (f' & Hf & ->).
    rewrite Hl, nth_middle in Hf.
    apply _create_filter_annotates in Hf. destruct Hf as (-> & Hres & _).
    rewrite Hq in H.
    assert (Hl' : query_filters
                    (query (set_query
                              (with_filter (List.length done)
                                 (annotate_filter (query_metadata rs) f) (VDict d)) s))
                  = ((done ++ [annotate_filter (query_metadata rs) f]) ++ rest)%list).
    { cbn [query set_query]. rewrite query_filters_with_filter.
      rewrite <- Hq, Hl, list_set_middle, <- app_assoc. reflexivity. }
    replace (S (List.length done))
      with (List.length (done ++ [annotate_filter (query_metadata rs) f])) in H
      by (rewrite length_app; cbn; lia).
    assert (Hq' : exists d1,
               query (set_query
                        (with_filter (List.length done)
                           (annotate_filter (query_metadata rs) f) (VDict d)) s)
               = VDict d1).
    { eexists. reflexivity. }
    destruct Hq' as [d1 Hq'].
    destruct (IH _ _ _ _ _ _ Hq' Hl' H) as (Hd' & Hfs & Hall).
    split; [exact Hd' |]. split.
    + rewrite Hfs, <- app_assoc. reflexivity.
    + constructor; assumption.
Qed.

Lemma get_filters_annotates :
  forall env rs s filters s',
    get_filters env rs s = (Ok filters, s') ->
    query_filters (query s')
    = map (annotate_filter (query_metadata rs)) (query_filters (query s))
    /\ Forall (resolved_filter (query_metadata rs)) (query_filters (query s)).
Proof.
  intros env rs s filters s' H. unfold get_filters in H. do 2 step H.
  unfold py_in in E. destruct (query s) as [| | | | | | d |] eqn:Hq; try discriminate E.
  - injection E as <-. unfold query_filters, py_getitem.
    destruct (negb _); [done_step H; rewrite Hq; split; [reflexivity | constructor] |].
    step H. discriminate E.
  - injection E as <-. unfold query_filters, py_getitem.
    destruct (negb _); [done_step H; rewrite Hq; split; [reflexivity | constructor] |].
    step H. discriminate E.
  - injection E as <-. unfold dict_has in H.
    destruct (dict_get "filters" d) as [fs |] eqn:Hfs; cbn [negb] in H.
    + step H. unfold py_getitem in E. rewrite Hfs in E. injection E as <-.
      destruct fs as [| | | | | l | |]; try discriminate H.
      assert (Hl : query_filters (query s) = ([] ++ l)%list).
      { rewrite Hq. unfold query_filters, py_getitem. rewrite Hfs. reflexivity. }
      change (seq 0 (List.length l)) with (seq (List.length (@nil value)) (List.length l))
        in H.
      destruct (get_filters_loop _ _ _ _ _ _ _ _ _ Hq Hl H) as (_ & Hafter & Hall).
      assert (Hl0 : query_filters (VDict d) = l).
      { unfold query_filters, py_getitem. rewrite Hfs. reflexivity. }
      rewrite Hl0. split; [exact Hafter | exact Hall].
    + done_step H. rewrite Hq. unfold query_filters, py_getitem. rewrite Hfs.
      split; [reflexivity | constructor].
Qed.

Lemma same_query_refl : forall c, same_query c c.
Proof. intros c. reflexivity. Qed.

Lemma same_query_trans : forall a b c, same_query a b -> same_query b c -> same_query a c.
Proof. unfold same_query. intros a b c H1 H2. congruence. Qed.

Lemma first_reference_same_query :
  forall env name db s,
    dict_get name (resources s) = Some db ->
    same_query s (snd (first_reference env name db s)).
Proof.
  intros env name db s _.
  unfold first_reference, bind, get, set_resource, describeResource, modify, lift, ret.
  cbn. destruct (describe_columns name (table_columns env name) [] None None); reflexivity.
Qed.

(** Resolution does not write into the query. *)
Lemma get_resources_same_query : forall env, respects same_query (get_resources env).
Proof.
  exact (get_resources_respects same_query same_query_refl same_query_trans
           first_reference_same_query).
Qed.

Lemma same_key_refl : forall k c, same_key k c c.
Proof. intros k c. reflexivity. Qed.

Lemma same_key_trans :
  forall k a b c, same_key k a b -> same_key k b c -> same_key k a c.
Proof. unfold same_key. intros k a b c H1 H2. congruence. Qed.

Lemma same_key_with_filter :
  forall i f c, same_key "fields" c (set_query (with_filter i f (query c)) c).
Proof.
  intros i f c. unfold same_key. cbn [query set_query].
  destruct (query c) as [| | | | | | d |]; try reflexivity.
  unfold with_filter, py_getitem. rewrite dict_get_set_other by discriminate. reflexivity.
Qed.

(** The filter loop does not write under [fields]. *)
Lemma get_filters_same_fields :
  forall env rs, respects (same_key "fields") (get_filters env rs).
Proof.
  exact (get_filters_respects (same_key "fields") (same_key_refl "fields")
           (same_key_trans "fields") same_key_with_filter).
Qed.

Lemma annotate_resolved :
  forall metadata d n,
    resolved metadata (VDict d) ->
    dict_get "name" d = Some (VStr n) ->
    dict_get "resource" d = None ->
    exists r,
      _get_resources_by_field_name metadata n = [r]
      /\ annotate metadata (VDict d) = VDict (dict_set "resource" (VStr r) d).
Proof.
  intros metadata d n Hres Hn Hr. destruct (Hres d n eq_refl Hn Hr) as [r Hl].
  exists r. split; [exact Hl |]. unfold annotate. rewrite Hn, Hr, Hl. reflexivity.
Qed.

(** What [query['fields'] = [...]] leaves in the query. *)
Lemma expand_fields_Ok :
  forall env qm s u s',
    expand_fields env qm s = (Ok u, s') ->
    py_getitem (query s') "fields" = Ok (VList (all_fields env qm))
    /\ query_filters (query s') = query_filters (query s).
Proof.
  intros env qm s u s' H. unfold expand_fields in H. do 2 step H.
  unfold modify in H. injection H as _ <-. cbn [query set_query].
  unfold py_setitem in E. destruct (query s) as [| | | | | | d |]; try discriminate E.
  injection E as <-. unfold query_filters, py_getitem.
  rewrite dict_get_set_same, dict_get_set_other by discriminate. auto.
Qed.

Lemma add_all_fields_true :
  forall q l, add_all_fields q = Ok true -> py_getitem q "fields" = Ok (VList l) -> l = [].
Proof.
  intros q l H Hl. unfold add_all_fields in H. step H.
  destruct a; cbn [negb] in H.
  - rewrite Hl in H. cbn in H. destruct l; [reflexivity | discriminate H].
  - unfold py_in, py_getitem in *. destruct q; try discriminate.
    unfold dict_has in E. destruct (dict_get "fields" items); discriminate.
Qed.

Lemma flat_map_permutation :
  forall A B (f g : A -> list B) l l',
    Permutation l l' ->
    (forall x, Permutation (f x) (g x)) ->
    Permutation (flat_map f l) (flat_map g l').
Proof.
  intros A B f g l l' Hl Hfg.
  apply Permutation_trans with (flat_map g l); [| apply Permutation_flat_map; exact Hl].
  clear Hl. induction l as [| x l IH]; cbn; [constructor |].
  apply Permutation_app; [apply Hfg | exact IH].
Qed.

(** Iteration visits the entries of the dict, in some order. *)
Lemma iterate_permutation :
  forall V env (d : dict V),
    reorders (dict_order env) ->
    Permutation (iterate env d) (entries_at d (nodup string_dec (dict_keys d))).
Proof.
  intros V env d Horder. unfold iterate, entries_at.
  apply Permutation_flat_map, Horder, NoDup_nodup.
Qed.

Lemma all_fields_permutation :
  forall env query_metadata,
    reorders (dict_order env) ->
    Permutation (all_fields env query_metadata) (every_field query_metadata).
Proof.
  intros env qm Horder. unfold all_fields, every_field.
  apply flat_map_permutation; [apply iterate_permutation; exact Horder |].
  intros [resource d]. apply Permutation_map, iterate_permutation. exact Horder.
Qed.

(** C10: a compilation that succeeds writes into the query object.
    When [fields] is absent or empty, the key [fields] of the query holds
    the expanded list of all fields afterwards: one entry per resource of
    the query and field of the resource, in the order in which Python
    iterates the two dicts, whatever that order is (and the query differs
    from what it was as soon as that list has an entry).  The filters of the
    query are the filters it had with their arguments annotated: every
    argument that is a field reference without [resource] has got the
    inferred resource, the one resource of the query that has the field,
    under its [resource] key. *)
Theorem compilation_writes_into_query :
  forall env ctx c ctx',
    reorders (dict_order env) ->
    compile_query env ctx = (Ok c, ctx') ->
    exists rs s,
      get_resources env ctx = (Ok rs, s)
      /\ (add_all_fields (query ctx) = Ok true ->
          exists fields,
            py_getitem (query ctx') "fields" = Ok (VList fields)
            /\ Permutation fields (every_field (query_metadata rs))
            /\ (fields <> [] -> query ctx' <> query ctx))
      /\ query_filters (query ctx')
         = map (annotate_filter (query_metadata rs)) (query_filters (query ctx))
      /\ (forall i fd args j ad n,
            nth_error (query_filters (query ctx)) i = Some (VDict fd) ->
            dict_get "arguments" fd = Some (VList args) ->
            nth_error args j = Some (VDict ad) ->
            dict_get "name" ad = Some (VStr n) ->
            dict_get "resource" ad = None ->
            exists r args',
              _get_resources_by_field_name (query_metadata rs) n = [r]
              /\ nth_error (query_filters (query ctx')) i
                 = Some (VDict (dict_set "arguments" (VList args') fd))
              /\ nth_error args' j = Some (VDict (dict_set "resource" (VStr r) ad))).
Proof.
  intros env ctx c ctx' Horder H.
  destruct (compile_query_Ok _ _ _ _ H)
    as (L & O & rs & s & b & s0 & filters & wheres & sort & _ & _ & Hres & Hadd & Hexp
        & _ & _ & Hfilters & _).
  exists rs, s. split; [exact Hres |].
  pose proof (get_resources_same_query env ctx) as Hsame. rewrite Hres in Hsame.
  unfold same_query in Hsame. cbn in Hsame. rewrite Hsame in Hadd.
  pose proof (get_filters_same_fields env rs s0) as Hkey. rewrite Hfilters in Hkey.
  unfold same_key in Hkey. cbn in Hkey.
  destruct (get_filters_annotates _ _ _ _ _ Hfilters) as [Hann Hall].
  assert (H0 : query_filters (query s0) = query_filters (query ctx)
               /\ (b = true ->
                   py_getitem (query s0) "fields"
                   = Ok (VList (all_fields env (query_metadata rs))))).
  { destruct b.
    - destruct (expand_fields_Ok _ _ _ _ _ Hexp) as [Hf Hq]. rewrite Hq, Hsame. auto.
    - apply ret_Ok in Hexp. destruct Hexp as [_ ->]. rewrite Hsame.
      split; [reflexivity | discriminate]. }
  destruct H0 as [Hq0 Hf0]. rewrite Hq0 in Hann, Hall. split; [| split].
  - intros Htrue. assert (Hb : b = true) by congruence.
    exists (all_fields env (query_metadata rs)). split; [| split].
    + rewrite Hkey. exact (Hf0 Hb).
    + apply all_fields_permutation. exact Horder.
    + intros Hne Heq. apply Hne.
      eapply add_all_fields_true; [exact Htrue |].
      rewrite <- Heq, Hkey. exact (Hf0 Hb).
  - exact Hann.
  - intros i fd args j ad n Hi Hargs Hj Hn Hr.
    assert (Hrf : resolved_filter (query_metadata rs) (VDict fd)).
    { rewrite Forall_forall in Hall. apply Hall. eapply nth_error_In. exact Hi. }
    pose proof (Hrf fd args eq_refl Hargs) as Hrs.
    assert (Hra : resolved (query_metadata rs) (VDict ad)).
    { rewrite Forall_forall in Hrs. apply Hrs. eapply nth_error_In. exact Hj. }
    destruct (annotate_resolved _ _ _ Hra Hn Hr) as (r & Hl & Ha).
    exists r, (map (annotate (query_metadata rs)) args). repeat split.
    + exact Hl.
    + rewrite Hann. rewrite nth_error_map, Hi. cbn. rewrite Hargs. reflexivity.
    + rewrite nth_error_map, Hj. cbn [option_map]. rewrite Ha. reflexivity.
Qed.

(** The query [{"resources": ["roads"], "filters": [{"operator":
    "EQUAL", "arguments": [{"name": "name"}, 7]}]}] on the sample catalog. *)
Lemma compilation_writes_into_query_witness :
  exists c ctx',
    compile_query Sample.env (Sample.context Sample.name_is_seven) = (Ok c, ctx')
    /\ exists rs s,
        get_resources Sample.env (Sample.context Sample.name_is_seven) = (Ok rs, s)
        /\ (add_all_fields (query (Sample.context Sample.name_is_seven)) = Ok true ->
            exists fields,
              py_getitem (query ctx') "fields" = Ok (VList fields)
              /\ Permutation fields (every_field (query_metadata rs))
              /\ (fields <> [] ->
                  query ctx' <> query (Sample.context Sample.name_is_seven)))
        /\ query_filters (query ctx')
           = map (annotate_filter (query_metadata rs))
               (query_filters (query (Sample.context Sample.name_is_seven)))
        /\ (forall i fd args j ad n,
              nth_error (query_filters (query (Sample.context Sample.name_is_seven))) i
              = Some (VDict fd) ->
              dict_get "arguments" fd = Some (VList args) ->
              nth_error args j = Some (VDict ad) ->
              dict_get "name" ad = Some (VStr n) ->
              dict_get "resource" ad = None ->
              exists r args',
                _get_resources_by_field_name (query_metadata rs) n = [r]
                /\ nth_error (query_filters (query ctx')) i
                   = Some (VDict (dict_set "arguments" (VList args') fd))
                /\ nth_error args' j = Some (VDict (dict_set "resource" (VStr r) ad))).
Proof.
  destruct (compile_query Sample.env (Sample.context Sample.name_is_seven))
    as [[c | e] ctx'] eqn:E; [| vm_compute in E; discriminate E].
  exists c, ctx'. split; [reflexivity |].
  apply (compilation_writes_into_query Sample.env
           (Sample.context Sample.name_is_seven) c ctx'); [| exact E].
  intros keys _. apply Permutation_refl.
Defined.

(** The same query after a batch: the projection and the resource of
    the filter argument are in the caller's document. *)
Example name_is_seven_after :
  request_after (execute Sample.env [] Sample.config
                   (Sample.request Sample.name_is_seven) None)
  = Sample.request
      (VDict [("resources", VList [VStr "roads"]);
              ("filters",
               VList [VDict [("operator", VStr OP_EQ);
                             ("arguments",
                              VList [VDict [("name", VStr "name");
                                            ("resource", VStr "roads")];
                                     VInt 7])]]);
              ("fields",
               VList [VDict [("resource", VStr "roads"); ("name", VStr "geom")];
                      VDict [("resource", VStr "roads"); ("name", VStr "name")]])]).
Proof. vm_compute. reflexivity. Qed.

(** * Further properties of the code *)

(** ** The catalog resolver *)

Lemma describe_columns_after_geometry :
  forall id rows result s g,
    describe_columns id rows result (Some s) g
    = match geometry_rows rows with
      | [] => Ok {| d_fields := fields_of rows result; d_srid := Some s;
                    d_geometry_column := g |}
      | _ :: _ => error ("More than 1 geometry columns found in resource " ++ id)
      end.
Proof.
  intros id rows. unfold geometry_rows, fields_of, visible.
  induction rows as [| c rows IH]; intros result s g; cbn; [reflexivity |].
  destruct (String.prefix "_" (col_name c)); cbn; [apply IH |].
  destruct (col_srid c); cbn; [reflexivity | apply IH].
Qed.

Lemma describe_columns_before_geometry :
  forall id rows result,
    describe_columns id rows result None None
    = match geometry_rows rows with
      | [] | [_] =>
          Ok {| d_fields := fields_of rows result;
                d_srid := d_srid (description_of rows);
                d_geometry_column := d_geometry_column (description_of rows) |}
      | _ :: _ :: _ => error ("More than 1 geometry columns found in resource " ++ id)
      end.
Proof.
  intros id rows. unfold description_of. unfold geometry_rows, fields_of, visible.
  induction rows as [| c rows IH]; intros result; cbn; [reflexivity |].
  destruct (String.prefix "_" (col_name c)); cbn; [apply IH |].
  destruct (col_srid c) as [s |] eqn:Hs; cbn; [| apply IH].
  rewrite describe_columns_after_geometry. unfold geometry_rows, fields_of, visible.
  destruct (filter _ rows); rewrite ?Hs; reflexivity.
Qed.

Lemma describe_columns_result :
  forall id rows,
    describe_columns id rows [] None None
    = if (List.length (geometry_rows rows) <=? 1)%nat then Ok (description_of rows)
      else error ("More than 1 geometry columns found in resource " ++ id).
Proof.
  intros id rows. rewrite describe_columns_before_geometry.
  destruct (geometry_rows rows) as [| c [| c' l]] eqn:E; cbn; try reflexivity.
Qed.

(** X1: [describeResource] sends one introspection statement and changes
    nothing else.  It returns exactly when at most one of the columns it
    keeps (the name does not start with an underscore) has an srid: then
    it returns the fields of the kept columns, keyed by name, and the name
    and srid of that geometry column, [None] for both when there is none.
    With two or more it raises "More than 1 geometry columns found in
    resource ...". *)
Theorem describeResource_result :
  forall env id c,
    describeResource env id c
    = (if (List.length (geometry_rows (table_columns env id)) <=? 1)%nat
       then Ok (description_of (table_columns env id))
       else error ("More than 1 geometry columns found in resource " ++ id),
       send (Introspect id) c).
Proof.
  intros env id c. unfold describeResource, bind, modify, lift.
  rewrite describe_columns_result. reflexivity.
Qed.

Lemma dict_has_set :
  forall V k k' (v : V) d,
    dict_has k (dict_set k' v d) = String.eqb k k' || dict_has k d.
Proof.
  intros V k k' v d. unfold dict_has. destruct (String.eqb_spec k k') as [<- | Hne].
  - rewrite dict_get_set_same. reflexivity.
  - rewrite dict_get_set_other by exact Hne. reflexivity.
Qed.

(** Every entry of a dict satisfies [P]. *)
Lemma dict_set_all :
  forall V (P : string -> V -> Prop) k v d,
    P k v ->
    (forall k0 v0, dict_get k0 d = Some v0 -> P k0 v0) ->
    forall k0 v0, dict_get k0 (dict_set k v d) = Some v0 -> P k0 v0.
Proof.
  intros V P k v d Hk Hd k0 v0 H. destruct (String.eqb_spec k0 k) as [-> | Hne].
  - rewrite dict_get_set_same in H. injection H as <-. exact Hk.
  - rewrite dict_get_set_other in H by exact Hne. apply Hd. exact H.
Qed.

Lemma fields_of_entries :
  forall rows result,
    (forall k f, dict_get k result = Some f ->
                 f_name f = k /\ String.prefix "_" k = false) ->
    forall k f, dict_get k (fields_of rows result) = Some f ->
                f_name f = k /\ String.prefix "_" k = false.
Proof.
  intros rows. unfold fields_of, visible.
  induction rows as [| c rows IH]; intros result Hres; cbn; [exact Hres |].
  destruct (String.prefix "_" (col_name c)) eqn:Hc; cbn; [apply IH; exact Hres |].
  apply IH. apply dict_set_all; [split; [reflexivity | exact Hc] | exact Hres].
Qed.

Lemma fields_of_keeps :
  forall rows result k, dict_has k result = true -> dict_has k (fields_of rows result) = true.
Proof.
  intros rows. unfold fields_of.
  induction (filter visible rows) as [| c l IH]; intros result k H; cbn; [exact H |].
  apply IH. rewrite dict_has_set, H. apply orb_true_r.
Qed.

Lemma fields_of_has :
  forall rows result c,
    In c rows -> visible c = true -> dict_has (col_name c) (fields_of rows result) = true.
Proof.
  intros rows. induction rows as [| c0 rows IH]; intros result c Hin Hv; [destruct Hin |].
  unfold fields_of. cbn [filter]. destruct Hin as [-> | Hin].
  - rewrite Hv. cbn [fold_left]. apply (fields_of_keeps rows).
    rewrite dict_has_set, String.eqb_refl. reflexivity.
  - destruct (visible c0); [cbn [fold_left] |]; apply (IH _ c Hin Hv).
Qed.

Lemma describe_columns_invariants :
  forall id rows d,
    describe_columns id rows [] None None = Ok d ->
    (forall k f, dict_get k (d_fields d) = Some f ->
                 f_name f = k /\ String.prefix "_" k = false)
    /\ (forall g, d_geometry_column d = Some g ->
                  dict_has g (d_fields d) = true /\ d_srid d <> None)
    /\ (d_geometry_column d = None -> d_srid d = None).
Proof.
  intros id rows d H. rewrite describe_columns_result in H.
  destruct (List.length (geometry_rows rows) <=? 1)%nat; [| discriminate H].
  injection H as <-. unfold description_of. cbn. repeat split.
  - eapply fields_of_entries; [| eassumption]. intros k0 f0 H0. discriminate H0.
  - eapply fields_of_entries; [| eassumption]. intros k0 f0 H0. discriminate H0.
  - destruct (geometry_rows rows) as [| c l] eqn:E; [discriminate |].
    injection H as <-.
    assert (Hin : In c (geometry_rows rows)) by (rewrite E; left; reflexivity).
    unfold geometry_rows in Hin. apply filter_In in Hin. destruct Hin as [Hin Hc].
    apply andb_true_iff in Hc. apply fields_of_has; tauto.
  - destruct (geometry_rows rows) as [| c l] eqn:E; [discriminate |].
    assert (Hin : In c (geometry_rows rows)) by (rewrite E; left; reflexivity).
    unfold geometry_rows in Hin. apply filter_In in Hin. destruct Hin as [_ Hc].
    apply andb_true_iff in Hc. destruct (col_srid c); [discriminate | destruct Hc; discriminate].
  - destruct (geometry_rows rows); [reflexivity | discriminate].
Qed.

(** X2: in what [describeResource] returns, every field is filed under
    its own name, no field name starts with an underscore, the geometry
    column (when there is one) is one of the fields and has an srid, and
    without a geometry column there is no srid. *)
Theorem describeResource_invariants :
  forall env id c d c',
    describeResource env id c = (Ok d, c') ->
    (forall k f, dict_get k (d_fields d) = Some f ->
                 f_name f = k /\ String.prefix "_" k = false)
    /\ (forall g, d_geometry_column d = Some g ->
                  dict_has g (d_fields d) = true /\ d_srid d <> None)
    /\ (d_geometry_column d = None -> d_srid d = None).
Proof.
  intros env id c d c' H. unfold describeResource, bind, modify, lift in H.
  injection H as H _. exact (describe_columns_invariants _ _ _ H).
Qed.

(** The table [roads] of the sample catalog. *)
Lemma describeResource_invariants_witness :
  exists d c',
    describeResource Sample.env "roads" (Sample.context VNone) = (Ok d, c')
    /\ (forall k f, dict_get k (d_fields d) = Some f ->
                    f_name f = k /\ String.prefix "_" k = false)
    /\ (forall g, d_geometry_column d = Some g ->
                  dict_has g (d_fields d) = true /\ d_srid d <> None)
    /\ (d_geometry_column d = None -> d_srid d = None).
Proof.
  do 2 eexists. split; [reflexivity |].
  exact (describeResource_invariants Sample.env "roads" (Sample.context VNone) _ _ eq_refl).
Defined.

Lemma find_last :
  forall A (p : A -> bool) l x,
    find p (l ++ [x])%list
    = match find p l with
      | Some y => Some y
      | None => if p x then Some x else None
      end.
Proof.
  intros A p l x. induction l as [| y l IH]; cbn; [reflexivity |].
  destruct (p y); [reflexivity | exact IH].
Qed.

Lemma getResources_loop :
  forall rows result k,
    dict_get k (fold_left
                  (fun result resource =>
                     dict_set (db_resource_id resource) (entry_of_row resource) result)
                  rows result)
    = match find (fun row => String.eqb k (db_resource_id row)) (rev rows) with
      | Some row => Some (entry_of_row row)
      | None => dict_get k result
      end.
Proof.
  intros rows. induction rows as [| row rows IH]; intros result k; cbn; [reflexivity |].
  rewrite IH, find_last.
  destruct (find _ (rev rows)); [reflexivity |].
  destruct (String.eqb_spec k (db_resource_id row)) as [-> | Hne].
  - apply dict_get_set_same.
  - apply dict_get_set_other. exact Hne.
Qed.

(** X3: [getResources] files every catalog row under its
    [db_resource_id]; when several rows have the same id (a data table
    with more than one WMS layer or package revision joined to it), the
    entry is the one of the last such row.  An entry carries the eight
    catalog attributes of its row, its table is its key, and it has no alias
    and no description yet. *)
Theorem getResources_lookup :
  forall env k,
    dict_get k (getResources env)
    = option_map entry_of_row
        (find (fun row => String.eqb k (db_resource_id row)) (rev (catalog_rows env)))
    /\ forall r, dict_get k (getResources env) = Some r ->
                 table (stub r) = k /\ r_alias r = None /\ r_description r = None.
Proof.
  intros env k.
  assert (H : dict_get k (getResources env)
              = option_map entry_of_row
                  (find (fun row => String.eqb k (db_resource_id row))
                     (rev (catalog_rows env)))); [| split; [exact H |]].
  2: { intros r Hr. rewrite H in Hr.
       destruct (find _ _) as [row |] eqn:E; [| discriminate Hr].
       injection Hr as <-. apply find_some in E. destruct E as [_ E].
       apply String.eqb_eq in E. cbn. auto. }
  unfold getResources. fold entry_of_row.
  change (fun result resource =>
            dict_set (db_resource_id resource)
              {| stub := stub_of_row resource; r_alias := None; r_description := None |}
              result)
    with (fun result resource =>
            dict_set (db_resource_id resource) (entry_of_row resource) result).
  rewrite getResources_loop. destruct (find _ _); reflexivity.
Qed.

(** ** The metadata cache *)

Lemma numbered_app :
  forall a b n, numbered n a -> numbered (n + List.length a) b -> numbered n (a ++ b)%list.
Proof.
  intros a. induction a as [| [k d] a IH]; intros b n Ha Hb; cbn in *.
  - rewrite Nat.add_0_r in Hb. exact Hb.
  - destruct Ha as [Hd Ha]. split; [exact Hd |]. apply IH; [exact Ha |].
    rewrite Nat.add_succ_comm. exact Hb.
Qed.

Lemma grows_refl : forall c, grows c c.
Proof. intros c. exists []. split; [now rewrite app_nil_r | exact I]. Qed.

Lemma grows_trans : forall a b c, grows a b -> grows b c -> grows a c.
Proof.
  intros a b c [l1 [E1 N1]] [l2 [E2 N2]]. exists (l1 ++ l2)%list. split.
  - rewrite E2, E1, app_assoc. reflexivity.
  - apply numbered_app; [exact N1 |]. rewrite E1, length_app in N2. exact N2.
Qed.

Lemma grows_same : forall c c', metadata c' = metadata c -> grows c c'.
Proof. intros c c' H. exists []. split; [now rewrite app_nil_r | exact I]. Qed.

(** The first reference to a resource that the cache does not have
    appends its descriptor, under the next alias. *)
Lemma first_reference_grows :
  forall env name db s,
    dict_get name (metadata s) = None ->
    grows s (snd (first_reference env name db s)).
Proof.
  intros env name db s Hm.
  unfold first_reference, bind, get, set_resource, describeResource, modify, lift, ret.
  cbn.
  destruct (describe_columns name (table_columns env name) [] None None) as [d | e]; cbn.
  - eexists. split.
    + apply dict_set_fresh. apply dict_has_false. unfold dict_has. rewrite Hm. reflexivity.
    + cbn. split; [| exact I]. unfold dict_keys. rewrite length_map. reflexivity.
  - apply grows_same. reflexivity.
Qed.

Lemma get_resource_grows :
  forall env acc query_resource, respects grows (get_resource env acc query_resource).
Proof.
  intros env acc qr s. unfold get_resource, bind, lift, get.
  destruct (resource_reference qr) as [[n a] | e]; [| apply grows_refl].
  destruct (dict_get n (resources s)) as [db |] eqn:Hdb; [| apply grows_refl].
  destruct (dict_get n (metadata s)) as [cached |] eqn:Hm; [apply grows_refl |].
  pose proof (first_reference_grows env n db s Hm) as F.
  destruct (first_reference env n db s) as [[d | e] s1]; exact F.
Qed.

Lemma get_resources_grows : forall env, respects grows (get_resources env).
Proof.
  intros env. unfold get_resources.
  apply (respects_bind grows grows_trans); [apply (respects_gets grows grows_refl) |].
  intros q.
  apply (respects_bind grows grows_trans); [apply (respects_lift grows grows_refl) |].
  intros has.
  destruct (negb has); [apply (respects_lift grows grows_refl) |].
  apply (respects_bind grows grows_trans); [apply (respects_lift grows grows_refl) |].
  intros rs.
  destruct rs; try apply (respects_lift grows grows_refl).
  apply (respects_fold_m grows grows_refl grows_trans). intros. apply get_resource_grows.
Qed.

Lemma get_filters_grows : forall env rs, respects grows (get_filters env rs).
Proof.
  apply (get_filters_respects grows grows_refl grows_trans).
  intros i f c. apply grows_same. reflexivity.
Qed.

Lemma expand_fields_grows : forall env qm, respects grows (expand_fields env qm).
Proof.
  intros env qm. unfold expand_fields.
  apply (respects_bind grows grows_trans); [apply (respects_gets grows grows_refl) |].
  intros q.
  apply (respects_bind grows grows_trans); [apply (respects_lift grows grows_refl) |].
  intros q' s. apply grows_same. reflexivity.
Qed.

Lemma compile_query_grows : forall env, respects grows (compile_query env).
Proof.
  intros env. unfold compile_query.
  repeat (first
    [ apply get_resources_grows | apply get_filters_grows
    | apply expand_fields_grows | apply (respects_gets grows grows_refl)
    | apply (respects_lift grows grows_refl)
    | apply (respects_ret grows grows_refl)
    | apply (respects_bind grows grows_trans); [| intros ?]
    | match goal with |- respects _ (if ?b then _ else _) => destruct b end
    | match goal with |- respects _ (match ?x with (_, _) => _ end) => destruct x end ]).
Qed.

Lemma run_query_metadata :
  forall env config c s, metadata (snd (run_query env config c s)) = metadata s.
Proof.
  intros env config c s. unfold run_query, bind, get, modify, raise, ret. cbn.
  destruct (run_statement env _ (sql c) (values c)) as [seconds [records | pgcode]]; cbn;
    [| reflexivity].
  destruct (cfg_timeout config) as [t |]; cbn; [| reflexivity].
  destruct (Qle_bool _ _); reflexivity.
Qed.

Lemma _execute_query_grows :
  forall env config, respects grows (_execute_query env config).
Proof.
  intros env config s. unfold _execute_query, bind.
  pose proof (compile_query_grows env s) as F.
  destruct (compile_query env s) as [[c | e] s1]; cbn in F; [| exact F].
  pose proof (run_query_metadata env config c s1) as R.
  destruct (run_query env config c s1) as [[records | e] s2]; cbn in R |- *;
    (eapply grows_trans; [exact F | apply grows_same; exact R]).
Qed.

Lemma execute_queue_grows :
  forall env config queue ctx, grows ctx (snd (execute_queue env config queue ctx)).
Proof.
  intros env config queue. induction queue as [| q rest IH]; intros ctx; cbn.
  - apply grows_refl.
  - pose proof (_execute_query_grows env config (set_query q ctx)) as Hq.
    destruct (_execute_query env config (set_query q ctx)) as [[result | e] ctx1];
      cbn in Hq |- *; [| exact Hq].
    specialize (IH ctx1).
    destruct (execute_queue env config rest ctx1) as [[r rest'] ctx2]. cbn in IH |- *.
    eapply grows_trans; [exact Hq | exact IH].
Qed.

(** X4: whatever the request and whether the batch returns or raises,
    [execute] leaves in the metadata dict every descriptor it was passed
    (the shared default when none is passed), unchanged and in the same
    order, and adds the descriptors of the resources it has introspected
    after them; the j-th descriptor added to a dict of n entries has the
    alias t(n+j). *)
Theorem metadata_cache_only_grows :
  forall env default config query given,
    let passed := match given with Some m => m | None => default end in
    exists added,
      metadata_after (execute env default config query given) = (passed ++ added)%list
      /\ numbered (List.length passed) added.
Proof.
  intros env default config query given passed. unfold execute. fold passed.
  destruct (crs <~ get_crs query ;; output_format <~ get_format env query ;;
            queue <~ get_queue query ;; Ok (crs, output_format, queue))
    as [[[c f] queue] | e]; cbn.
  - match goal with |- context [execute_queue env config queue ?c0] =>
      pose proof (execute_queue_grows env config queue c0) as G;
      destruct (execute_queue env config queue c0) as [[r queue'] ctx'] end.
    exact G.
  - exists []. split; [now rewrite app_nil_r | exact I].
Qed.

(** ** The clock of a batch *)

Lemma py_min_le_1 : forall x, (py_min x 1 <= 1)%Q.
Proof.
  intros x. unfold py_min, Qlt_bool. destruct (Qle_bool x 1) eqn:E; cbn.
  - apply Qle_bool_iff. exact E.
  - apply Qle_refl.
Qed.

Lemma run_query_clock :
  forall env config c s,
    (elapsed_time (snd (run_query env config c s)) <= elapsed_time s + 1)%Q.
Proof.
  intros env config c s. unfold run_query, bind, get, modify, raise, ret. cbn.
  destruct (run_statement env _ (sql c) (values c)) as [seconds [records | pgcode]]; cbn;
    [| lra].
  pose proof (py_min_le_1 seconds) as Hmin.
  destruct (cfg_timeout config) as [t |]; cbn; [| lra].
  destruct (Qle_bool _ _); cbn; lra.
Qed.

Lemma _execute_query_clock :
  forall env config s,
    (elapsed_time (snd (_execute_query env config s)) <= elapsed_time s + 1)%Q.
Proof.
  intros env config s. unfold _execute_query, bind.
  pose proof (compile_query_respects env s) as F.
  destruct (compile_query env s) as [[c | e] s1]; cbn in F;
    [| cbn; rewrite (frame_elapsed _ _ F); lra].
  pose proof (run_query_clock env config c s1) as R. rewrite (frame_elapsed _ _ F) in R.
  destruct (run_query env config c s1) as [[records | e] s2]; cbn in R |- *; exact R.
Qed.

(** X5: however long the statements of a batch take, each query moves
    the clock that is held against the total timeout by at most one second:
    after a queue of n queries the elapsed time of the context has grown by
    at most n. *)
Theorem clock_counts_at_most_a_second_per_query :
  forall env config queue ctx,
    (elapsed_time (snd (execute_queue env config queue ctx))
     <= elapsed_time ctx + inject_Z (Z.of_nat (List.length queue)))%Q.
Proof.
  intros env config queue. induction queue as [| q rest IH]; intros ctx.
  - cbn. unfold inject_Z. lra.
  - cbn [execute_queue].
    assert (Hn : (inject_Z (Z.of_nat (List.length (q :: rest)))
                  == inject_Z (Z.of_nat (List.length rest)) + 1)%Q).
    { cbn [List.length]. rewrite Nat2Z.inj_succ. unfold Z.succ. rewrite inject_Z_plus.
      reflexivity. }
    assert (Hpos : (0 <= inject_Z (Z.of_nat (List.length rest)))%Q).
    { change 0%Q with (inject_Z 0). rewrite <- Zle_Qle. lia. }
    rewrite Hn. clear Hn.
    pose proof (_execute_query_clock env config (set_query q ctx)) as Hq.
    cbn [elapsed_time set_query] in Hq.
    destruct (_execute_query env config (set_query q ctx)) as [[result | e] ctx1];
      cbn [snd] in Hq.
    + specialize (IH ctx1).
      destruct (execute_queue env config rest ctx1) as [[r rest'] ctx2].
      cbn [snd] in IH |- *. lra.
    + cbn [snd]. lra.
Qed.

Lemma _execute_query_sub_second :
  forall env config t s result s',
    cfg_timeout config = Some t ->
    t < 1000 ->
    (forall ms sql vals, (0 <= fst (run_statement env ms sql vals))%Q) ->
    (0 <= elapsed_time s)%Q ->
    _execute_query env config s <> (Ok result, s').
Proof.
  intros env config t s result s' Ht Hlt Hclock He H. unfold _execute_query in H.
  apply bind_Ok in H. destruct H as (c & s1 & Hc & H).
  apply bind_Ok in H. destruct H as (records & s2 & Hr & _).
  pose proof (compile_query_respects env s) as F. rewrite Hc in F. cbn in F.
  revert Hr. unfold run_query, bind, get, modify, raise, ret. cbn.
  set (ms := command_timeout env (total_timeout config) (elapsed_is_int s1)
      (elapsed_time s1)).
  pose proof (Hclock ms (sql c) (values c)) as Hsec.
  destruct (run_statement env ms (sql c) (values c)) as [seconds [rows | pgcode]];
    cbn in Hsec |- *; [| discriminate].
  rewrite Ht. cbn.
  assert (Hle : (inject_Z (t / 1000) <= elapsed_time s1 + py_min seconds 1)%Q).
  { pose proof (py_min_nonneg seconds Hsec) as Hm. rewrite (frame_elapsed _ _ F).
    assert (inject_Z (t / 1000) <= 0)%Q; [| lra].
    change 0%Q with (inject_Z 0). rewrite <- Zle_Qle.
    assert (t / 1000 < 1); [apply Z.div_lt_upper_bound; lia | lia]. }
  apply Qle_bool_iff in Hle. rewrite Hle. discriminate.
Qed.

Lemma get_queue_Ok :
  forall query queue, get_queue query = Ok queue -> exists q rest, queue = q :: rest.
Proof.
  intros query queue H. unfold get_queue in H.
  apply and_then_Ok in H. destruct H as (has & _ & H).
  destruct (negb has); [discriminate |].
  apply and_then_Ok in H. destruct H as (q & _ & H).
  destruct q as [| | | | | [| x l] | |]; try discriminate.
  injection H as <-. eauto.
Qed.

(** X6: with a total timeout below 1000 ms and a clock that does not
    run backwards, no batch returns: the budget in whole seconds is 0, so
    the first query whose statement comes back has already used it up, and
    [execute] raises whatever the request. *)
Theorem sub_second_timeout_never_returns :
  forall env default config query given t,
    cfg_timeout config = Some t ->
    t < 1000 ->
    (forall ms sql vals, (0 <= fst (run_statement env ms sql vals))%Q) ->
    exists e, returned (execute env default config query given) = Raise e.
Proof.
  intros env default config query given t Ht Hlt Hclock. unfold execute.
  destruct (get_crs query) as [c | e]; cbn; [| eauto].
  destruct (get_format env query) as [f | e]; cbn; [| eauto].
  destruct (get_queue query) as [queue | e] eqn:Hq; cbn; [| eauto].
  destruct (get_queue_Ok _ _ Hq) as (q & rest & ->). cbn [execute_queue].
  match goal with |- context [_execute_query env config ?c0] =>
    pose proof (fun result s' =>
                  _execute_query_sub_second env config t c0 result s' Ht Hlt Hclock) as Hno;
    destruct (_execute_query env config c0) as [[result | e] ctx1] end.
  - exfalso. apply (Hno result ctx1); [cbn; lra | reflexivity].
  - cbn. eauto.
Qed.

(** The sample batch under a budget of half a second. *)
Lemma sub_second_timeout_never_returns_witness :
  exists e,
    returned (execute Sample.env [] {| cfg_timeout := Some 500 |}
                (Sample.request (Sample.all_of "roads")) None) = Raise e.
Proof.
  apply (sub_second_timeout_never_returns Sample.env [] {| cfg_timeout := Some 500 |}
           (Sample.request (Sample.all_of "roads")) None 500).
  - reflexivity.
  - lia.
  - intros ms sql vals. cbn. discriminate.
Defined.

(** ** The statements of a batch *)

Lemma guarded_weaken :
  forall l armed, guarded_from false l = true -> guarded_from armed l = true.
Proof.
  intros [| [id | ms | sql vals] l] armed H; cbn in *; auto. discriminate.
Qed.

Lemma guarded_app :
  forall l1 l2 armed,
    guarded_from armed l1 = true -> guarded_from false l2 = true ->
    guarded_from armed (l1 ++ l2) = true.
Proof.
  intros l1. induction l1 as [| [id | ms | sql vals] l1 IH]; intros l2 armed H1 H2; cbn in *.
  - apply guarded_weaken. exact H2.
  - apply IH; assumption.
  - apply IH; assumption.
  - apply andb_true_iff in H1. destruct H1 as [-> H1]. cbn. apply IH; assumption.
Qed.

Lemma guarded_introspect :
  forall ids, guarded_from false (map Introspect ids) = true.
Proof. intros ids. induction ids; cbn; auto. Qed.

Lemma guarded_nth :
  forall l armed i sql vals,
    guarded_from armed l = true ->
    nth_error l i = Some (Select sql vals) ->
    (i = 0%nat /\ armed = true)
    \/ exists j ms, i = S j /\ nth_error l j = Some (SetStatementTimeout ms).
Proof.
  intros l. induction l as [| st l IH]; intros armed i sql vals Hg Hn.
  - destruct i; discriminate.
  - destruct i as [| i]; cbn in Hn.
    + injection Hn as ->. cbn in Hg. apply andb_true_iff in Hg. left. tauto.
    + right. destruct st as [id | ms | sql' vals']; cbn in Hg.
      * destruct (IH _ _ _ _ Hg Hn) as [[_ H] | (j & ms & -> & Hj)]; [discriminate |].
        exists (S j), ms. auto.
      * destruct (IH _ _ _ _ Hg Hn) as [[-> _] | (j & ms' & -> & Hj)].
        -- exists 0%nat, ms. auto.
        -- exists (S j), ms'. auto.
      * apply andb_true_iff in Hg. destruct Hg as [_ Hg].
        destruct (IH _ _ _ _ Hg Hn) as [[_ H] | (j & ms & -> & Hj)]; [discriminate |].
        exists (S j), ms. auto.
Qed.

(** What a query sends: introspection only when it does not compile;
    otherwise its statement last, under its timeout, and an error of the
    data connection is what it raises. *)
Lemma _execute_query_sent :
  forall env config s r s',
    _execute_query env config s = (r, s') ->
    (exists ids e, sent s' = (sent s ++ map Introspect ids)%list /\ r = Raise e)
    \/ (exists ids ms sql vals,
          sent s' = (sent s ++ map Introspect ids
                     ++ [SetStatementTimeout ms; Select sql vals])%list
          /\ match snd (run_statement env ms sql vals) with
             | DbError pgcode => r = Raise (PyExc (DBAPIError pgcode))
             | Rows _ => True
             end).
Proof.
  intros env config s r s' H. unfold _execute_query, bind in H.
  pose proof (compile_query_respects env s) as F.
  destruct (compile_query env s) as [[c | e] s1]; cbn in F;
    destruct (frame_sent _ _ F) as [ids Hids];
    [| injection H as <- <-; left; eauto].
  right. exists ids, (command_timeout env (total_timeout config) (elapsed_is_int s1)
      (elapsed_time s1)),
    (sql c), (values c).
  revert H. unfold run_query, bind, get, modify, raise, ret, gets, lift. cbn.
  destruct (run_statement env _ (sql c) (values c)) as [seconds [records | pgcode]]; cbn.
  - destruct (cfg_timeout config) as [t |]; cbn;
      [destruct (Qle_bool _ _); cbn |];
      intros H; injection H as <- <-; cbn;
      (split; [rewrite Hids, <- !app_assoc; reflexivity | exact I]).
  - intros H; injection H as <- <-; cbn.
    split; [rewrite Hids, <- !app_assoc; reflexivity | reflexivity].
Qed.

Lemma _execute_query_guarded :
  forall env config s,
    guarded_from false (sent s) = true ->
    guarded_from false (sent (snd (_execute_query env config s))) = true.
Proof.
  intros env config s H.
  destruct (_execute_query env config s) as [r s'] eqn:E. cbn.
  destruct (_execute_query_sent _ _ _ _ _ E)
    as [(ids & e & -> & _) | (ids & ms & sql & vals & -> & _)].
  - apply guarded_app; [exact H | apply guarded_introspect].
  - apply guarded_app; [exact H |].
    apply guarded_app; [apply guarded_introspect | reflexivity].
Qed.

Lemma execute_queue_guarded :
  forall env config queue ctx,
    guarded_from false (sent ctx) = true ->
    guarded_from false (sent (snd (execute_queue env config queue ctx))) = true.
Proof.
  intros env config queue. induction queue as [| q rest IH]; intros ctx H; cbn.
  - exact H.
  - pose proof (_execute_query_guarded env config (set_query q ctx) H) as Hq.
    destruct (_execute_query env config (set_query q ctx)) as [[result | e] ctx1];
      cbn in Hq |- *; [| exact Hq].
    specialize (IH ctx1 Hq).
    destruct (execute_queue env config rest ctx1) as [[r rest'] ctx2]. exact IH.
Qed.

(** X7: no statement of a query reaches the data connection without a
    timeout: in what a batch sends, every compiled statement comes directly
    after a [SET LOCAL statement_timeout]. *)
Theorem every_select_follows_its_timeout :
  forall env default config query given i sql vals,
    nth_error (statements (execute env default config query given)) i
    = Some (Select sql vals) ->
    exists j ms,
      i = S j
      /\ nth_error (statements (execute env default config query given)) j
         = Some (SetStatementTimeout ms).
Proof.
  intros env default config query given i sql vals H.
  assert (G : guarded_from false (statements (execute env default config query given))
              = true).
  { clear H. unfold execute.
    destruct (crs <~ get_crs query ;; output_format <~ get_format env query ;;
              queue <~ get_queue query ;; Ok (crs, output_format, queue))
      as [[[c f] queue] | e]; cbn; [| reflexivity].
    match goal with |- context [execute_queue env config queue ?c0] =>
      pose proof (execute_queue_guarded env config queue c0 eq_refl) as Hg;
      destruct (execute_queue env config queue c0) as [[r queue'] ctx'] end.
    exact Hg. }
  destruct (guarded_nth _ _ _ _ _ G H) as [[_ Hf] | Hj]; [discriminate | exact Hj].
Qed.

(** The sample batch: introspection, the timeout, the statement. *)
Lemma every_select_follows_its_timeout_witness :
  exists j ms,
    2%nat = S j
    /\ nth_error (statements (execute Sample.env [] Sample.config
                                (Sample.request (Sample.all_of "roads")) None)) j
       = Some (SetStatementTimeout ms).
Proof.
  eapply (every_select_follows_its_timeout Sample.env [] Sample.config
            (Sample.request (Sample.all_of "roads")) None 2).
  vm_compute. reflexivity.
Defined.

(** ** Errors of the data connection *)

Lemma last_select_introspect : forall ids, last_select (map Introspect ids) = None.
Proof.
  intros ids. unfold last_select. rewrite <- map_rev.
  destruct (rev ids) as [| x [| y t]]; reflexivity.
Qed.

Lemma last_select_last :
  forall l ms sql vals,
    last_select (l ++ [SetStatementTimeout ms; Select sql vals]) = Some (ms, sql, vals).
Proof.
  intros l ms sql vals. unfold last_select. rewrite rev_app_distr. reflexivity.
Qed.

Lemma last_select_after :
  forall a ms sql vals b p,
    last_select ((a ++ [SetStatementTimeout ms; Select sql vals]) ++ b) = Some p ->
    (b = [] /\ p = (ms, sql, vals)) \/ last_select b = Some p.
Proof.
  intros a ms sql vals b p. unfold last_select. rewrite !rev_app_distr. cbn.
  destruct (rev b) as [| x [| y t]] eqn:Hb; cbn.
  - intros H. left. split; [| congruence].
    rewrite <- (rev_involutive b), Hb. reflexivity.
  - destruct x; discriminate.
  - intros H. right. exact H.
Qed.

Lemma execute_queue_db_error :
  forall env config queue ctx r queue' ctx',
    execute_queue env config queue ctx = (r, queue', ctx') ->
    exists extra,
      sent ctx' = (sent ctx ++ extra)%list
      /\ forall ms sql vals pgcode,
           last_select extra = Some (ms, sql, vals) ->
           snd (run_statement env ms sql vals) = DbError pgcode ->
           r = Raise (PyExc (DBAPIError pgcode)).
Proof.
  intros env config queue. induction queue as [| q rest IH]; intros ctx r queue' ctx' H.
  - cbn in H. injection H as <- _ <-. exists []. split; [now rewrite app_nil_r |].
    intros ms sql vals pgcode Hl. discriminate Hl.
  - cbn [execute_queue] in H.
    destruct (_execute_query env config (set_query q ctx)) as [r1 ctx1] eqn:E.
    apply _execute_query_sent in E. cbn [sent set_query] in E.
    destruct r1 as [result | e].
    + destruct E as [(ids & e & _ & Hr) | (ids & ms1 & sql1 & vals1 & Hs & Hreply)];
        [discriminate Hr |].
      destruct (execute_queue env config rest ctx1) as [[r2 rest'] ctx2] eqn:E2.
      injection H as <- _ <-.
      destruct (IH _ _ _ _ E2) as (extra2 & Hs2 & Hlast2).
      exists ((map Introspect ids ++ [SetStatementTimeout ms1; Select sql1 vals1])
              ++ extra2)%list.
      split; [rewrite Hs2, Hs, <- !app_assoc; reflexivity |].
      intros ms sql vals pgcode Hl Hdb.
      apply last_select_after in Hl. destruct Hl as [[_ Hp] | Hl].
      * injection Hp as -> -> ->. rewrite Hdb in Hreply. discriminate Hreply.
      * rewrite (Hlast2 _ _ _ _ Hl Hdb). reflexivity.
    + injection H as <- _ <-.
      destruct E as [(ids & e' & Hs & _) | (ids & ms1 & sql1 & vals1 & Hs & Hreply)].
      * exists (map Introspect ids). split; [exact Hs |].
        intros ms sql vals pgcode Hl. rewrite last_select_introspect in Hl. discriminate Hl.
      * exists (map Introspect ids ++ [SetStatementTimeout ms1; Select sql1 vals1])%list.
        split; [exact Hs |].
        intros ms sql vals pgcode Hl Hdb. rewrite last_select_last in Hl.
        injection Hl as <- <- <-. rewrite Hdb in Hreply. exact Hreply.
Qed.

(** X8: when the data connection fails the statement a batch sent last,
    [execute] raises a [DataException] that carries the database error:
    "Execution exceeded timeout." for the code 57014 (query canceled) and
    "Unhandled exception has occured." for any other. *)
Theorem database_error_surfaces :
  forall env default config query given l ms sql vals pgcode,
    statements (execute env default config query given)
    = (l ++ [SetStatementTimeout ms; Select sql vals])%list ->
    snd (run_statement env ms sql vals) = DbError pgcode ->
    returned (execute env default config query given)
    = Raise (DataException
               (if String.eqb pgcode PG_ERR_query_canceled
                then "Execution exceeded timeout."
                else "Unhandled exception has occured.")
               (Some (DBAPIError pgcode))).
Proof.
  intros env default config query given l ms sql vals pgcode. unfold execute.
  destruct (crs <~ get_crs query ;; output_format <~ get_format env query ;;
            queue <~ get_queue query ;; Ok (crs, output_format, queue))
    as [[[c f] queue] | e]; cbn.
  2: { intros H. destruct l; discriminate H. }
  match goal with |- context [execute_queue env config queue ?c0] =>
    destruct (execute_queue env config queue c0) as [[r queue'] ctx'] eqn:E end.
  cbn. intros Hs Hdb.
  destruct (execute_queue_db_error _ _ _ _ _ _ _ E) as (extra & Hsent & Hlast).
  cbn in Hsent. rewrite Hsent in Hs. subst extra.
  rewrite (Hlast _ _ _ _ (last_select_last _ _ _ _) Hdb). reflexivity.
Qed.

(** The sample batch on a connection that cancels its statement. *)
Lemma database_error_surfaces_witness :
  returned (execute (cancelling 30 Sample.env) [] Sample.config
              (Sample.request (Sample.all_of "roads")) None)
  = Raise (DataException "Execution exceeded timeout."
             (Some (DBAPIError PG_ERR_query_canceled))).
Proof.
  eapply (database_error_surfaces (cancelling 30 Sample.env) [] Sample.config
            (Sample.request (Sample.all_of "roads")) None [Introspect "roads"]
            _ _ _ PG_ERR_query_canceled).
  - vm_compute. reflexivity.
  - reflexivity.
Defined.

(** ** What a batch returns *)

Lemma _execute_query_output_format :
  forall env config s,
    output_format (snd (_execute_query env config s)) = output_format s.
Proof.
  intros env config s. unfold _execute_query, bind.
  pose proof (compile_query_respects env s) as F.
  destruct (compile_query env s) as [[c | e] s1]; cbn in F; [| exact (frame_format _ _ F)].
  pose proof (run_query_output_format env config c s1) as R.
  destruct (run_query env config c s1) as [[records | e] s2]; cbn in R |- *;
    rewrite R; exact (frame_format _ _ F).
Qed.

Lemma execute_queue_results :
  forall env config queue ctx results queue' ctx',
    execute_queue env config queue ctx = (Ok results, queue', ctx') ->
    List.length results = List.length queue
    /\ Forall (fun v => exists result, v = partial_result (output_format ctx) result) results.
Proof.
  intros env config queue. induction queue as [| q rest IH];
    intros ctx results queue' ctx' H.
  - cbn in H. injection H as <- _ _. split; [reflexivity | constructor].
  - cbn [execute_queue] in H.
    pose proof (_execute_query_output_format env config (set_query q ctx)) as Hf.
    destruct (_execute_query env config (set_query q ctx)) as [[result | e] ctx1];
      [| discriminate H].
    destruct (execute_queue env config rest ctx1) as [[[others | e] rest'] ctx2] eqn:E;
      [| discriminate H].
    injection H as <- _ _. destruct (IH _ _ _ _ E) as [Hlen Hall].
    cbn in Hf. rewrite Hf in Hall. split.
    + cbn. rewrite Hlen. reflexivity.
    + constructor; [eauto | exact Hall].
Qed.

(** X9: a batch that returns has exactly one result per element of the
    queue; it echoes the CRS code and the format it read from the request
    (3857 and GeoJSON when absent); in GeoJSON format every result is a
    FeatureCollection object and in JSON format every result is a list; and
    the metadata it returns is the metadata dict it has been filling. *)
Theorem one_result_per_query :
  forall env default config query given b,
    returned (execute env default config query given) = Ok b ->
    exists queue,
      get_queue query = Ok queue
      /\ get_crs query = Ok (res_crs b)
      /\ get_format env query = Ok (res_format b)
      /\ List.length (res_data b) = List.length queue
      /\ Forall (fun v =>
                   if String.eqb (res_format b) QUERY_FORMAT_GEOJSON then
                     exists fts,
                       v = VDict [("features", VList fts);
                                  ("type", VStr "FeatureCollection")]
                   else exists records, v = VList records)
           (res_data b)
      /\ res_metadata b = metadata_after (execute env default config query given).
Proof.
  intros env default config query given b. unfold execute.
  destruct (get_crs query) as [c | e]; cbn; [| discriminate].
  destruct (get_format env query) as [f | e]; cbn; [| discriminate].
  destruct (get_queue query) as [queue | e]; cbn; [| discriminate].
  match goal with |- context [execute_queue env config queue ?c0] =>
    destruct (execute_queue env config queue c0) as [[[results | e] queue'] ctx'] eqn:E end;
    cbn; [| discriminate].
  intros H. injection H as <-. cbn. exists queue.
  destruct (execute_queue_results _ _ _ _ _ _ _ E) as [Hlen Hall]. cbn in Hall.
  repeat split; try reflexivity; [exact Hlen |].
  eapply Forall_impl; [| exact Hall]. cbn. intros v [result ->]. unfold partial_result.
  destruct (String.eqb f QUERY_FORMAT_GEOJSON); eauto.
Qed.

(** The sample batch of one query. *)
Lemma one_result_per_query_witness :
  exists b queue,
    returned (execute Sample.env [] Sample.config
                (Sample.request (Sample.all_of "roads")) None) = Ok b
    /\ get_queue (Sample.request (Sample.all_of "roads")) = Ok queue
    /\ List.length (res_data b) = List.length queue.
Proof.
  destruct (returned (execute Sample.env [] Sample.config
                        (Sample.request (Sample.all_of "roads")) None))
    as [b | e] eqn:E; [| vm_compute in E; discriminate E].
  destruct (one_result_per_query _ _ _ _ _ _ E) as (queue & Hq & _ & _ & Hlen & _).
  exists b, queue. auto.
Defined.

(** ** The envelope of a request *)

(** X10: a request whose [crs] is not one of the supported codes is not
    answered with the "CRS ... is not supported." message the code holds:
    formatting that message raises [KeyError], which comes out as
    "Unhandled exception has occured.".  Nothing is sent to the data
    connection and the request is left as it was. *)
Theorem unsupported_crs_is_unhandled :
  forall env default config d given c,
    dict_get "crs" d = Some c ->
    value_in c CRS_SUPPORTED = false ->
    let out := execute env default config (VDict d) given in
    returned out
    = Raise (DataException "Unhandled exception has occured." (Some (KeyError "crs")))
    /\ statements out = []
    /\ request_after out = VDict d.
Proof.
  intros env default config d given c Hc Hv. unfold execute, get_crs.
  cbn. unfold dict_has. rewrite Hc. cbn. rewrite Hv. cbn. auto.
Qed.

Lemma unsupported_crs_is_unhandled_witness :
  let out := execute Sample.env [] Sample.config
               (VDict [("crs", VStr "EPSG:32634"); ("queue", VList [Sample.all_of "roads"])])
               None in
  returned out
  = Raise (DataException "Unhandled exception has occured." (Some (KeyError "crs")))
  /\ statements out = []
  /\ request_after out
     = VDict [("crs", VStr "EPSG:32634"); ("queue", VList [Sample.all_of "roads"])].
Proof.
  apply (unsupported_crs_is_unhandled Sample.env [] Sample.config
           [("crs", VStr "EPSG:32634"); ("queue", VList [Sample.all_of "roads"])]
           None (VStr "EPSG:32634")); reflexivity.
Defined.

(** ** Comparison filters *)

Lemma _is_field_literal :
  forall metadata mapping b,
    is_reference b = false -> _is_field metadata mapping b = (Ok false, b).
Proof.
  intros metadata mapping b H. unfold _is_field, bind, get.
  destruct b; try reflexivity. cbn in H. rewrite H. reflexivity.
Qed.

Lemma _is_field_geom_literal :
  forall metadata mapping b,
    is_reference b = false -> _is_field_geom metadata mapping b = (Ok false, b).
Proof.
  intros metadata mapping b H. unfold _is_field_geom, bind.
  rewrite _is_field_literal by exact H. reflexivity.
Qed.

(** On a reference [_is_field] returns [True] or raises. *)
Lemma _is_field_reference :
  forall metadata mapping a r a',
    is_reference a = true -> _is_field metadata mapping a = (Ok r, a') -> r = true.
Proof.
  intros metadata mapping a r a' Ha H. unfold _is_field in H.
  destruct a; try discriminate Ha. cbn in Ha.
  apply bind_Ok in H. destruct H as (f & s1 & Hg & H). apply get_Ok in Hg.
  destruct Hg as [-> ->]. rewrite Ha in H. cbn [negb] in H.
  apply bind_Ok in H. destruct H as (u & s2 & _ & H).
  apply bind_Ok in H. destruct H as (f2 & s3 & _ & H).
  apply bind_Ok in H. destruct H as ([db n] & s4 & _ & H).
  destruct (dict_has n (fields db)).
  - apply ret_Ok in H. tauto.
  - apply bind_Ok in H. destruct H as (x & s5 & _ & H). discriminate H.
Qed.

Ltac red_args :=
  cbn -[_is_field _get_field_type _is_field_geom argument_field String.eqb append
        convert_to option_string_eqb py_str qualified].

Lemma compare_literal_first :
  forall env metadata mapping operator expression a b,
    is_reference a = true ->
    is_reference b = false ->
    fst (_create_filter_compare env metadata mapping operator expression [b; a])
    = fst (_create_filter_compare env metadata mapping operator expression [a; b]).
Proof.
  intros env md mp op expr a b Ha Hb.
  pose proof (_is_field_literal md mp b Hb) as Lb.
  pose proof (_is_field_geom_literal md mp b Hb) as Gb.
  unfold _create_filter_compare, bind, get, on_arg, aliased, ret, lift. red_args.
  rewrite ?Lb, ?Gb. red_args.
  destruct (_is_field md mp a) as [[r | e] a1] eqn:E1; [| reflexivity].
  rewrite (_is_field_reference _ _ _ _ _ Ha E1). red_args.
  destruct (_get_field_type md mp a1) as [[ty | e] a2] eqn:E2; [| reflexivity].
  red_args. rewrite ?Lb, ?Gb. red_args.
  destruct (_is_field_geom md mp a2) as [[g | e] a3] eqn:E3; [| reflexivity].
  red_args. rewrite ?Lb, ?Gb. red_args.
  rewrite ?orb_false_r. destruct g; [reflexivity |]. red_args.
  destruct (argument_field md mp a3) as [[db n] | e]; [| reflexivity].
  red_args.
  destruct (String.eqb op OP_LIKE); [destruct (negb _); reflexivity | reflexivity].
Qed.




(** [_create_filter] on a comparison: the tuple of
    [_create_filter_compare], a [ValueError] turned into "Failed to parse
    argument value". *)
Lemma _create_filter_comparison :
  forall env metadata mapping operator x rest,
    str_in operator COMPARE_OPERATORS = true ->
    fst (_create_filter env metadata mapping (comparison operator (x :: rest)))
    = match fst (_create_filter_compare env metadata mapping operator
                   (nth (index_of operator COMPARE_OPERATORS) COMPARE_EXPRESSIONS
                      EmptyString)
                   (x :: rest)) with
      | Ok t => Ok (Some t)
      | Raise (PyExc ValueError) =>
          Raise (DataException
                   ("Failed to parse argument value for operator " ++ operator ++ ".") None)
      | Raise e => Raise e
      end.
Proof.
  intros env md mp op x rest Hop.
  unfold _create_filter, comparison, bind, get, except_ValueError, zoom, ret.
  cbn -[_create_filter_compare str_in append nth index_of].
  rewrite all_operators, Hop. cbn -[_create_filter_compare str_in append nth index_of].
  destruct (_create_filter_compare env md mp op _ (x :: rest)) as [[t | e] args'];
    [reflexivity |].
  cbn. destruct e as [m i | []]; reflexivity.
Qed.

(** X11: a comparison filter does not keep the order of its operands.
    With the literal first and the field second it compiles to the same
    condition, [field operator literal], as with the field first, and fails
    with the same exception when it fails: [GREATER [7, name]] selects the
    rows whose [name] is greater than 7. *)
Theorem comparison_puts_the_field_first :
  forall env metadata mapping operator a b,
    str_in operator COMPARE_OPERATORS = true ->
    is_reference a = true ->
    is_reference b = false ->
    fst (_create_filter env metadata mapping (comparison operator [b; a]))
    = fst (_create_filter env metadata mapping (comparison operator [a; b])).
Proof.
  intros env md mp op a b Hop Ha Hb.
  rewrite !_create_filter_comparison by exact Hop.
  rewrite (compare_literal_first env md mp op _ a b Ha Hb). reflexivity.
Qed.

(** [GREATER] between 7 and the field [name] of [roads], either way
    round: [name > 7]. *)
Lemma comparison_puts_the_field_first_witness :
  fst (_create_filter Sample.env roads_metadata [("roads", "roads")]
         (comparison OP_GT [VInt 7; VDict [("name", VStr "name")]]))
  = fst (_create_filter Sample.env roads_metadata [("roads", "roads")]
           (comparison OP_GT [VDict [("name", VStr "name")]; VInt 7]))
  /\ fst (_create_filter Sample.env roads_metadata [("roads", "roads")]
            (comparison OP_GT [VDict [("name", VStr "name")]; VInt 7]))
     = Ok (Some ("(" ++ qualified "t1" "name" ++ "::int > %s)", [VInt 7])).
Proof.
  split.
  - apply (comparison_puts_the_field_first Sample.env roads_metadata [("roads", "roads")]
             OP_GT (VDict [("name", VStr "name")]) (VInt 7)); reflexivity.
  - vm_compute. reflexivity.
Defined.



(** An [int] and a [long] are not of one class: against a text field
    the first is compared under a cast and the second is not. *)
Example long_literal_is_not_cast :
  convert_to Sample.env (Some "varchar") (VInt 5) = "::int"
  /\ convert_to Sample.env (Some "varchar") (VInt (2 ^ 63)) = EmptyString
  /\ ~ same_text
        (fst (_create_filter Sample.env roads_metadata [("roads", "roads")]
                (comparison OP_EQ [VDict [("name", VStr "name")]; VInt 5])))
        (fst (_create_filter Sample.env roads_metadata [("roads", "roads")]
                (comparison OP_EQ [VDict [("name", VStr "name")]; VInt (2 ^ 63)]))).
Proof.
  split; [reflexivity |]. split; [reflexivity |].
  vm_compute. intros H. discriminate H.
Qed.

(** ** Flat records *)

(** The inner loop of the JSON branch, from any record so far. *)
Lemma record_fields :
  forall env r parsed record0 record,
    fold_result (record_field env r) parsed record0 = Ok record ->
    NoDup (dict_keys parsed) ->
    (forall k, In k (dict_keys parsed) -> ~ In k (dict_keys record0)) ->
    dict_keys record = (dict_keys record0 ++ dict_keys parsed)%list
    /\ (forall k, ~ In k (dict_keys parsed) -> dict_get k record = dict_get k record0)
    /\ forall a f,
         In (a, f) parsed ->
         exists v,
           dict_get a r = Some v
           /\ if is_geom f then
                exists h g,
                  v = VStr h /\ wkb_loads env h = Some g
                  /\ dict_get a record = Some (VGeom g)
              else dict_get a record = Some v.
Proof.
  intros env r parsed. induction parsed as [| [a f] parsed IH];
    intros record0 record H Hnd Hfresh.
  - cbn in H. injection H as <-. cbn. rewrite app_nil_r. repeat split; auto.
    intros a f [].
  - cbn [fold_result] in H. apply and_then_Ok in H. destruct H as (record1 & Hstep & H).
    inversion Hnd as [| ? ? Ha Hnd']; subst.
    assert (Hfresh0 : ~ In a (dict_keys record0)) by (apply Hfresh; left; reflexivity).
    assert (Hstep' : exists v x,
               dict_get a r = Some v
               /\ record1 = (record0 ++ [(a, x)])%list
               /\ if is_geom f then
                    exists h g, v = VStr h /\ wkb_loads env h = Some g /\ x = VGeom g
                  else x = v).
    { unfold record_field, column in Hstep.
      destruct (dict_get a r) as [v |]; [| discriminate Hstep]. cbn in Hstep.
      destruct (is_geom f).
      - apply and_then_Ok in Hstep. destruct Hstep as (g & Hg & Hstep).
        injection Hstep as <-.
        destruct (decode_geometry_Ok _ _ _ Hg) as (h & gg & -> & Hw & ->).
        exists (VStr h), (VGeom gg).
        rewrite dict_set_fresh by exact Hfresh0. eauto 10.
      - injection Hstep as <-. exists v, v.
        rewrite dict_set_fresh by exact Hfresh0. auto. }
    destruct Hstep' as (v & x & Hv & -> & Hx).
    destruct (IH _ _ H Hnd') as (Hkeys & Hother & Hall).
    { intros k Hk. unfold dict_keys. rewrite map_app, in_app_iff. cbn.
      intros [Hin | [<- | []]]; [| exact (Ha Hk)].
      apply (Hfresh k); [right; exact Hk | exact Hin]. }
    assert (Hget : dict_get a (record0 ++ [(a, x)])%list = Some x).
    { rewrite <- dict_set_fresh by exact Hfresh0. apply dict_get_set_same. }
    repeat split.
    + rewrite Hkeys. unfold dict_keys. rewrite map_app, <- app_assoc. reflexivity.
    + intros k Hk. cbn in Hk. rewrite Hother by tauto.
      rewrite <- dict_set_fresh by exact Hfresh0.
      apply dict_get_set_other. intros ->. apply Hk. left. reflexivity.
    + intros a' f' [Heq | Hin].
      * injection Heq as <- <-. exists v. split; [exact Hv |].
        rewrite (Hother a Ha), Hget.
        destruct (is_geom f); [| congruence].
        destruct Hx as (h & g & -> & Hw & ->). eauto.
      * apply Hall. exact Hin.
Qed.

(** One record per row, in the order the rows are read. *)
Lemma flat_records_rows :
  forall env parsed records result,
    flat_records env parsed records = Ok result ->
    NoDup (dict_keys parsed) ->
    List.length result = List.length records
    /\ forall i r,
         nth_error records i = Some r ->
         exists record,
           nth_error result i = Some (VDict record) /\ is_record_of env parsed r record.
Proof.
  intros env parsed records. induction records as [| r0 rest IH]; intros result H Hnd.
  - cbn in H. injection H as <-. split; [reflexivity |].
    intros [| i] r Hr; discriminate Hr.
  - cbn [flat_records] in H. apply and_then_Ok in H. destruct H as (record & Hrec & H).
    apply and_then_Ok in H. destruct H as (others & Hothers & H). injection H as <-.
    destruct (IH _ Hothers Hnd) as [Hlen Hnth]. split; [cbn; congruence |].
    intros [| i] r Hr; cbn in Hr |- *.
    + injection Hr as <-. exists record. split; [reflexivity |].
      destruct (record_fields _ _ _ _ _ Hrec Hnd) as (Hkeys & _ & Hall).
      { intros k _ []. }
      split; [cbn in Hkeys; rewrite Hkeys; apply Permutation_refl | exact Hall].
    + exact (Hnth i r Hr).
Qed.

(** X13: in JSON format a query that returns gives one flat record per
    row the data connection answered, in the order of the rows.  A record
    is a dict with exactly one entry per projected field, under the output
    alias, no two fields under the same one; it holds the column of the row
    as it came, and the decoded geometry for every geometry field, however
    many there are. *)
Theorem json_records :
  forall env config ctx result ctx',
    String.eqb (output_format ctx) QUERY_FORMAT_GEOJSON = false ->
    _execute_query env config ctx = (Ok result, ctx') ->
    exists c ms seconds records,
      fst (compile_query env ctx) = Ok c
      /\ run_statement env ms (sql c) (values c) = (seconds, Rows records)
      /\ NoDup (dict_keys (parsed_fields c))
      /\ List.length result = List.length records
      /\ forall i r,
           nth_error records i = Some r ->
           exists record,
             nth_error result i = Some (VDict record)
             /\ is_record_of env (parsed_fields c) r record.
Proof.
  intros env config ctx result ctx' Hfmt H. unfold _execute_query in H.
  apply bind_Ok in H. destruct H as (c & s1 & Hc & H).
  apply bind_Ok in H. destruct H as (records & s2 & Hrun & H).
  apply bind_Ok in H. destruct H as (f & s3 & Hf & H).
  apply gets_Ok in Hf. destruct Hf as [-> ->].
  apply lift_Ok in H. destruct H as [Hmat _].
  pose proof (run_query_output_format env config c s1) as Hf2.
  rewrite Hrun in Hf2. cbn in Hf2.
  pose proof (compile_query_respects env ctx) as F. rewrite Hc in F. cbn in F.
  rewrite Hf2, (frame_format _ _ F) in Hmat. unfold materialize in Hmat.
  rewrite Hfmt in Hmat.
  destruct (compile_query_Ok _ _ _ _ Hc)
    as (L & O & rs & s & b & s0 & filters & wheres & sort & _ & _ & _ & _ & _
        & Hfields & _).
  pose proof (get_fields_keys _ _ _ Hfields) as Hnd.
  destruct (run_query_Ok _ _ _ _ _ _ Hrun) as (ms & seconds & Hreply).
  destruct (flat_records_rows _ _ _ _ Hmat Hnd) as [Hlen Hrows].
  exists c, ms, seconds, records. rewrite Hc. auto.
Qed.

(** All fields of [roads] in JSON format: one row, one record. *)
Lemma json_records_witness :
  exists result c (records : list (dict value)),
    fst (_execute_query Sample.env Sample.config
           (set_query (Sample.all_of "roads")
              {| query := VNone; output_format := QUERY_FORMAT_JSON;
                 crs := CRS_DEFAULT_OUTPUT; resources := getResources Sample.env;
                 metadata := []; elapsed_time := 0; elapsed_is_int := true;
                    sent := [] |}))
    = Ok result
    /\ NoDup (dict_keys (parsed_fields c))
    /\ List.length result = List.length records.
Proof.
  destruct (_execute_query Sample.env Sample.config
              (set_query (Sample.all_of "roads")
                 {| query := VNone; output_format := QUERY_FORMAT_JSON;
                    crs := CRS_DEFAULT_OUTPUT; resources := getResources Sample.env;
                    metadata := []; elapsed_time := 0; elapsed_is_int := true;
                    sent := [] |}))
    as [[result | e] ctx'] eqn:E; [| vm_compute in E; discriminate E].
  pose proof (fun H => json_records _ _ _ _ _ H E) as J.
  destruct (J eq_refl) as (c & ms & seconds & records & _ & _ & Hnd & Hlen & _).
  exists result, c, records. auto.
Defined.

(** ** Relations a batch keeps *)

Section Batch.

Variable R : Context -> Context -> Prop.
Hypothesis R_refl : forall c, R c c.
Hypothesis R_trans : forall a b c, R a b -> R b c -> R a c.

(** What the first reference to a catalog entry the cache does not have
    does, what writing into the query does, and what running the statement
    does. *)
Hypothesis R_first_reference :
  forall env name db s,
    dict_get name (resources s) = Some db ->
    dict_get name (metadata s) = None -> R s (snd (first_reference env name db s)).
Hypothesis R_set_query : forall q c, R c (set_query q c).
Hypothesis R_run_query : forall env config c s, R s (snd (run_query env config c s)).

Lemma get_resource_keeps :
  forall env acc query_resource, respects R (get_resource env acc query_resource).
Proof.
  intros env acc qr s. unfold get_resource, bind, lift, get.
  destruct (resource_reference qr) as [[n a] | e]; [| apply R_refl].
  destruct (dict_get n (resources s)) as [db |] eqn:Hdb; [| apply R_refl].
  destruct (dict_get n (metadata s)) as [cached |] eqn:Hm; [apply R_refl |].
  pose proof (R_first_reference env n db s Hdb Hm) as F.
  destruct (first_reference env n db s) as [[d | e] s1]; exact F.
Qed.

Lemma get_resources_keeps : forall env, respects R (get_resources env).
Proof.
  intros env. unfold get_resources.
  apply (respects_bind R R_trans); [apply (respects_gets R R_refl) | intros q].
  apply (respects_bind R R_trans); [apply (respects_lift R R_refl) | intros has].
  destruct (negb has); [apply (respects_lift R R_refl) |].
  apply (respects_bind R R_trans); [apply (respects_lift R R_refl) | intros rs].
  destruct rs; try apply (respects_lift R R_refl).
  apply (respects_fold_m R R_refl R_trans). intros. apply get_resource_keeps.
Qed.

Lemma get_filters_keeps : forall env rs, respects R (get_filters env rs).
Proof.
  apply (get_filters_respects R R_refl R_trans). intros i f c. apply R_set_query.
Qed.

Lemma expand_fields_keeps : forall env qm, respects R (expand_fields env qm).
Proof.
  intros env qm. unfold expand_fields.
  apply (respects_bind R R_trans); [apply (respects_gets R R_refl) | intros q].
  apply (respects_bind R R_trans); [apply (respects_lift R R_refl) |].
  intros q' s. apply R_set_query.
Qed.

Lemma compile_query_keeps : forall env, respects R (compile_query env).
Proof.
  intros env. unfold compile_query.
  repeat (first
    [ apply get_resources_keeps | apply get_filters_keeps
    | apply expand_fields_keeps | apply (respects_gets R R_refl)
    | apply (respects_lift R R_refl)
    | apply (respects_ret R R_refl)
    | apply (respects_bind R R_trans); [| intros ?]
    | match goal with |- respects _ (if ?b then _ else _) => destruct b end
    | match goal with |- respects _ (match ?x with (_, _) => _ end) => destruct x end ]).
Qed.

Lemma _execute_query_keeps : forall env config, respects R (_execute_query env config).
Proof.
  intros env config. unfold _execute_query.
  apply (respects_bind R R_trans); [apply compile_query_keeps | intros c].
  apply (respects_bind R R_trans); [intros s; apply R_run_query | intros records].
  apply (respects_bind R R_trans); [apply (respects_gets R R_refl) | intros f].
  apply (respects_lift R R_refl).
Qed.

Lemma execute_queue_keeps :
  forall env config queue ctx, R ctx (snd (execute_queue env config queue ctx)).
Proof.
  intros env config queue. induction queue as [| q rest IH]; intros ctx; cbn.
  - apply R_refl.
  - pose proof (_execute_query_keeps env config (set_query q ctx)) as Hq.
    assert (Hq' : R ctx (snd (_execute_query env config (set_query q ctx)))).
    { eapply R_trans; [apply R_set_query | exact Hq]. }
    destruct (_execute_query env config (set_query q ctx)) as [[result | e] ctx1];
      cbn in Hq' |- *; [| exact Hq'].
    specialize (IH ctx1).
    destruct (execute_queue env config rest ctx1) as [[r rest'] ctx2]. cbn in IH |- *.
    eapply R_trans; [exact Hq' | exact IH].
Qed.

End Batch.

(** ** Cached descriptors *)

Lemma dict_get_app_None :
  forall V k (a b : dict V), dict_get k (a ++ b)%list = None -> dict_get k a = None.
Proof.
  intros V k a b. induction a as [| [k' v] a IH]; cbn; [reflexivity |].
  destruct (String.eqb k k'); [discriminate | exact IH].
Qed.

Lemma caches_refl : forall c, caches c c.
Proof. intros c. split; [apply grows_refl | auto]. Qed.

Lemma caches_trans : forall a b c, caches a b -> caches b c -> caches a c.
Proof.
  intros a b c [G1 F1] [G2 F2]. split; [eapply grows_trans; eassumption |].
  intros id Hin. destruct (F2 id Hin) as [Hb | Hb]; [exact (F1 id Hb) |].
  right. destruct G1 as (added & E & _). rewrite E in Hb.
  exact (dict_get_app_None _ _ _ _ Hb).
Qed.

Lemma caches_same :
  forall c c', metadata c' = metadata c -> sent c' = sent c -> caches c c'.
Proof.
  intros c c' Hm Hs. split; [apply grows_same; exact Hm |].
  intros id Hin. left. rewrite <- Hs. exact Hin.
Qed.

Lemma first_reference_caches :
  forall env name db s,
    dict_get name (metadata s) = None -> caches s (snd (first_reference env name db s)).
Proof.
  intros env name db s Hm. split; [apply first_reference_grows; exact Hm |].
  unfold first_reference, bind, get, set_resource, describeResource, modify, lift, ret.
  cbn.
  assert (H : forall id, In (Introspect id) (sent s ++ [Introspect name]) ->
                         In (Introspect id) (sent s) \/ dict_get id (metadata s) = None).
  { intros id Hin. apply in_app_iff in Hin. destruct Hin as [Hin | [Heq | []]]; [auto |].
    injection Heq as <-. auto. }
  destruct (describe_columns name (table_columns env name) [] None None) as [d | e]; cbn;
    exact H.
Qed.

Lemma run_query_caches :
  forall env config c s, caches s (snd (run_query env config c s)).
Proof.
  intros env config c s. split; [apply grows_same; apply run_query_metadata |].
  unfold run_query, bind, get, modify, raise, ret. cbn.
  assert (H : forall id,
             In (Introspect id)
               ((sent s ++ [SetStatementTimeout
                              (command_timeout env (total_timeout config) (elapsed_is_int s)
      (elapsed_time s))])
                ++ [Select (sql c) (values c)]) ->
             In (Introspect id) (sent s) \/ dict_get id (metadata s) = None).
  { intros id Hin. rewrite !in_app_iff in Hin. cbn in Hin.
    destruct Hin as [[Hin | [Heq | []]] | [Heq | []]]; [auto | discriminate | discriminate]. }
  destruct (run_statement env _ (sql c) (values c)) as [seconds [records | pgcode]]; cbn;
    [| exact H].
  destruct (cfg_timeout config) as [t |]; cbn; [| exact H].
  destruct (Qle_bool _ _); exact H.
Qed.

(** X14: a resource whose descriptor is in the metadata passed to
    [execute] (the shared default when none is passed) is never
    introspected: every introspection statement of a batch names a table
    that metadata does not have. *)
Theorem cached_resources_are_not_introspected :
  forall env default config query given id,
    In (Introspect id) (statements (execute env default config query given)) ->
    dict_get id (match given with Some m => m | None => default end) = None.
Proof.
  intros env default config query given id. unfold execute.
  destruct (crs <~ get_crs query ;; output_format <~ get_format env query ;;
            queue <~ get_queue query ;; Ok (crs, output_format, queue))
    as [[[c f] queue] | e]; cbn; [| intros []].
  match goal with |- context [execute_queue env config queue ?c0] =>
    pose proof (execute_queue_keeps caches caches_refl caches_trans
                  (fun env name db s _ => first_reference_caches env name db s)
                  (fun q c => caches_same c (set_query q c) eq_refl eq_refl)
                  run_query_caches env config queue c0) as [_ H];
    destruct (execute_queue env config queue c0) as [[r queue'] ctx'] end.
  cbn in *. intros Hin. destruct (H id Hin) as [[] | Hnone]. exact Hnone.
Qed.

(** A batch over [lakes] that is passed the metadata of [roads]: it
    introspects [lakes], which that metadata does not have. *)
Lemma cached_resources_are_not_introspected_witness :
  In (Introspect "lakes")
    (statements (execute Sample.env [] Sample.config
                   (Sample.request (Sample.all_of "lakes")) (Some roads_metadata)))
  /\ dict_get "lakes" roads_metadata = None.
Proof.
  assert (H : In (Introspect "lakes")
                (statements (execute Sample.env [] Sample.config
                               (Sample.request (Sample.all_of "lakes"))
                               (Some roads_metadata)))).
  { vm_compute. left. reflexivity. }
  split; [exact H |].
  exact (cached_resources_are_not_introspected Sample.env [] Sample.config
           (Sample.request (Sample.all_of "lakes")) (Some roads_metadata) "lakes" H).
Defined.

(** ** The projection *)

Lemma first_reference_metadata :
  forall env name db s d s',
    first_reference env name db s = (Ok d, s') ->
    metadata s' = dict_set name d (metadata s).
Proof.
  intros env name db s d s'.
  unfold first_reference, bind, get, set_resource, describeResource, modify, lift, ret.
  cbn.
  destruct (describe_columns name (table_columns env name) [] None None) as [x | e]; cbn;
    [| discriminate].
  intros H. injection H as <- <-. reflexivity.
Qed.

(** The descriptors a query resolves are those of the metadata cache. *)
Lemma get_resource_metadata :
  forall env acc query_resource s acc' s',
    get_resource env acc query_resource s = (Ok acc', s') ->
    (forall k d, dict_get k (query_metadata acc) = Some d ->
                 dict_get k (metadata s) = Some d) ->
    forall k d, dict_get k (query_metadata acc') = Some d ->
                dict_get k (metadata s') = Some d.
Proof.
  intros env acc qr s acc' s' H Hacc. unfold get_resource in H.
  apply bind_Ok in H. destruct H as ([n a] & s1 & Href & H).
  apply lift_Ok in Href. destruct Href as [_ ->].
  apply bind_Ok in H. destruct H as (ctx & s2 & Hget & H).
  apply get_Ok in Hget. destruct Hget as [-> ->].
  destruct (dict_get n (resources s)) as [db |]; [| discriminate H].
  apply bind_Ok in H. destruct H as (d0 & s3 & Hd & H).
  apply ret_Ok in H. destruct H as [-> <-]. cbn [query_metadata].
  assert (Hn : dict_get n (metadata s') = Some d0
               /\ forall k, k <> n -> dict_get k (metadata s) = dict_get k (metadata s')).
  { destruct (dict_get n (metadata s)) as [cached |] eqn:Hm.
    - apply ret_Ok in Hd. destruct Hd as [-> ->]. auto.
    - apply first_reference_metadata in Hd. rewrite Hd. split.
      + apply dict_get_set_same.
      + intros k Hk. symmetry. apply dict_get_set_other. exact Hk. }
  destruct Hn as [Hsame Hother]. intros k d Hk.
  destruct (String.eqb_spec k n) as [-> | Hne].
  - rewrite dict_get_set_same in Hk. injection Hk as <-. exact Hsame.
  - rewrite dict_get_set_other in Hk by exact Hne. rewrite <- Hother by exact Hne.
    apply Hacc. exact Hk.
Qed.

Lemma get_resources_metadata :
  forall env s rs s',
    get_resources env s = (Ok rs, s') ->
    forall k d, dict_get k (query_metadata rs) = Some d ->
                dict_get k (metadata s') = Some d.
Proof.
  intros env s rs s' H. unfold get_resources in H.
  apply bind_Ok in H. destruct H as (q & s1 & Hq & H).
  apply gets_Ok in Hq. destruct Hq as [-> ->].
  apply bind_Ok in H. destruct H as (has & s1 & Hhas & H).
  apply lift_Ok in Hhas. destruct Hhas as [_ ->].
  destruct (negb has); [discriminate H |].
  apply bind_Ok in H. destruct H as (l & s1 & Hl & H).
  apply lift_Ok in Hl. destruct Hl as [_ ->].
  destruct l as [| | | | | l | |]; try discriminate H.
  assert (Hloop : forall entries acc s0 rs0 s0',
             fold_m (get_resource env) entries acc s0 = (Ok rs0, s0') ->
             (forall k d, dict_get k (query_metadata acc) = Some d ->
                          dict_get k (metadata s0) = Some d) ->
             forall k d, dict_get k (query_metadata rs0) = Some d ->
                         dict_get k (metadata s0') = Some d).
  { clear. intros entries. induction entries as [| e entries IH];
      intros acc s0 rs0 s0' H Hacc.
    - cbn in H. apply ret_Ok in H. destruct H as [-> ->]. exact Hacc.
    - cbn [fold_m] in H. apply bind_Ok in H. destruct H as (acc1 & s1 & Hstep & H).
      apply (IH _ _ _ _ H). exact (get_resource_metadata _ _ _ _ _ _ Hstep Hacc). }
  apply (Hloop _ _ _ _ _ H). intros k d Hk. discriminate Hk.
Qed.

Lemma get_field_projects :
  forall rs parsed item parsed',
    get_field rs parsed item = Ok parsed' ->
    (forall a f, dict_get a parsed = Some f ->
                 pf_alias f = a /\ projects (query_metadata rs) f) ->
    forall a f, dict_get a parsed' = Some f ->
                pf_alias f = a /\ projects (query_metadata rs) f.
Proof.
  intros rs parsed item parsed' H Hparsed. unfold get_field in H.
  apply and_then_Ok in H. destruct H as ([[field_name field_alias] given] & _ & H).
  apply and_then_Ok in H. destruct H as (field_resource & _ & H).
  destruct (dict_get field_resource (resource_mapping rs)) as [resource_name |];
    [| discriminate H].
  destruct (dict_get resource_name (query_metadata rs)) as [d |] eqn:Hd;
    [| discriminate H].
  destruct (dict_get field_name (fields d)) as [db_field |] eqn:Hf; [| discriminate H].
  destruct (dict_has field_alias parsed); [discriminate H |].
  injection H as <-. apply dict_set_all; [| exact Hparsed].
  split; [reflexivity |].
  exists resource_name, d, field_name, db_field. cbn. repeat split; assumption.
Qed.

Lemma get_fields_projects :
  forall rs q parsed,
    get_fields rs q = Ok parsed ->
    forall a f, dict_get a parsed = Some f ->
                pf_alias f = a /\ projects (query_metadata rs) f.
Proof.
  intros rs q parsed H. unfold get_fields in H.
  apply and_then_Ok in H. destruct H as (fs & _ & H).
  destruct fs as [| | | | | l | |]; try discriminate H.
  assert (Hloop : forall items acc parsed0,
             fold_result (get_field rs) items acc = Ok parsed0 ->
             (forall a f, dict_get a acc = Some f ->
                          pf_alias f = a /\ projects (query_metadata rs) f) ->
             forall a f, dict_get a parsed0 = Some f ->
                         pf_alias f = a /\ projects (query_metadata rs) f).
  { clear. intros items. induction items as [| item items IH]; intros acc parsed0 H Hacc.
    - cbn in H. injection H as <-. exact Hacc.
    - cbn [fold_result] in H. apply and_then_Ok in H. destruct H as (acc1 & Hstep & H).
      apply (IH _ _ H). exact (get_field_projects _ _ _ _ Hstep Hacc). }
  apply (Hloop _ _ _ H). intros a f Hf. discriminate Hf.
Qed.

Lemma grows_lookup :
  forall c c' k d,
    grows c c' -> dict_get k (metadata c) = Some d -> dict_get k (metadata c') = Some d.
Proof.
  intros c c' k d (added & -> & _). generalize (metadata c) as m.
  intros m. induction m as [| [k' v] m IH]; cbn; [discriminate |].
  destruct (String.eqb k k'); [auto | exact IH].
Qed.

(** X15: the select list of a compiled query is made from the metadata
    cache.  Every projected field is filed under its output alias, no two
    under the same one, and is a field of a descriptor of the cache: its
    qualified name is the alias of that descriptor and the name the
    descriptor gives the field, and its type, geometry flag and srid are the
    descriptor's.  The request contributes the output alias only. *)
Theorem projection_comes_from_metadata :
  forall env ctx c ctx',
    compile_query env ctx = (Ok c, ctx') ->
    NoDup (dict_keys (parsed_fields c))
    /\ forall a f,
         dict_get a (parsed_fields c) = Some f ->
         pf_alias f = a /\ projects (metadata ctx') f.
Proof.
  intros env ctx c ctx' H.
  destruct (compile_query_Ok _ _ _ _ H)
    as (L & O & rs & s & b & s0 & filters & wheres & sort & _ & _ & Hres & _ & Hexp
        & Hfields & _ & Hfilters & _).
  split; [exact (get_fields_keys _ _ _ Hfields) |].
  intros a f Hf. destruct (get_fields_projects _ _ _ Hfields a f Hf) as [Ha Hp].
  split; [exact Ha |].
  assert (G1 : grows s s0).
  { destruct b.
    - pose proof (expand_fields_grows env (query_metadata rs) s) as G. rewrite Hexp in G.
      exact G.
    - apply ret_Ok in Hexp. destruct Hexp as [_ ->]. apply grows_refl. }
  assert (G2 : grows s0 ctx').
  { pose proof (get_filters_grows env rs s0) as G. rewrite Hfilters in G. exact G. }
  destruct Hp as (resource & d & key & db_field & Hd & Hrest).
  exists resource, d, key, db_field. split; [| exact Hrest].
  apply (grows_lookup s0 ctx'); [exact G2 |].
  apply (grows_lookup s s0); [exact G1 |].
  exact (get_resources_metadata _ _ _ _ Hres _ _ Hd).
Qed.

(** All fields of [roads] on the sample catalog. *)
Lemma projection_comes_from_metadata_witness :
  exists c ctx',
    compile_query Sample.env (Sample.context (Sample.all_of "roads")) = (Ok c, ctx')
    /\ NoDup (dict_keys (parsed_fields c))
    /\ forall a f,
         dict_get a (parsed_fields c) = Some f ->
         pf_alias f = a /\ projects (metadata ctx') f.
Proof.
  destruct (compile_query Sample.env (Sample.context (Sample.all_of "roads")))
    as [[c | e] ctx'] eqn:E; [| vm_compute in E; discriminate E].
  exists c, ctx'. split; [reflexivity |].
  exact (projection_comes_from_metadata _ _ _ _ E).
Defined.

(** ** The order-by clause *)

Lemma get_sort_entry_Ok :
  forall rs pf parsed item parsed',
    get_sort_entry rs pf parsed item = Ok parsed' ->
    exists entry, parsed' = (parsed ++ [entry])%list /\ is_sort_entry rs pf item entry.
Proof.
  intros rs pf parsed item parsed' H. unfold get_sort_entry in H.
  apply and_then_Ok in H. destruct H as ([[name resource] desc] & Href & H).
  fold (sort_field pf name) in H.
  apply and_then_Ok in H. destruct H as (sort_resource & Hres & H).
  destruct (dict_get sort_resource (resource_mapping rs)) as [resource_name |];
    [| discriminate H].
  destruct (dict_get resource_name (query_metadata rs)) as [d |] eqn:Hd;
    [| discriminate H].
  injection H as <-. eexists. split; [reflexivity |].
  exists name, resource, desc, resource_name, d. repeat split; auto.
  intros ->. exists sort_resource. eapply infer_resource_Ok. exact Hres.
Qed.

Lemma get_sort_loop :
  forall rs pf items parsed sort,
    fold_result (get_sort_entry rs pf) items parsed = Ok sort ->
    exists entries,
      sort = (parsed ++ entries)%list /\ Forall2 (is_sort_entry rs pf) items entries.
Proof.
  intros rs pf items. induction items as [| item items IH]; intros parsed sort H.
  - cbn in H. injection H as <-. exists []. split; [now rewrite app_nil_r | constructor].
  - cbn [fold_result] in H. apply and_then_Ok in H. destruct H as (parsed1 & Hstep & H).
    destruct (get_sort_entry_Ok _ _ _ _ _ Hstep) as (entry & -> & Hentry).
    destruct (IH _ _ H) as (entries & -> & Hall).
    exists (entry :: entries). split; [rewrite <- app_assoc; reflexivity |].
    constructor; assumption.
Qed.

(** X16: the order-by clause has one entry per sort item, in order:
    the alias of a resolved descriptor, then in double quotes the sort name
    (or, when the sort name is an output alias of the projection, the field
    that alias renames), then the direction.  The sort name is checked
    against the metadata only when the item names no resource: it is then a
    field of exactly one resolved resource. *)
Theorem sort_entries :
  forall rs parsed_fields q items sort,
    py_getitem q "sort" = Ok (VList items) ->
    get_sort rs parsed_fields q = Ok sort ->
    Forall2 (is_sort_entry rs parsed_fields) items sort.
Proof.
  intros rs pf q items sort Hitems H. unfold get_sort in H.
  apply and_then_Ok in H. destruct H as (has & Hhas & H).
  assert (has = true) as ->.
  { destruct q as [| | | | | | d |]; try discriminate Hitems.
    cbn in Hitems, Hhas. injection Hhas as <-.
    unfold dict_has. destruct (dict_get "sort" d); [reflexivity | discriminate Hitems]. }
  cbn [negb] in H. rewrite Hitems in H. cbn in H.
  destruct (get_sort_loop _ _ _ _ _ H) as (entries & -> & Hall). exact Hall.
Qed.

(** Sorting [roads] by [name], descending. *)
Lemma sort_entries_witness :
  Forall2
    (is_sort_entry
       {| parsed_resources := [("roads", ("roads", "t1"))];
          query_metadata := roads_metadata;
          resource_mapping := [("roads", "roads")] |}
       [])
    [VDict [("name", VStr "name"); ("desc", VBool true)]]
    [qualified "t1" "name" ++ " desc"].
Proof.
  apply (sort_entries _ _
           (VDict [("sort", VList [VDict [("name", VStr "name"); ("desc", VBool true)]])]));
    reflexivity.
Defined.

(** ** Resolved resources *)

Lemma dict_keys_set :
  forall V k (v : V) d,
    dict_keys (dict_set k v d)
    = if dict_has k d then dict_keys d else (dict_keys d ++ [k])%list.
Proof.
  intros V k v d. unfold dict_has, dict_keys. induction d as [| [k' v'] d IH]; cbn.
  - reflexivity.
  - destruct (String.eqb_spec k k') as [-> | Hne]; cbn; [reflexivity |].
    rewrite IH. destruct (dict_get k d); reflexivity.
Qed.

Lemma dict_has_keys :
  forall V W k (d : dict V) (d' : dict W),
    dict_keys d = dict_keys d' -> dict_has k d = dict_has k d'.
Proof.
  intros V W k d. unfold dict_has, dict_keys.
  induction d as [| [k1 v1] d IH]; intros [| [k2 v2] d'] H; cbn in *;
    try discriminate; [reflexivity |].
  injection H as -> H. destruct (String.eqb k k2); [reflexivity | apply IH; exact H].
Qed.

Lemma get_resource_closed :
  forall env acc query_resource s acc' s' catalog,
    get_resource env acc query_resource s = (Ok acc', s') ->
    stubs (resources s) = stubs catalog ->
    closed catalog acc -> closed catalog acc'.
Proof.
  intros env acc qr s acc' s' catalog H Hcat (Hkeys & Hlook & Hmap).
  unfold get_resource in H.
  apply bind_Ok in H. destruct H as ([n a] & s1 & Href & H).
  apply lift_Ok in Href. destruct Href as [_ ->].
  apply bind_Ok in H. destruct H as (ctx & s2 & Hget & H).
  apply get_Ok in Hget. destruct Hget as [-> ->].
  destruct (dict_get n (resources s)) as [db |] eqn:Hdb; [| discriminate H].
  apply bind_Ok in H. destruct H as (d0 & s3 & _ & H).
  apply ret_Ok in H. destruct H as [-> _].
  assert (Hn : dict_has n catalog = true).
  { rewrite <- (dict_has_stubs n _ _ Hcat). unfold dict_has. rewrite Hdb. reflexivity. }
  unfold closed. cbn [parsed_resources query_metadata resource_mapping].
  split; [| split].
  - rewrite !dict_keys_set, (dict_has_keys _ _ n _ _ Hkeys), Hkeys. reflexivity.
  - intros name d Hd. destruct (String.eqb_spec name n) as [-> | Hne].
    + rewrite dict_get_set_same in Hd. injection Hd as <-.
      split; [apply dict_get_set_same | exact Hn].
    + rewrite dict_get_set_other in Hd |- * by exact Hne. apply (Hlook _ _ Hd).
  - intros k name Hk. rewrite dict_has_set.
    destruct (String.eqb_spec name n) as [-> | Hne]; [reflexivity |]. cbn.
    destruct (String.eqb_spec k a) as [-> | Hka].
    + rewrite dict_get_set_same in Hk. congruence.
    + rewrite dict_get_set_other in Hk by exact Hka.
      destruct (String.eqb_spec k n) as [-> | Hkn].
      * rewrite dict_get_set_same in Hk. congruence.
      * rewrite dict_get_set_other in Hk by exact Hkn. exact (Hmap _ _ Hk).
Qed.

(** X17: when the resources of a query resolve, what resolution has
    gathered is closed.  The from clause lists each resource once, with the
    table and the alias of its descriptor, in the order of the first
    references; each is a resource of the catalog; and every name or alias
    the query may use for a resource stands for one of them, so the second
    half of the tests behind "Resource ... for field ... does not exist." can
    never be what fails. *)
Theorem resolution_is_closed :
  forall env s rs s',
    get_resources env s = (Ok rs, s') -> closed (resources s) rs.
Proof.
  intros env s rs s' H. unfold get_resources in H.
  apply bind_Ok in H. destruct H as (q & s1 & Hq & H).
  apply gets_Ok in Hq. destruct Hq as [-> ->].
  apply bind_Ok in H. destruct H as (has & s1 & Hhas & H).
  apply lift_Ok in Hhas. destruct Hhas as [_ ->].
  destruct (negb has); [discriminate H |].
  apply bind_Ok in H. destruct H as (l & s1 & Hl & H).
  apply lift_Ok in Hl. destruct Hl as [_ ->].
  destruct l as [| | | | | l | |]; try discriminate H.
  assert (Hloop : forall entries acc s0 rs0 s0' catalog,
             fold_m (get_resource env) entries acc s0 = (Ok rs0, s0') ->
             stubs (resources s0) = stubs catalog ->
             closed catalog acc -> closed catalog rs0).
  { clear. intros entries. induction entries as [| e entries IH];
      intros acc s0 rs0 s0' catalog H Hcat Hacc.
    - cbn in H. apply ret_Ok in H. destruct H as [-> _]. exact Hacc.
    - cbn [fold_m] in H. apply bind_Ok in H. destruct H as (acc1 & s1 & Hstep & H).
      pose proof (get_resource_respects frame frame_refl first_reference_frame
                    env acc e s0) as F.
      rewrite Hstep in F. cbn in F.
      apply (IH _ _ _ _ catalog H).
      + rewrite (frame_stubs _ _ F). exact Hcat.
      + exact (get_resource_closed _ _ _ _ _ _ _ Hstep Hcat Hacc). }
  apply (Hloop _ _ _ _ _ _ H eq_refl). unfold closed. cbn.
  split; [reflexivity |]. split; intros k x Hk; discriminate Hk.
Qed.

(** [roads] and [lakes] on the sample catalog. *)
Lemma resolution_is_closed_witness :
  exists rs s',
    get_resources Sample.env
      (Sample.context (VDict [("resources", VList [VStr "roads"; VStr "lakes"])]))
    = (Ok rs, s')
    /\ closed (getResources Sample.env) rs.
Proof.
  destruct (get_resources Sample.env
              (Sample.context (VDict [("resources", VList [VStr "roads"; VStr "lakes"])])))
    as [[rs | e] s'] eqn:E; [| vm_compute in E; discriminate E].
  exists rs, s'. split; [reflexivity |].
  exact (resolution_is_closed _ _ _ _ E).
Defined.

(** ** Spatial filters *)





















(** ** What a batch writes into the catalog entries (claim C7) *)

Lemma writes_same :
  forall c c',
    metadata c' = metadata c -> resources c' = resources c -> writes c c'.
Proof.
  intros c c' Hm Hr. split; [apply grows_same; exact Hm |].
  intros name. rewrite Hm, Hr. repeat split; auto.
  intros d Hnone Hsome. congruence.
Qed.

Lemma writes_refl : forall c, writes c c.
Proof. intros c. apply writes_same; reflexivity. Qed.

Lemma writes_trans : forall a b c, writes a b -> writes b c -> writes a c.
Proof.
  intros a b c [G1 W1] [G2 W2]. split; [eapply grows_trans; eassumption |].
  intros name.
  destruct (W1 name) as (K1 & N1 & D1). destruct (W2 name) as (K2 & N2 & D2).
  split; [| split].
  - intros Ha.
    assert (Hb : dict_get name (metadata b) <> None).
    { destruct (dict_get name (metadata a)) as [d |] eqn:E; [| contradiction].
      rewrite (grows_lookup a b name d G1 E). discriminate. }
    rewrite (K2 Hb). exact (K1 Ha).
  - intros d Ha Hc.
    destruct (dict_get name (metadata b)) as [d_b |] eqn:Eb.
    + pose proof (grows_lookup b c name d_b G2 Eb) as Hc'.
      rewrite Hc in Hc'. injection Hc' as ->.
      rewrite K2 by discriminate. apply N1; [exact Ha | reflexivity].
    + apply N2; [reflexivity | exact Hc].
  - intros Hc.
    assert (Hb : dict_get name (metadata b) = None).
    { destruct G2 as (added & E & _). rewrite E in Hc.
      exact (dict_get_app_None _ _ _ _ Hc). }
    rewrite D2, D1; [reflexivity | exact Hb | exact Hc].
Qed.

(** Lines 255 to 266: the alias is written into the entry first; when the
    introspection returns, the description is written too and the entry
    joins the cache; when it raises, the alias stays written. *)
Lemma first_reference_writes :
  forall env name db s,
    dict_get name (resources s) = Some db ->
    dict_get name (metadata s) = None ->
    writes s (snd (first_reference env name db s)).
Proof.
  intros env name db s Hdb Hm. split; [apply first_reference_grows; exact Hm |].
  intros name'.
  unfold first_reference, bind, get, set_resource, describeResource, modify, lift, ret.
  cbn.
  destruct (describe_columns name (table_columns env name) [] None None) as [d | e]; cbn.
  - destruct (string_dec name' name) as [-> | Hne].
    + split; [intros H; contradiction | split].
      * intros d0 _ H. rewrite dict_get_set_same in H. injection H as <-.
        rewrite dict_get_set_same. destruct d. reflexivity.
      * intros H. rewrite dict_get_set_same in H. discriminate H.
    + rewrite !(dict_get_set_other _ name' name) by exact Hne.
      split; [reflexivity | split; [| reflexivity]].
      intros d0 Hnone Hsome. congruence.
  - destruct (string_dec name' name) as [-> | Hne].
    + split; [intros H; contradiction | split].
      * intros d0 Hnone Hsome. congruence.
      * intros _. rewrite dict_get_set_same, Hdb. reflexivity.
    + rewrite !(dict_get_set_other _ name' name) by exact Hne.
      split; [reflexivity | split; [| reflexivity]].
      intros d0 Hnone Hsome. congruence.
Qed.

Lemma run_query_writes :
  forall env config c s, writes s (snd (run_query env config c s)).
Proof.
  intros env config c s.
  apply writes_same; [apply run_query_metadata | apply run_query_resources].
Qed.

Lemma execute_queue_writes :
  forall env config queue ctx, writes ctx (snd (execute_queue env config queue ctx)).
Proof.
  exact (execute_queue_keeps writes writes_refl writes_trans first_reference_writes
           (fun q c => writes_same c (set_query q c) eq_refl eq_refl)
           run_query_writes).
Qed.

(** C7, as amended: whatever the queue, the batch leaves the entries of
    [context['resources']] with the names and the catalog attributes
    (table, resource_name, package_title, package_notes, wms, wms_server,
    wms_layer, geometry_type) they had.  It does write into the entries:
    the entry of a resource that the batch adds to the metadata cache
    holds the alias, srid, geometry_column and fields of its descriptor
    there; the entry of a resource that the cache holds when the batch
    starts is left as it is; in the entry of a resource that the cache
    does not hold when the batch ends, srid, geometry_column and fields
    are as they were. *)
Theorem catalog_attributes_are_kept :
  forall env config queue ctx name,
    let ctx' := snd (execute_queue env config queue ctx) in
    dict_keys (resources ctx') = dict_keys (resources ctx)
    /\ option_map stub (dict_get name (resources ctx'))
       = option_map stub (dict_get name (resources ctx))
    /\ (forall d,
          dict_get name (metadata ctx) = None ->
          dict_get name (metadata ctx') = Some d ->
          dict_get name (resources ctx') = Some (entry_of d))
    /\ (dict_get name (metadata ctx) <> None ->
        dict_get name (resources ctx') = dict_get name (resources ctx))
    /\ (dict_get name (metadata ctx') = None ->
        option_map r_description (dict_get name (resources ctx'))
        = option_map r_description (dict_get name (resources ctx))).
Proof.
  intros env config queue ctx name ctx'.
  pose proof (execute_queue_stubs env config queue ctx) as H. fold ctx' in H.
  pose proof (execute_queue_writes env config queue ctx) as [_ W]. fold ctx' in W.
  destruct (W name) as (K & N & D).
  split; [exact (stubs_keys _ _ H) | split; [| split; [exact N | split; [exact K | exact D]]]].
  rewrite <- !stubs_dict_get, H. reflexivity.
Qed.

(** A batch of one query on [roads], which the cache does not hold: it
    adds the descriptor of [roads] to the cache, and the catalog entry of
    [roads] is that descriptor. *)
Lemma catalog_attributes_are_kept_witness :
  let ctx := Sample.context VNone in
  let ctx' :=
    snd (execute_queue Sample.env Sample.config [Sample.all_of "roads"] ctx) in
  dict_get "roads" (metadata ctx) = None
  /\ exists d,
       dict_get "roads" (metadata ctx') = Some d
       /\ dict_get "roads" (resources ctx') = Some (entry_of d).
Proof.
  intros ctx ctx'.
  assert (Hm : dict_get "roads" (metadata ctx) = None) by reflexivity.
  destruct (dict_get "roads" (metadata ctx')) as [d |] eqn:E;
    [| vm_compute in E; discriminate E].
  split; [exact Hm |]. exists d. split; [reflexivity |].
  exact (proj1 (proj2 (proj2
           (catalog_attributes_are_kept Sample.env Sample.config
              [Sample.all_of "roads"] ctx "roads"))) d Hm E).
Defined.

(** ** The statement timeout of every batch (claim C5) *)

Lemma floors_refl : forall c, floors c c.
Proof. intros c ms H. left. exact H. Qed.

Lemma floors_trans : forall a b c, floors a b -> floors b c -> floors a c.
Proof.
  intros a b c F1 F2 ms H. destruct (F2 ms H) as [Hb | Hge]; [exact (F1 ms Hb) | right; exact Hge].
Qed.

Lemma floors_same : forall c c', sent c' = sent c -> floors c c'.
Proof. intros c c' E ms H. left. rewrite <- E. exact H. Qed.

Lemma first_reference_floors :
  forall env name db s, floors s (snd (first_reference env name db s)).
Proof.
  intros env name db s ms.
  unfold first_reference, bind, get, set_resource, describeResource, modify, lift, ret.
  cbn.
  assert (H : In (SetStatementTimeout ms) (sent s ++ [Introspect name]) ->
              In (SetStatementTimeout ms) (sent s) \/ 1000 <= ms).
  { intros Hin. apply in_app_iff in Hin. destruct Hin as [Hin | [Heq | []]]; [auto |].
    discriminate Heq. }
  destruct (describe_columns name (table_columns env name) [] None None) as [d | e]; cbn;
    exact H.
Qed.

(** Line 500: the timeout sent is a maximum with 1000. *)
Lemma run_query_floors :
  forall env config c s, floors s (snd (run_query env config c s)).
Proof.
  intros env config c s ms.
  unfold run_query, bind, get, modify, raise, ret. cbn.
  set (sent_ms := command_timeout env (total_timeout config) (elapsed_is_int s)
                    (elapsed_time s)).
  assert (H : In (SetStatementTimeout ms)
                ((sent s ++ [SetStatementTimeout sent_ms]) ++ [Select (sql c) (values c)]) ->
              In (SetStatementTimeout ms) (sent s) \/ 1000 <= ms).
  { intros Hin. rewrite !in_app_iff in Hin. cbn in Hin.
    destruct Hin as [[Hin | [Heq | []]] | [Heq | []]]; [auto | | discriminate].
    injection Heq as <-. right. apply Z.le_max_r. }
  destruct (run_statement env _ (sql c) (values c)) as [seconds [records | pgcode]]; cbn;
    [| exact H].
  destruct (cfg_timeout config) as [t |]; cbn; [| exact H].
  destruct (Qle_bool _ _); exact H.
Qed.

Lemma execute_queue_floors :
  forall env config queue ctx, floors ctx (snd (execute_queue env config queue ctx)).
Proof.
  exact (execute_queue_keeps floors floors_refl floors_trans
           (fun env name db s _ _ => first_reference_floors env name db s)
           (fun q c => floors_same c (set_query q c) eq_refl)
           run_query_floors).
Qed.

(** C5, as amended: every [statement_timeout] a batch issues is at
    least 1000.  When the clock of the data connection does not run
    backwards and the total timeout is at most 2^53 ms, it is also at most
    the larger of the total timeout and 1000; so it is at most the total
    timeout whenever that is between 1000 and 2^53 ms.  The arithmetic of
    line 500 is on doubles as soon as the elapsed time is one: rounding
    is taken to keep the order and the integers up to 2^53.  The upper
    bound is that of [command_timeout_bounds], for every elapsed time
    that is not negative. *)
Theorem statement_timeout_bounds :
  forall env default config query given ms,
    In (SetStatementTimeout ms) (statements (execute env default config query given)) ->
    1000 <= ms
    /\ ((forall t sql vals, (0 <= fst (run_statement env t sql vals))%Q) ->
        rounds (float_round env) ->
        total_timeout config <= 2 ^ 53 ->
        ms <= Z.max (total_timeout config) 1000
        /\ (1000 <= total_timeout config -> ms <= total_timeout config)).
Proof.
  intros env default config query given ms. unfold execute.
  destruct (crs <~ get_crs query ;; output_format <~ get_format env query ;;
            queue <~ get_queue query ;; Ok (crs, output_format, queue))
    as [[[c f] queue] | e]; cbn; [| intros []].
  match goal with |- context [execute_queue env config queue ?c0] =>
    pose proof (execute_queue_floors env config queue c0) as Hf;
    pose proof (fun Hclock Hround HT =>
                  execute_queue_within_budget env config Hclock Hround HT queue c0) as Hb;
    destruct (execute_queue env config queue c0) as [[r queue'] ctx'] end.
  cbn in *. intros Hin. split.
  - destruct (Hf ms Hin) as [[] | Hge]. exact Hge.
  - intros Hclock Hround HT.
    destruct (Hb Hclock Hround HT) as [_ Hs]; [split; [cbn; lra | constructor] |].
    rewrite Forall_forall in Hs. pose proof (Hs _ Hin) as H. cbn in H. lia.
Qed.

(** The batch of claim C2's sample with the 30 s budget: its one
    statement runs under a timeout of 30000. *)
Lemma statement_timeout_bounds_witness :
  1000 <= 30000
  /\ 30000 <= Z.max (total_timeout Sample.config) 1000
  /\ (1000 <= total_timeout Sample.config -> 30000 <= total_timeout Sample.config).
Proof.
  destruct (statement_timeout_bounds Sample.env [] Sample.config
              (Sample.request (Sample.all_of "roads")) None 30000) as [Hlow Hhigh].
  - vm_compute. right. left. reflexivity.
  - split; [exact Hlow |]. apply Hhigh.
    + intros t sql vals. cbn. discriminate.
    + split; [intros x y H; exact H | intros n _; apply Qeq_refl].
    + cbn. lia.
Defined.

(** Above 2^53 ms the upper bound fails.  With a budget of 2^53 + 3 ms
    the first query of a batch runs under that budget, computed on
    integers; its 2^-11 s make the elapsed time a double, and the second
    query runs under 2^53 + 4 ms: the budget as a double, less half a
    millisecond, rounded. *)
Example statement_timeout_exceeds_large_total :
  let total := 2 ^ 53 + 3 in
  let query := VDict [("queue", VList [Sample.all_of "roads"; Sample.all_of "roads"])] in
  rounds (float_round Sample.quick_env)
  /\ (forall t sql vals, (0 <= fst (run_statement Sample.quick_env t sql vals))%Q)
  /\ In (SetStatementTimeout (total + 1))
        (statements (execute Sample.quick_env [] {| cfg_timeout := Some total |} query None))
  /\ ~ total + 1 <= Z.max total 1000.
Proof.
  cbv zeta. split; [| split; [| split]].
  - split.
    + intros x y Hxy. cbn. unfold Sample.coarse.
      assert (E : (inject_Z (2 ^ 53 + 4) == inject_Z (2 ^ 53 + 3) + 1)%Q)
        by reflexivity.
      set (low := inject_Z (2 ^ 53 + 3)) in *. set (high := inject_Z (2 ^ 53 + 4)) in *.
      destruct (Qle_bool low x) eqn:Ex1; destruct (Qle_bool x high) eqn:Ex2;
        destruct (Qle_bool low y) eqn:Ey1; destruct (Qle_bool y high) eqn:Ey2; cbn;
        repeat match goal with
               | H : Qle_bool _ _ = true |- _ => apply Qle_bool_iff in H
               | H : Qle_bool ?a ?b = false |- _ =>
                   assert (b < a)%Q
                     by (apply Qnot_le_lt; intros Hle; apply Qle_bool_iff in Hle; congruence);
                   clear H
               end;
        lra.
    + intros n Hn. cbn. unfold Sample.coarse.
      destruct (Qle_bool (inject_Z (2 ^ 53 + 3)) (inject_Z n)) eqn:E; cbn;
        [| apply Qeq_refl].
      apply Qle_bool_iff in E. rewrite <- Zle_Qle in E.
      assert (Hp : 0 < 2 ^ 53) by reflexivity. lia.
  - intros t sql vals. cbn. discriminate.
  - vm_compute. do 3 right. left. reflexivity.
  - vm_compute. intros H. apply H. reflexivity.
Qed.
